(** * BlueZ serial manager ([serial/manager.c]): pending-connection
      orchestrator and proxy engine

    A shallow embedding of the request handlers and reactor callbacks of
    [serial/manager.c], with the properties of its specification stated
    and proved over it.

    Conventions.
    - C [int]/[long] values are [Z]; narrowing conversions ([uint8_t],
      [int16_t], [uint32_t]) are written out where the source performs
      them.
    - A C string is the Coq [string] of its characters before the
      terminating NUL.
    - [struct pending_connect] objects live in a heap indexed by their
      address; [pending_connects] is the [GSList] of those addresses, and
      [g_new0] may return the address of a struct that was freed.
    - Everything the file calls but does not define (system calls, libc,
      D-Bus, libbluetooth, the port and storage modules) is either a libc
      function modelled from its C definition, a per-dispatch table of
      results ([sysres]), or an entry of the event trace. *)

From Stdlib Require Import ZArith List String Ascii Bool Lia DecimalString.
From Stdlib Require DecimalPos.
Import ListNotations.

Open Scope string_scope.
Open Scope list_scope.
Open Scope Z_scope.

(** ** libc string functions used by the manager *)

Module CString.

Definition code (c : ascii) : Z := Z.of_N (N_of_ascii c).

(** [tolower] in the C locale, on the character's code. *)
Definition tolower (c : ascii) : Z :=
  let n := code c in
  if (65 <=? n) && (n <=? 90) then n + 32 else n.

Fixpoint strcasecmp (s1 s2 : string) : Z :=
  match s1, s2 with
  | EmptyString, EmptyString => 0
  | EmptyString, String c2 _ => 0 - tolower c2
  | String c1 _, EmptyString => tolower c1
  | String c1 r1, String c2 r2 =>
      if tolower c1 =? tolower c2 then strcasecmp r1 r2
      else tolower c1 - tolower c2
  end.

Fixpoint strncasecmp (s1 s2 : string) (n : nat) : Z :=
  match n with
  | O => 0
  | S n' =>
      match s1, s2 with
      | EmptyString, EmptyString => 0
      | EmptyString, String c2 _ => 0 - tolower c2
      | String c1 _, EmptyString => tolower c1
      | String c1 r1, String c2 r2 =>
          if tolower c1 =? tolower c2 then strncasecmp r1 r2 n'
          else tolower c1 - tolower c2
      end
  end.

Fixpoint strcmp (s1 s2 : string) : Z :=
  match s1, s2 with
  | EmptyString, EmptyString => 0
  | EmptyString, String c2 _ => 0 - code c2
  | String c1 _, EmptyString => code c1
  | String c1 r1, String c2 r2 =>
      if code c1 =? code c2 then strcmp r1 r2 else code c1 - code c2
  end.

Definition strlen (s : string) : Z := Z.of_nat (String.length s).

(** [s + n] on a [const char *]. *)
Fixpoint str_offset (n : nat) (s : string) : string :=
  match n, s with
  | O, _ => s
  | S n', String _ r => str_offset n' r
  | S _, EmptyString => EmptyString
  end.

(** [snprintf(buf, size, ...)] keeps at most [size - 1] characters. *)
Definition snprintf (size : nat) (formatted : string) : string :=
  substring 0 (size - 1) formatted.

(** [%d] *)
Definition fmt_d (z : Z) : string := NilZero.string_of_int (Z.to_int z).

(** *** [strtol(nptr, &endptr, base)] on an LP64 target, for the bases
    the manager uses (0 and, through [atoi], 10) *)

Definition LONG_MAX : Z := 2 ^ 63 - 1.
Definition LONG_MIN : Z := - 2 ^ 63.
Definition ERANGE : Z := 34.
Definition EINVAL : Z := 22.

Definition isspace (c : ascii) : bool :=
  let n := code c in (n =? 32) || ((9 <=? n) && (n <=? 13)).

Definition digit_of (c : ascii) : option Z :=
  let n := code c in
  if (48 <=? n) && (n <=? 57) then Some (n - 48)
  else if (97 <=? n) && (n <=? 122) then Some (n - 87)
  else if (65 <=? n) && (n <=? 90) then Some (n - 55)
  else None.

Fixpoint skip_space (s : string) (k : nat) : string * nat :=
  match s with
  | String c r => if isspace c then skip_space r (S k) else (s, k)
  | EmptyString => (s, k)
  end.

(** Accumulates the digits valid in [base]; returns the magnitude and the
    number of digits consumed. *)
Fixpoint scan_digits (base : Z) (s : string) (acc : Z) (n : nat) : Z * nat :=
  match s with
  | String c r =>
      match digit_of c with
      | Some d =>
          if d <? base then scan_digits base r (acc * base + d) (S n)
          else (acc, n)
      | None => (acc, n)
      end
  | EmptyString => (acc, n)
  end.

Record strtol_result := {
  st_val : Z;        (* returned value *)
  st_end : nat;      (* endptr - nptr *)
  st_errno : Z       (* errno afterwards, 0 when left untouched *)
}.

Definition strtol (nptr : string) (base : Z) : strtol_result :=
  let '(s, k) := skip_space nptr 0 in
  let '(neg, s, k) :=
    match s with
    | String c r =>
        if code c =? 45 then (true, r, S k)
        else if code c =? 43 then (false, r, S k)
        else (false, s, k)
    | EmptyString => (false, s, k)
    end in
  let '(base, digits, kd, hex) :=
    match s with
    | String c0 rest =>
        if code c0 =? 48 then
          match rest with
          | String c1 r =>
              if ((base =? 0) || (base =? 16)) && (tolower c1 =? 120)
              then (16, r, S (S k), true)
              else if base =? 0 then (8, s, k, false)
              else (base, s, k, false)
          | EmptyString =>
              if base =? 0 then (8, s, k, false) else (base, s, k, false)
          end
        else if base =? 0 then (10, s, k, false)
        else (base, s, k, false)
    | EmptyString => (if base =? 0 then 10 else base, s, k, false)
    end in
  let '(m, nd) := scan_digits base digits 0 0 in
  match nd with
  | O =>
      (* no digits: after "0x" the conversion is the "0", endptr at the x *)
      if hex then {| st_val := 0; st_end := S k; st_errno := 0 |}
      else {| st_val := 0; st_end := 0; st_errno := 0 |}
  | S _ =>
      if neg then
        if - LONG_MIN <? m
        then {| st_val := LONG_MIN; st_end := (kd + nd)%nat; st_errno := ERANGE |}
        else {| st_val := - m; st_end := (kd + nd)%nat; st_errno := 0 |}
      else
        if LONG_MAX <? m
        then {| st_val := LONG_MAX; st_end := (kd + nd)%nat; st_errno := ERANGE |}
        else {| st_val := m; st_end := (kd + nd)%nat; st_errno := 0 |}
  end.

Definition int32 (z : Z) : Z := (z + 2 ^ 31) mod 2 ^ 32 - 2 ^ 31.

(** [atoi(s)], that is [(int) strtol(s, NULL, 10)]. *)
Definition atoi (s : string) : Z := int32 (st_val (strtol s 10)).

(** [strchr(s, c)]: the suffix starting at the first [c], [None] for NULL. *)
Fixpoint strchr (s : string) (c : ascii) : option string :=
  match s with
  | EmptyString => None
  | String d r => if code d =? code c then Some s else strchr r c
  end.

Fixpoint strncmp (s1 s2 : string) (n : nat) : Z :=
  match n with
  | O => 0
  | S n' =>
      match s1, s2 with
      | EmptyString, EmptyString => 0
      | EmptyString, String c2 _ => 0 - code c2
      | String c1 _, EmptyString => code c1
      | String c1 r1, String c2 r2 =>
          if code c1 =? code c2 then strncmp r1 r2 n' else code c1 - code c2
      end
  end.

End CString.
Import CString.

(** ** Pattern resolver *)

Definition BASE_UUID : string := "00000000-0000-1000-8000-00805F9B34FB".

(** Service class identifiers of [<bluetooth/sdp.h>]. *)
Definition VIDEO_CONF_SVCLASS_ID : Z := 0x110f.
Definition PBAP_SVCLASS_ID : Z := 0x1130.
Definition SAP_SVCLASS_ID : Z := 0x112d.
Definition OBEX_FILETRANS_SVCLASS_ID : Z := 0x1106.
Definition BASIC_PRINTING_SVCLASS_ID : Z := 0x1122.
Definition IMAGING_SVCLASS_ID : Z := 0x111a.
Definition IRMC_SYNC_SVCLASS_ID : Z := 0x1104.
Definition DIALUP_NET_SVCLASS_ID : Z := 0x1103.
Definition OBEX_OBJPUSH_SVCLASS_ID : Z := 0x1105.
Definition FAX_SVCLASS_ID : Z := 0x1111.
Definition SERIAL_PORT_SVCLASS_ID : Z := 0x1101.

Definition serial_services : list (string * Z) :=
  [ ("vcp", VIDEO_CONF_SVCLASS_ID);
    ("pbap", PBAP_SVCLASS_ID);
    ("sap", SAP_SVCLASS_ID);
    ("ftp", OBEX_FILETRANS_SVCLASS_ID);
    ("bpp", BASIC_PRINTING_SVCLASS_ID);
    ("bip", IMAGING_SVCLASS_ID);
    ("synch", IRMC_SYNC_SVCLASS_ID);
    ("dun", DIALUP_NET_SVCLASS_ID);
    ("opp", OBEX_OBJPUSH_SVCLASS_ID);
    ("fax", FAX_SVCLASS_ID);
    ("spp", SERIAL_PORT_SVCLASS_ID) ].

Fixpoint str2class_from (tbl : list (string * Z)) (pattern : string) : Z :=
  match tbl with
  | [] => 0
  | (name, class) :: rest =>
      if strcasecmp name pattern =? 0 then class
      else str2class_from rest pattern
  end.

Definition str2class (pattern : string) : Z :=
  str2class_from serial_services pattern.

Definition hex_digit (d : Z) : ascii :=
  ascii_of_N (Z.to_N (if d <? 10 then 48 + d else 87 + d)).

(** [%.4x] of a 16-bit value. *)
Definition fmt_04x (v : Z) : string :=
  String (hex_digit (Z.shiftr v 12 mod 16))
    (String (hex_digit (Z.shiftr v 8 mod 16))
       (String (hex_digit (Z.shiftr v 4 mod 16))
          (String (hex_digit (v mod 16)) EmptyString))).

(** [sdp_uuid16_create], [sdp_uuid16_to_uuid128] and [sdp_uuid2strn] in
    sequence: the 16-bit class placed in the Bluetooth base UUID and
    printed in lower-case hexadecimal. *)
Definition uuid16_to_str128 (cls : Z) : string :=
  "0000" ++ fmt_04x cls ++ "-0000-1000-8000-00805f9b34fb".

(** [pattern2uuid128]: [Some uuid] for return 0, [None] for [-EINVAL]. *)
Definition pattern2uuid128 (pattern : string) (size : nat) : option string :=
  let cls := str2class pattern in
  if negb (cls =? 0) then
    Some (snprintf size (uuid16_to_str128 cls))
  else if (strlen pattern =? 36)
          && (strncasecmp BASE_UUID pattern 3 =? 0)
          && (strncasecmp (str_offset 8 BASE_UUID) (str_offset 8 pattern) 28 =? 0)
  then Some (substring 0 size pattern)
  else None.

(** [pattern2long]: [Some val] for return 0 with [*pval = val], [None] for
    [-EINVAL]. *)
Definition pattern2long (pattern : string) : option Z :=
  let r := strtol pattern 0 in
  if ((st_errno r =? ERANGE)
        && ((st_val r =? LONG_MAX) || (st_val r =? LONG_MIN)))
     || (negb (st_errno r =? 0) && (st_val r =? 0))
     || Nat.eqb (st_end r) 0
  then None
  else Some (st_val r).

(** ** D-Bus messages, replies and the event trace *)

(** The part of an incoming method call the manager looks at. *)
Record dbus_message := {
  msg_sender : string;      (* dbus_message_get_sender *)
  msg_member : string;      (* method name, dbus_message_has_member *)
  msg_serial : Z
}.

(** What is sent back on the reply channel of a method call: a method
    return or one of the errors of [error.h]. *)
Inductive dbus_reply :=
| MethodReturn (args : list string)
| ErrInvalidArguments (descr : string)
| ErrInProgress (descr : string)
| ErrFailed (descr : string)
| ErrFailedErrno (err : Z)
| ErrNotSupported
| ErrConnectionAttemptFailed (err : Z)
| ErrCanceled (descr : string)
| ErrDoesNotExist (descr : string).

(** A message delivered to a pending-call notify function. *)
Inductive dbus_incoming :=
| InError (name : string)                (* an error message *)
| InHandles (handles : list Z)           (* array of uint32 *)
| InBytes (rec_bin : list Byte.byte)     (* array of bytes *)
| InOther.                               (* any other signature *)

(** Address of a heap-allocated [struct pending_connect]. *)
Definition ptr := nat.

(** Observable actions, in program order.  A [bdaddr_t] obtained with
    [str2ba] is represented by the string it was converted from. *)
Inductive event :=
| EvReply (m : dbus_message) (r : dbus_reply)
| EvSignal (name : string) (arg : string)
| EvGetHandles (data : ptr) (adapter bda uuid : string)
| EvGetRecord (data : ptr) (adapter bda : string) (handle : Z)
| EvNameListenerAdd (sender : string)
| EvNameListenerRemove (sender : string)
| EvSocket (sk : Z)
| EvConnect (sk : Z) (bda : string) (channel : Z)
| EvClose (fd : Z)
| EvIoAddWatch (data : ptr) (id : Z)
| EvSourceRemove (id : Z)
| EvTimeoutAdd (interval : Z) (data : ptr)
| EvOpen (path : string)
| EvCreateDev (sk : option Z) (src : Z) (dst : string) (channel : Z) (id : Z)
| EvReleaseDev (id : Z)
| EvPortAddListener (id : Z) (dst : string) (fd : Z) (dev owner : string)
| EvPortStore (src : Z) (dst : string) (id channel : Z) (svcname : option string)
| EvPortRegister (id : Z) (src : Z) (dst : string) (name path : string)
                 (svcname : option string).

(** ** Results of the calls into the environment *)

(** [SysOk v]: the call returned [v >= 0]; [SysErr e]: it returned a
    negative value and left [errno = e]. *)
Inductive sysret := SysOk (v : Z) | SysErr (errno : positive).

(** The results the environment gives during one reactor dispatch; every
    handler makes each of these calls at most once. *)
Record sysres := {
  r_hci_get_route : Z;            (* hci_get_route(NULL) *)
  r_hci_devba : Z -> option Z;    (* hci_devba(dev_id, &src): Some src when >= 0 *)
  r_dbus_send : bool;             (* method call allocated and sent with reply *)
  r_socket : sysret;
  r_bind : sysret;
  r_set_nonblocking : sysret;
  r_connect : sysret;
  r_getsockopt : sysret;          (* SysOk ret: the SO_ERROR value *)
  r_createdev : sysret;           (* ioctl(RFCOMMCREATEDEV): SysOk id *)
  r_open : sysret;                (* open(pc->dev, O_RDONLY | O_NOCTTY) *)
  r_watch_id : positive;          (* g_io_add_watch *)
  r_port_path : string            (* object path written by port_register *)
}.

(** The SDP record codec of libbluetooth, as far as [record_reply] uses
    it. *)
Class SdpLib := {
  sdp_record_t : Type;
  sdp_list_t : Type;
  (* the record and the number of bytes scanned; None for NULL *)
  sdp_extract_pdu : list Byte.byte -> option (sdp_record_t * Z);
  (* None for a negative return *)
  sdp_get_access_protos : sdp_record_t -> option sdp_list_t;
  sdp_get_proto_port : sdp_list_t -> Z -> Z;
  (* sdp_data_get(rec, SDP_ATTR_SVCNAME_PRIMARY) copied out *)
  sdp_svcname : sdp_record_t -> option string
}.

Definition RFCOMM_UUID : Z := 0x0003.

(** ** Constants *)

Definition MAX_OPEN_TRIES : Z := 5.
Definition OPEN_WAIT : Z := 300.
Definition MAX_LEN_UUID_STR : nat := 37.

Definition EIO : Z := 5.
Definition EAGAIN : Z := 11.
Definition EINPROGRESS : Z := 115.

Definition G_IO_OUT : Z := 4.
Definition G_IO_ERR : Z := 8.
Definition G_IO_HUP : Z := 16.
Definition G_IO_NVAL : Z := 32.

Definition uint8 (z : Z) : Z := z mod 2 ^ 8.
Definition uint32 (z : Z) : Z := z mod 2 ^ 32.
Definition int16 (z : Z) : Z := (z + 2 ^ 15) mod 2 ^ 16 - 2 ^ 15.

(** ** The pending-connection orchestrator *)

Record pending_connect := {
  msg : dbus_message;
  bda : string;              (* Destination address *)
  adapter_path : string;     (* Adapter D-Bus path *)
  pattern : string;          (* Connection request pattern *)
  src : Z;
  channel : Z;
  io_id : Z;                 (* GIOChannel watch id *)
  io : option Z;             (* GIOChannel for RFCOMM connect, by its fd *)
  dev : option string;       (* tty device name *)
  id : Z;                    (* RFCOMM device id *)
  ntries : Z;                (* Open attempts *)
  canceled : Z               (* Operation canceled *)
}.

Definition set_channel (v : Z) (pc : pending_connect) : pending_connect :=
  {| msg := msg pc; bda := bda pc; adapter_path := adapter_path pc;
     pattern := pattern pc; src := src pc; channel := v; io_id := io_id pc;
     io := io pc; dev := dev pc; id := id pc; ntries := ntries pc;
     canceled := canceled pc |}.

Definition set_io_id (v : Z) (pc : pending_connect) : pending_connect :=
  {| msg := msg pc; bda := bda pc; adapter_path := adapter_path pc;
     pattern := pattern pc; src := src pc; channel := channel pc; io_id := v;
     io := io pc; dev := dev pc; id := id pc; ntries := ntries pc;
     canceled := canceled pc |}.

Definition set_io (v : option Z) (pc : pending_connect) : pending_connect :=
  {| msg := msg pc; bda := bda pc; adapter_path := adapter_path pc;
     pattern := pattern pc; src := src pc; channel := channel pc;
     io_id := io_id pc; io := v; dev := dev pc; id := id pc;
     ntries := ntries pc; canceled := canceled pc |}.

Definition set_dev (v : option string) (pc : pending_connect) : pending_connect :=
  {| msg := msg pc; bda := bda pc; adapter_path := adapter_path pc;
     pattern := pattern pc; src := src pc; channel := channel pc;
     io_id := io_id pc; io := io pc; dev := v; id := id pc;
     ntries := ntries pc; canceled := canceled pc |}.

Definition set_id (v : Z) (pc : pending_connect) : pending_connect :=
  {| msg := msg pc; bda := bda pc; adapter_path := adapter_path pc;
     pattern := pattern pc; src := src pc; channel := channel pc;
     io_id := io_id pc; io := io pc; dev := dev pc; id := v;
     ntries := ntries pc; canceled := canceled pc |}.

Definition set_ntries (v : Z) (pc : pending_connect) : pending_connect :=
  {| msg := msg pc; bda := bda pc; adapter_path := adapter_path pc;
     pattern := pattern pc; src := src pc; channel := channel pc;
     io_id := io_id pc; io := io pc; dev := dev pc; id := id pc;
     ntries := v; canceled := canceled pc |}.

Definition set_canceled (v : Z) (pc : pending_connect) : pending_connect :=
  {| msg := msg pc; bda := bda pc; adapter_path := adapter_path pc;
     pattern := pattern pc; src := src pc; channel := channel pc;
     io_id := io_id pc; io := io pc; dev := dev pc; id := id pc;
     ntries := ntries pc; canceled := v |}.

(** The manager's globals together with the part of the world they act
    on. *)
Record state := {
  pending_connects : list ptr;        (* static GSList *pending_connects *)
  heap : ptr -> pending_connect;      (* contents of the structs, by address *)
  rfcomm_devs : list Z;               (* kernel: bound RFCOMM device ids *)
  timeouts : list ptr;                (* live g_timeout_add(open_continue) sources *)
  ports_paths : list string;          (* static GSList *ports_paths *)
  trace : list event
}.

Definition emit (e : event) (st : state) : state :=
  {| pending_connects := pending_connects st; heap := heap st;
     rfcomm_devs := rfcomm_devs st; timeouts := timeouts st;
     ports_paths := ports_paths st; trace := trace st ++ [e] |}.

Definition set_pending (l : list ptr) (st : state) : state :=
  {| pending_connects := l; heap := heap st;
     rfcomm_devs := rfcomm_devs st; timeouts := timeouts st;
     ports_paths := ports_paths st; trace := trace st |}.

Definition set_devs (l : list Z) (st : state) : state :=
  {| pending_connects := pending_connects st; heap := heap st;
     rfcomm_devs := l; timeouts := timeouts st;
     ports_paths := ports_paths st; trace := trace st |}.

Definition set_timeouts (l : list ptr) (st : state) : state :=
  {| pending_connects := pending_connects st; heap := heap st;
     rfcomm_devs := rfcomm_devs st; timeouts := l;
     ports_paths := ports_paths st; trace := trace st |}.

Definition set_ports_paths (l : list string) (st : state) : state :=
  {| pending_connects := pending_connects st; heap := heap st;
     rfcomm_devs := rfcomm_devs st; timeouts := timeouts st;
     ports_paths := l; trace := trace st |}.

(** [*p = f( *p )] *)
Definition store (p : ptr) (f : pending_connect -> pending_connect)
    (st : state) : state :=
  {| pending_connects := pending_connects st;
     heap := fun q => if Nat.eqb q p then f (heap st p) else heap st q;
     rfcomm_devs := rfcomm_devs st; timeouts := timeouts st;
     ports_paths := ports_paths st; trace := trace st |}.

Definition g_slist_find (l : list ptr) (p : ptr) : bool :=
  existsb (Nat.eqb p) l.

(** The lowest address from [a] on that is not in [l], looking at no
    more than [fuel] addresses before settling on the next one. *)
Fixpoint first_free (fuel : nat) (l : list ptr) (a : ptr) : ptr :=
  match fuel with
  | O => a
  | S fuel' => if g_slist_find l a then first_free fuel' l (S a) else a
  end.

(** The address [g_new0(struct pending_connect, 1)] returns: memory that
    is not in use.  When a handler allocates, the structs in use are the
    registered ones (every other one has been given back with [g_free]),
    and the allocator is free to hand out the address of a struct that
    was freed.  The model takes the lowest address that is not
    registered, NULL (0) excluded, so a freed address is used again by
    the next request. *)
Definition g_new0 (st : state) : ptr :=
  first_free (List.length (pending_connects st)) (pending_connects st) 1%nat.

(** [pc = g_new0(struct pending_connect, 1)] followed by the field
    initialisation of the request handlers. *)
Definition alloc (pc : pending_connect) (st : state) : ptr * state :=
  (g_new0 st,
   {| pending_connects := pending_connects st;
      heap := fun q => if Nat.eqb q (g_new0 st) then pc else heap st q;
      rfcomm_devs := rfcomm_devs st;
      timeouts := timeouts st; ports_paths := ports_paths st;
      trace := trace st |}).

Fixpoint g_slist_remove (l : list ptr) (p : ptr) : list ptr :=
  match l with
  | [] => []
  | q :: l' => if Nat.eqb q p then l' else q :: g_slist_remove l' p
  end.

Definition g_slist_append {A} (l : list A) (x : A) : list A := l ++ [x].

Definition dev_name (pc : pending_connect) : string :=
  match dev pc with Some s => s | None => "" end.

Definition ENODEV : Z := 19.

Section Orchestrator.

Context {sdp : SdpLib}.

Fixpoint find_pending_from (h : ptr -> pending_connect) (l : list ptr)
    (a pat : string) : option ptr :=
  match l with
  | [] => None
  | p :: l' =>
      if (strcasecmp (bda (h p)) a =? 0) && (strcasecmp (pattern (h p)) pat =? 0)
      then Some p
      else find_pending_from h l' a pat
  end.

Definition find_pending_connect_by_pattern (st : state) (a pat : string)
    : option ptr :=
  find_pending_from (heap st) (pending_connects st) a pat.

(** The watch is removed and the channel closed, and the struct is given
    back with [g_free]: unless it is registered, its address is free for
    the next [g_new0].  The bytes stay as they are until then. *)
Definition pending_connect_free (p : ptr) (st : state) : state :=
  let pc := heap st p in
  let st := if 0 <? io_id pc then emit (EvSourceRemove (io_id pc)) st else st in
  match io pc with
  | Some fd => emit (EvClose fd) st
  | None => st
  end.

(** [rfcomm_release]; the kernel removes the device when it exists and
    answers ENODEV otherwise. *)
Definition rfcomm_release (dev_id : Z) (st : state) : Z * state :=
  let id16 := int16 dev_id in
  let st := emit (EvReleaseDev id16) st in
  if existsb (Z.eqb id16) (rfcomm_devs st)
  then (0, set_devs (filter (fun d => negb (d =? id16)) (rfcomm_devs st)) st)
  else (- ENODEV, st).

Fixpoint owner_exited_loop (name : string) (l tmp : list ptr) (st : state)
    : list ptr * state :=
  match l with
  | [] => (tmp, st)
  | p :: l' =>
      let pc := heap st p in
      if negb (strcmp name (msg_sender (msg pc)) =? 0)
      then owner_exited_loop name l' (g_slist_append tmp p) st
      else
        let st := if 0 <=? id pc then snd (rfcomm_release (id pc) st) else st in
        owner_exited_loop name l' tmp (pending_connect_free p st)
  end.

Definition transaction_owner_exited (name : string) (st : state) : state :=
  let '(tmp, st) := owner_exited_loop name (pending_connects st) [] st in
  set_pending tmp st.

Definition pending_connect_remove (p : ptr) (st : state) : state :=
  let st := emit (EvNameListenerRemove (msg_sender (msg (heap st p)))) st in
  let st := set_pending (g_slist_remove (pending_connects st) p) st in
  pending_connect_free p st.

Definition open_notify (fd err : Z) (p : ptr) (st : state) : state :=
  let pc := heap st p in
  if negb (err =? 0) then
    (* Max tries exceeded *)
    let st := snd (rfcomm_release (id pc) st) in
    emit (EvReply (msg pc) (ErrConnectionAttemptFailed err)) st
  else if negb (canceled pc =? 0) then
    let st := snd (rfcomm_release (id pc) st) in
    emit (EvReply (msg pc) (ErrCanceled "Connection canceled")) st
  else
    (* Reply to the requestor *)
    let st := emit (EvReply (msg pc) (MethodReturn [dev_name pc])) st in
    (* Send the D-Bus signal *)
    let st := emit (EvSignal "ServiceConnected" (dev_name pc)) st in
    (* Add the RFCOMM connection listener *)
    emit (EvPortAddListener (id pc) (bda pc) fd (dev_name pc)
            (msg_sender (msg pc))) st.

(** The [GSourceFunc] of the open timer: [true] keeps the source. *)
Definition open_continue (r : sysres) (p : ptr) (st : state) : bool * state :=
  if negb (g_slist_find (pending_connects st) p) then
    (false, st) (* Owner exited *)
  else
    let st := emit (EvOpen (dev_name (heap st p))) st in
    match r_open r with
    | SysErr e =>
        let st := store p (fun pc => set_ntries (ntries pc + 1) pc) st in
        if MAX_OPEN_TRIES <=? ntries (heap st p) then
          (* Reporting error *)
          let st := open_notify (-1) (Z.pos e) p st in
          (false, pending_connect_remove p st)
        else (true, st)
    | SysOk fd =>
        (* Connection succeeded *)
        let st := open_notify fd 0 p st in
        (false, pending_connect_remove p st)
    end.

Definition port_open (r : sysres) (p : ptr) (st : state) : Z * state :=
  let st := emit (EvOpen (dev_name (heap st p))) st in
  match r_open r with
  | SysErr _ =>
      let st := emit (EvTimeoutAdd OPEN_WAIT p) st in
      (- EINPROGRESS, set_timeouts (g_slist_append (timeouts st) p) st)
  | SysOk fd => (fd, st)
  end.

(** The connect watch callback; [chan] is the channel's descriptor.  Every
    path returns FALSE, so only the state is returned. *)
Definition rfcomm_connect_cb (r : sysres) (chan cond : Z) (p : ptr)
    (st : state) : state :=
  if negb (canceled (heap st p) =? 0) then
    let st := emit (EvReply (msg (heap st p))
                      (ErrCanceled "Connection canceled")) st in
    pending_connect_remove p st
  else if negb (Z.land cond G_IO_NVAL =? 0) then
    (* Avoid close invalid file descriptor *)
    let st := store p (set_io None) st in
    let st := emit (EvReply (msg (heap st p))
                      (ErrCanceled "Connection canceled")) st in
    pending_connect_remove p st
  else
    match r_getsockopt r with
    | SysErr e =>
        let st := emit (EvReply (msg (heap st p))
                          (ErrConnectionAttemptFailed (Z.pos e))) st in
        pending_connect_remove p st
    | SysOk ret =>
        if negb (ret =? 0) then
          let st := emit (EvReply (msg (heap st p))
                            (ErrConnectionAttemptFailed ret)) st in
          pending_connect_remove p st
        else
          match r_createdev r with
          | SysErr e =>
              let st := store p (set_id (-1)) st in
              let st := emit (EvReply (msg (heap st p))
                                (ErrConnectionAttemptFailed (Z.pos e))) st in
              pending_connect_remove p st
          | SysOk dev_id =>
              let pc := heap st p in
              let st := emit (EvCreateDev (Some chan) (src pc) (bda pc)
                                (channel pc) dev_id) st in
              let st := set_devs (dev_id :: rfcomm_devs st) st in
              let st := store p (set_id dev_id) st in
              let st := store p (set_dev
                          (Some (snprintf 16 ("/dev/rfcomm" ++ fmt_d dev_id)))) st in
              (* Addressing connect port *)
              let '(fd, st) := port_open r p st in
              if fd <? 0 then
                (* Open in progress: Wait the callback *)
                st
              else
                let st := open_notify fd 0 p st in
                pending_connect_remove p st
          end
    end.

Definition rfcomm_connect (r : sysres) (p : ptr) (st : state) : Z * state :=
  match r_socket r with
  | SysErr e => (- Z.pos e, st)
  | SysOk sk =>
      let st := emit (EvSocket sk) st in
      match r_bind r with
      | SysErr e => (- Z.pos e, emit (EvClose sk) st)
      | SysOk _ =>
          match r_set_nonblocking r with
          | SysErr e => (- Z.pos e, emit (EvClose sk) st)
          | SysOk _ =>
              let st := store p (set_io (Some sk)) st in
              let pc := heap st p in
              let st := emit (EvConnect sk (bda pc) (channel pc)) st in
              match r_connect r with
              | SysErr e =>
                  (* BlueZ returns EAGAIN eventhough it should return EINPROGRESS *)
                  if negb ((Z.pos e =? EAGAIN) || (Z.pos e =? EINPROGRESS)) then
                    let st := store p (set_io None) st in
                    (- Z.pos e, emit (EvClose sk) st)
                  else
                    let st := store p (set_io_id (Z.pos (r_watch_id r))) st in
                    (0, emit (EvIoAddWatch p (Z.pos (r_watch_id r))) st)
              | SysOk _ =>
                  (0, rfcomm_connect_cb r sk G_IO_OUT p st)
              end
          end
      end
  end.

Definition rfcomm_bind (r : sysres) (src : Z) (dst : string) (ch : Z)
    (st : state) : Z * state :=
  match r_createdev r with
  | SysErr e => (- Z.pos e, st)
  | SysOk dev_id =>
      (dev_id, set_devs (dev_id :: rfcomm_devs st)
                 (emit (EvCreateDev None src dst (uint8 ch) dev_id) st))
  end.

Definition get_record (r : sysres) (p : ptr) (handle : Z) (st : state)
    : Z * state :=
  if r_dbus_send r then
    (0, emit (EvGetRecord p (adapter_path (heap st p)) (bda (heap st p))
                (uint32 handle)) st)
  else (-1, st).

Definition get_handles (r : sysres) (p : ptr) (uuid : string) (st : state)
    : Z * state :=
  if r_dbus_send r then
    (0, emit (EvGetHandles p (adapter_path (heap st p)) (bda (heap st p))
                uuid) st)
  else (-1, st).

(** The tail of [record_reply] once a channel in range is known. *)
Definition record_reply_channel (r : sysres) (rec : sdp_record_t) (ch : Z)
    (p : ptr) (st : state) : state :=
  let pc := heap st p in
  if String.eqb (msg_member (msg pc)) "CreatePort" then
    let '(err, st) := rfcomm_bind r (src pc) (bda pc) ch st in
    if err <? 0 then
      pending_connect_remove p (emit (EvReply (msg pc) (ErrFailedErrno (- err))) st)
    else
      let port_name := snprintf 16 ("/dev/rfcomm" ++ fmt_d err) in
      let svcname := sdp_svcname rec in
      let st := emit (EvPortStore (src pc) (bda pc) err ch svcname) st in
      let st := emit (EvPortRegister err (src pc) (bda pc) port_name
                        (r_port_path r) svcname) st in
      let st := set_ports_paths
                  (g_slist_append (ports_paths st) (r_port_path r)) st in
      let st := emit (EvReply (msg pc) (MethodReturn [r_port_path r])) st in
      let st := emit (EvSignal "PortCreated" (r_port_path r)) st in
      pending_connect_remove p st
  else
    (* ConnectService *)
    let st := store p (set_channel (uint8 ch)) st in
    let '(err, st) := rfcomm_connect r p st in
    if err <? 0 then
      pending_connect_remove p
        (emit (EvReply (msg pc) (ErrConnectionAttemptFailed (- err))) st)
    else
      (* Wait the connect callback *)
      st.

Definition record_reply (r : sysres) (reply : dbus_incoming) (data : ptr)
    (st : state) : state :=
  (* Owner exited? *)
  if negb (g_slist_find (pending_connects st) data) then st
  else
    let p := data in
    let pc := heap st p in
    let fail (e : dbus_reply) :=
      pending_connect_remove p (emit (EvReply (msg pc) e) st) in
    if negb (canceled pc =? 0) then
      fail (ErrCanceled "Connection canceled")
    else
      match reply with
      | InError name =>
          if String.eqb name "org.bluez.Error.ConnectionAttemptFailed"
          then fail (ErrConnectionAttemptFailed EIO)
          else fail ErrNotSupported
      | InHandles _ | InOther => fail ErrNotSupported
      | InBytes rec_bin =>
          let len := Z.of_nat (List.length rec_bin) in
          if len =? 0 then fail ErrNotSupported
          else
            match sdp_extract_pdu rec_bin with
            | None => fail ErrNotSupported
            | Some (rec, scanned) =>
                if negb (len =? scanned) then fail ErrNotSupported
                else
                  match sdp_get_access_protos rec with
                  | None => fail ErrNotSupported
                  | Some protos =>
                      let ch := sdp_get_proto_port protos RFCOMM_UUID in
                      if (ch <? 1) || (30 <? ch) then fail ErrNotSupported
                      else record_reply_channel r rec ch p st
                  end
            end
      end.

Definition handles_reply (r : sysres) (reply : dbus_incoming) (data : ptr)
    (st : state) : state :=
  (* Owner exited? *)
  if negb (g_slist_find (pending_connects st) data) then st
  else
    let p := data in
    let pc := heap st p in
    let fail (e : dbus_reply) :=
      pending_connect_remove p (emit (EvReply (msg pc) e) st) in
    if negb (canceled pc =? 0) then
      fail (ErrCanceled "Connection canceled")
    else
      match reply with
      | InError name =>
          if String.eqb name "org.bluez.Error.ConnectionAttemptFailed"
          then fail (ErrConnectionAttemptFailed EIO)
          else fail ErrNotSupported
      | InBytes _ | InOther => fail ErrNotSupported
      | InHandles [] => fail ErrNotSupported
      | InHandles (handle :: _) =>
          let '(err, st') := get_record r p handle st in
          if err <? 0 then fail ErrNotSupported else st'
      end.

Definition new_pending (m : dbus_message) (src : Z) (a pat : string)
    (dev_id : Z) : pending_connect :=
  {| msg := m; bda := a;
     adapter_path := snprintf 16 ("/org/bluez/hci" ++ fmt_d dev_id);
     pattern := pat; src := src; channel := 0; io_id := 0; io := None;
     dev := None; id := -1; ntries := 0; canceled := 0 |}.

Definition connect_service_from_devid (r : sysres) (m : dbus_message)
    (dev_id : Z) (a pat : string) (st : state) : state :=
  match find_pending_connect_by_pattern st a pat with
  | Some _ => emit (EvReply m (ErrInProgress "Connection in progress")) st
  | None =>
  match (if dev_id <? 0 then None else r_hci_devba r dev_id) with
  | None => emit (EvReply m (ErrFailed "Adapter not available")) st
  | Some src =>
  let '(p, st) := alloc (new_pending m src a pat dev_id) st in
  (* Friendly name or uuid128 *)
  match pattern2uuid128 pat MAX_LEN_UUID_STR with
  | Some uuid =>
      let '(err, st) := get_handles r p uuid st in
      if err <? 0 then
        emit (EvReply m ErrNotSupported) (pending_connect_free p st)
      else
        let st := set_pending (g_slist_append (pending_connects st) p) st in
        emit (EvNameListenerAdd (msg_sender m)) st
  | None =>
  (* Record handle or channel *)
  match pattern2long pat with
  | None =>
      emit (EvReply m (ErrInvalidArguments "invalid pattern"))
        (pending_connect_free p st)
  | Some val =>
  (* Record handle: starts at 0x10000 *)
  if strncasecmp "0x" pat 2 =? 0 then
    if val <? 0x10000 then
      emit (EvReply m (ErrInvalidArguments "invalid record handle"))
        (pending_connect_free p st)
    else
      let '(err, st) := get_record r p val st in
      if err <? 0 then
        emit (EvReply m ErrNotSupported) (pending_connect_free p st)
      else
        let st := set_pending (g_slist_append (pending_connects st) p) st in
        emit (EvNameListenerAdd (msg_sender m)) st
  else
  (* RFCOMM Channel range: 1 - 30 *)
  if (val <? 1) || (30 <? val) then
    emit (EvReply m (ErrInvalidArguments "invalid RFCOMM channel"))
      (pending_connect_free p st)
  else
    (* Add here since connect() in the first try can happen *)
    let st := set_pending (g_slist_append (pending_connects st) p) st in
    let st := store p (set_channel (uint8 val)) st in
    let '(err, st) := rfcomm_connect r p st in
    if err <? 0 then
      let st := set_pending (g_slist_remove (pending_connects st) p) st in
      let st := pending_connect_free p st in
      emit (EvReply m (ErrConnectionAttemptFailed (- err))) st
    else
      emit (EvNameListenerAdd (msg_sender m)) st
  end end end end.

(** [args]: the (address, pattern) pair when the message carries two
    strings, [None] when [dbus_message_get_args] fails. *)
Definition connect_service (r : sysres) (m : dbus_message)
    (args : option (string * string)) (st : state) : state :=
  match args with
  | None => emit (EvReply m (ErrInvalidArguments "")) st
  | Some (a, pat) =>
      connect_service_from_devid r m (r_hci_get_route r) a pat st
  end.

Definition create_port (r : sysres) (m : dbus_message)
    (args : option (string * string)) (st : state) : state :=
  match args with
  | None => emit (EvReply m (ErrInvalidArguments "")) st
  | Some (a, pat) =>
  match find_pending_connect_by_pattern st a pat with
  | Some _ => emit (EvReply m (ErrInProgress "Connection in progress")) st
  | None =>
  let dev_id := r_hci_get_route r in
  match (if dev_id <? 0 then None else r_hci_devba r dev_id) with
  | None => emit (EvReply m (ErrFailed "Adapter not available")) st
  | Some src =>
  let '(p, st) := alloc (new_pending m src a pat dev_id) st in
  (* Friendly name or uuid128 *)
  match pattern2uuid128 pat MAX_LEN_UUID_STR with
  | Some uuid =>
      let '(err, st) := get_handles r p uuid st in
      if err <? 0 then
        emit (EvReply m ErrNotSupported) (pending_connect_free p st)
      else
        let st := set_pending (g_slist_append (pending_connects st) p) st in
        emit (EvNameListenerAdd (msg_sender m)) st
  | None =>
  (* Record handle or channel *)
  match pattern2long pat with
  | None =>
      emit (EvReply m (ErrInvalidArguments "invalid pattern"))
        (pending_connect_free p st)
  | Some val =>
  (* Record handle: starts at 0x10000 *)
  if strncasecmp "0x" pat 2 =? 0 then
    if val <? 0x10000 then
      emit (EvReply m (ErrInvalidArguments "invalid record handle"))
        (pending_connect_free p st)
    else
      let '(err, st) := get_record r p val st in
      if err <? 0 then
        emit (EvReply m ErrNotSupported) (pending_connect_free p st)
      else
        let st := set_pending (g_slist_append (pending_connects st) p) st in
        emit (EvNameListenerAdd (msg_sender m)) st
  else
  let st := pending_connect_free p st in
  (* RFCOMM Channel range: 1 - 30 *)
  if (val <? 1) || (30 <? val) then
    emit (EvReply m (ErrInvalidArguments "invalid RFCOMM channel")) st
  else
    let '(err, st) := rfcomm_bind r src a val st in
    if err <? 0 then emit (EvReply m (ErrFailedErrno (- err))) st
    else
      let port_name := snprintf 16 ("/dev/rfcomm" ++ fmt_d err) in
      let st := emit (EvPortStore src a err val None) st in
      let st := emit (EvPortRegister err src a port_name (r_port_path r) None) st in
      let st := set_ports_paths
                  (g_slist_append (ports_paths st) (r_port_path r)) st in
      let st := emit (EvReply m (MethodReturn [r_port_path r])) st in
      emit (EvSignal "PortCreated" (r_port_path r)) st
  end end end end end.

Definition cancel_connect_service (m : dbus_message)
    (args : option (string * string)) (st : state) : state :=
  match args with
  | None => emit (EvReply m (ErrInvalidArguments "")) st
  | Some (a, pat) =>
      match find_pending_connect_by_pattern st a pat with
      | None =>
          emit (EvReply m (ErrDoesNotExist "No such connection request")) st
      | Some pending =>
          let st := store pending (set_canceled 1) st in
          emit (EvReply m (MethodReturn [])) st
      end
  end.

(** The reactor firing a timeout source armed by [port_open]: the source
    is destroyed when the callback returns FALSE. *)
Definition timeout_dispatch (r : sysres) (p : ptr) (st : state) : state :=
  if g_slist_find (timeouts st) p then
    let '(again, st) := open_continue r p st in
    if again then st else set_timeouts (g_slist_remove (timeouts st) p) st
  else st.

End Orchestrator.

(** [list_ports]: the reply carries one array of strings, the registered
    port paths in the order of [ports_paths] ([message_append_paths]). *)
Definition list_ports (m : dbus_message) (st : state) : state :=
  emit (EvReply m (MethodReturn (ports_paths st))) st.

(** ** The proxy forwarding engine *)

Module Proxy.

Inductive proxy_type_t :=
| TTY_PROXY
| UNIX_SOCKET_PROXY
| TCP_SOCKET_PROXY
| UNKNOWN_PROXY_TYPE.

(** [struct termios] of Linux with the speed members glibc maintains. *)
Record termios := {
  c_iflag : Z;
  c_oflag : Z;
  c_cflag : Z;
  c_lflag : Z;
  c_ispeed : Z;
  c_ospeed : Z
}.

Record proxy := {
  src : Z;
  dst : Z;
  uuid128 : string;          (* UUID 128 *)
  address : string;          (* TTY or Unix socket name *)
  port : Z;                  (* TCP port *)
  type : proxy_type_t;       (* TTY or Unix socket *)
  sys_ti : termios;          (* Default TTY setting *)
  proxy_ti : termios;        (* Proxy TTY settings *)
  channel : Z;               (* RFCOMM channel *)
  record_id : Z;             (* Service record id *)
  listen_watch : Z;          (* Server listen watch *)
  rfcomm_watch : Z;          (* RFCOMM watch: Remote *)
  local_watch : Z            (* Local watch: TTY or Unix socket *)
}.

(** Values of [<termios.h>] on Linux. *)
Definition CSIZE : Z := 48.       (* 0000060 *)
Definition CS5 : Z := 0.
Definition CS6 : Z := 16.         (* 0000020 *)
Definition CS7 : Z := 32.         (* 0000040 *)
Definition CS8 : Z := 48.         (* 0000060 *)
Definition CSTOPB : Z := 64.      (* 0000100 *)
Definition CREAD : Z := 128.      (* 0000200 *)
Definition PARENB : Z := 256.     (* 0000400 *)
Definition PARODD : Z := 512.     (* 0001000 *)
Definition CLOCAL : Z := 2048.    (* 0004000 *)
Definition CBAUD : Z := 4111.     (* 0010017 *)
Definition CBAUDEX : Z := 4096.   (* 0010000 *)
Definition IBAUD0 : Z := 2 ^ 31.  (* 020000000000 *)

Definition B0 : Z := 0.
Definition B50 : Z := 1.
Definition B300 : Z := 7.
Definition B600 : Z := 8.
Definition B1200 : Z := 9.
Definition B1800 : Z := 10.
Definition B2400 : Z := 11.
Definition B4800 : Z := 12.
Definition B9600 : Z := 13.
Definition B19200 : Z := 14.
Definition B38400 : Z := 15.
Definition B57600 : Z := 4097.    (* 0010001 *)
Definition B115200 : Z := 4098.   (* 0010002 *)
Definition MAX_BAUD : Z := 4111.  (* B4000000 *)

Definition supported_speed : list (string * Z) :=
  [ ("50", B50); ("300", B300); ("600", B600); ("1200", B1200);
    ("1800", B1800); ("2400", B2400); ("4800", B4800); ("9600", B9600);
    ("19200", B19200); ("38400", B38400); ("57600", B57600);
    ("115200", B115200) ].

Fixpoint str2speed_from (tbl : list (string * Z)) (str : string) : Z :=
  match tbl with
  | [] => B0
  | (s, speed) :: rest =>
      if negb (strcmp s str =? 0) then str2speed_from rest str else speed
  end.

Definition str2speed (str : string) : Z := str2speed_from supported_speed str.

(** The setters return the new control flags, [None] for a negative
    return (the flags are untouched on those paths). *)
Definition set_parity (str : string) (ctrl : Z) : option Z :=
  if strcasecmp "even" str =? 0 then
    Some (Z.ldiff (Z.lor ctrl PARENB) PARODD)
  else if strcasecmp "odd" str =? 0 then
    Some (Z.lor (Z.lor ctrl PARENB) PARODD)
  else if strcasecmp "mark" str =? 0 then
    Some (Z.lor ctrl PARENB)
  else if (strcasecmp "none" str =? 0) || (strcasecmp "space" str =? 0) then
    Some (Z.ldiff ctrl PARENB)
  else None.

Definition set_databits (databits : Z) (ctrl : Z) : option Z :=
  if (databits <? 5) || (8 <? databits) then None
  else
    let ctrl := Z.ldiff ctrl CSIZE in
    Some (if databits =? 5 then Z.lor ctrl CS5
          else if databits =? 6 then Z.lor ctrl CS6
          else if databits =? 7 then Z.lor ctrl CS7
          else if databits =? 8 then Z.lor ctrl CS8
          else ctrl).

Definition set_stopbits (stopbits : Z) (ctrl : Z) : option Z :=
  (* 1.5 will not be allowed *)
  if stopbits =? 1 then Some (Z.ldiff ctrl CSTOPB)
  else if stopbits =? 2 then Some (Z.lor ctrl CSTOPB)
  else None.

Definition set_cflag (v : Z) (ti : termios) : termios :=
  {| c_iflag := c_iflag ti; c_oflag := c_oflag ti; c_cflag := v;
     c_lflag := c_lflag ti; c_ispeed := c_ispeed ti; c_ospeed := c_ospeed ti |}.

Definition speed_rejected (speed : Z) : bool :=
  negb (Z.ldiff speed CBAUD =? 0) && ((speed <? B57600) || (MAX_BAUD <? speed)).

(** glibc's [cfsetispeed] and [cfsetospeed] for Linux. *)
Definition cfsetispeed (ti : termios) (speed : Z) : termios :=
  if speed_rejected speed then ti
  else if speed =? 0 then
    {| c_iflag := Z.lor (c_iflag ti) IBAUD0; c_oflag := c_oflag ti;
       c_cflag := c_cflag ti; c_lflag := c_lflag ti; c_ispeed := speed;
       c_ospeed := c_ospeed ti |}
  else
    {| c_iflag := Z.ldiff (c_iflag ti) IBAUD0; c_oflag := c_oflag ti;
       c_cflag := Z.lor (Z.ldiff (c_cflag ti) (Z.lor CBAUD CBAUDEX)) speed;
       c_lflag := c_lflag ti; c_ispeed := speed; c_ospeed := c_ospeed ti |}.

Definition cfsetospeed (ti : termios) (speed : Z) : termios :=
  if speed_rejected speed then ti
  else
    {| c_iflag := c_iflag ti; c_oflag := c_oflag ti;
       c_cflag := Z.lor (Z.ldiff (c_cflag ti) (Z.lor CBAUD CBAUDEX)) speed;
       c_lflag := c_lflag ti; c_ispeed := c_ispeed ti; c_ospeed := speed |}.

Definition set_proxy_ti (ti : termios) (prx : proxy) : proxy :=
  {| src := src prx; dst := dst prx; uuid128 := uuid128 prx;
     address := address prx; port := port prx; type := type prx;
     sys_ti := sys_ti prx; proxy_ti := ti; channel := channel prx;
     record_id := record_id prx; listen_watch := listen_watch prx;
     rfcomm_watch := rfcomm_watch prx; local_watch := local_watch prx |}.

Definition set_dst (v : Z) (prx : proxy) : proxy :=
  {| src := src prx; dst := v; uuid128 := uuid128 prx;
     address := address prx; port := port prx; type := type prx;
     sys_ti := sys_ti prx; proxy_ti := proxy_ti prx; channel := channel prx;
     record_id := record_id prx; listen_watch := listen_watch prx;
     rfcomm_watch := rfcomm_watch prx; local_watch := local_watch prx |}.

Definition set_watches (rw lw : Z) (prx : proxy) : proxy :=
  {| src := src prx; dst := dst prx; uuid128 := uuid128 prx;
     address := address prx; port := port prx; type := type prx;
     sys_ti := sys_ti prx; proxy_ti := proxy_ti prx; channel := channel prx;
     record_id := record_id prx; listen_watch := listen_watch prx;
     rfcomm_watch := rw; local_watch := lw |}.

(** [args]: (rate, data bits, stop bits, parity) when the message has
    signature "syys", [None] when [dbus_message_get_args] fails. *)
Definition proxy_set_serial_params (args : option (string * Z * Z * string))
    (prx : proxy) : dbus_reply * proxy :=
  (* Don't allow change TTY settings if it is open *)
  if negb (local_watch prx =? 0) then (ErrFailed "Not allowed", prx)
  else
    match args with
    | None => (ErrInvalidArguments "", prx)
    | Some (ratestr, databits, stopbits, paritystr) =>
        let speed := str2speed ratestr in
        if speed =? B0 then (ErrInvalidArguments "Invalid baud rate", prx)
        else
          let ctrl := c_cflag (proxy_ti prx) in
          match set_databits databits ctrl with
          | None => (ErrInvalidArguments "Invalid data bits", prx)
          | Some ctrl =>
              match set_stopbits stopbits ctrl with
              | None => (ErrInvalidArguments "Invalid stop bits", prx)
              | Some ctrl =>
                  match set_parity paritystr ctrl with
                  | None => (ErrInvalidArguments "Invalid parity", prx)
                  | Some ctrl =>
                      let ti := set_cflag ctrl (proxy_ti prx) in
                      let ti := set_cflag
                                  (Z.lor (c_cflag ti) (Z.lor CLOCAL CREAD)) ti in
                      let ti := cfsetispeed ti speed in
                      let ti := cfsetospeed ti speed in
                      (MethodReturn [], set_proxy_ti ti prx)
                  end
              end
          end
    end.

(** Values of the [a{sv}] dictionary of GetInfo. *)
Inductive variant :=
| VString (s : string)
| VByte (b : Z)
| VBoolean (b : bool).

Definition hex_upper (d : Z) : ascii :=
  ascii_of_N (Z.to_N (if d <? 10 then 48 + d else 55 + d)).

Definition fmt_02X (b : Z) : string :=
  String (hex_upper (Z.shiftr b 4 mod 16))
    (String (hex_upper (b mod 16)) EmptyString).

(** [ba2str]: the six bytes, most significant first, in upper-case
    hexadecimal separated by colons. *)
Definition ba2str (ba : Z) : string :=
  fmt_02X (Z.shiftr ba 40 mod 256) ++ ":" ++
  fmt_02X (Z.shiftr ba 32 mod 256) ++ ":" ++
  fmt_02X (Z.shiftr ba 24 mod 256) ++ ":" ++
  fmt_02X (Z.shiftr ba 16 mod 256) ++ ":" ++
  fmt_02X (Z.shiftr ba 8 mod 256) ++ ":" ++
  fmt_02X (ba mod 256).

(** The dictionary entries of the GetInfo reply, in the order appended. *)
Definition proxy_get_info (prx : proxy) : list (string * variant) :=
  [ ("uuid", VString (uuid128 prx)); ("address", VString (address prx)) ]
  ++ (if negb (channel prx =? 0) then [ ("channel", VByte (channel prx)) ]
      else [])
  ++ [ ("enabled", VBoolean (negb (listen_watch prx =? 0)));
       ("connected", VBoolean (negb (rfcomm_watch prx =? 0))) ]
  (* If connected: append the remote address *)
  ++ (if negb (rfcomm_watch prx =? 0)
      then [ ("address", VString (ba2str (dst prx))) ] else []).

(** Actions of the accept path on descriptors and the main loop. *)
Inductive pevent :=
| PClose (fd : Z)
| PChannelClose (fd : Z)
| POpen (path : string)
| PTcsetattr (fd : Z) (ti : termios)
| PSocketUnix (sk : Z)
| PSocketInet (sk : Z)
| PConnectUnix (sk : Z) (sun_path : string) (abstract : bool)
| PConnectTcp (sk : Z) (port : Z)
| PAddWatch (id : Z) (source dest : Z).

(** Results of the calls made while one accept event is handled. *)
Record accept_res := {
  a_accept : sysret;            (* accept(sk): SysOk rsk *)
  a_peer : Z;                   (* raddr.rc_bdaddr *)
  a_open : sysret;              (* open(tty, O_RDWR | O_NOCTTY) *)
  a_tcsetattr : sysret;
  a_socket : sysret;
  a_connect : sysret;
  a_rfcomm_watch : positive;    (* g_io_add_watch ids *)
  a_local_watch : positive
}.

(** [sizeof(addr.sun_path)] for the [struct sockaddr_un] of Linux. *)
Definition UNIX_PATH_MAX : Z := 108.

(** The bytes of [addr.sun_path] that the [strcpy] of
    [unix_socket_connect] may write: all of them for a filesystem
    address, all but the first for the abstract namespace. *)
Definition sun_path_room (abstract : bool) : Z :=
  if abstract then UNIX_PATH_MAX - 1 else UNIX_PATH_MAX.

(** [None]: the address and its terminating NUL do not fit and the
    unchecked [strcpy] writes past [addr.sun_path]. *)
Definition unix_socket_connect (r : accept_res) (addr : string)
    : option (Z * list pevent) :=
  let '(path, abstract) :=
    if strncmp "x00" addr 3 =? 0 then (str_offset 3 addr, true)
    else (addr, false) in
  if sun_path_room abstract <? strlen path + 1 then None
  else
    match a_socket r with
    | SysErr e => Some (- Z.pos e, [])
    | SysOk sk =>
        match a_connect r with
        | SysErr e =>
            Some (- Z.pos e,
                  [PSocketUnix sk; PConnectUnix sk path abstract; PClose sk])
        | SysOk _ => Some (sk, [PSocketUnix sk; PConnectUnix sk path abstract])
        end
    end.

(** [None]: [strchr] found no colon and the source dereferences NULL + 1. *)
Definition tcp_socket_connect (r : accept_res) (addr : string)
    : option (Z * list pevent) :=
  if negb (strncmp addr "localhost" 9 =? 0) then Some (-1, [])
  else
    match strchr addr ":" with
    | None => None
    | Some colon =>
        let port := atoi (str_offset 1 colon) mod 2 ^ 16 in
        if port <=? 0 then Some (-1, [])
        else
          match a_socket r with
          | SysErr e => Some (- Z.pos e, [])
          | SysOk sk =>
              match a_connect r with
              | SysErr e =>
                  Some (- Z.pos e, [PSocketInet sk; PConnectTcp sk port; PClose sk])
              | SysOk _ => Some (sk, [PSocketInet sk; PConnectTcp sk port])
              end
          end
    end.

Definition tty_open (r : accept_res) (tty : string) (ti : termios)
    : Z * list pevent :=
  match a_open r with
  | SysErr e => (- Z.pos e, [POpen tty])
  | SysOk sk =>
      match a_tcsetattr r with
      | SysErr e => (- Z.pos e, [POpen tty; PTcsetattr sk ti; PClose sk])
      | SysOk _ => (sk, [POpen tty; PTcsetattr sk ti])
      end
  end.

(** The switch on [prx->type] in [connect_event]: the descriptor of the
    local side, negative on failure; [None] only where
    [unix_socket_connect] or [tcp_socket_connect] is undefined. *)
Definition local_connect (r : accept_res) (prx : proxy)
    : option (Z * list pevent) :=
  match type prx with
  | UNIX_SOCKET_PROXY => unix_socket_connect r (address prx)
  | TTY_PROXY => Some (tty_open r (address prx) (proxy_ti prx))
  | TCP_SOCKET_PROXY => tcp_socket_connect r (address prx)
  | UNKNOWN_PROXY_TYPE => Some (-1, [])
  end.

(** The listen watch callback on the listening descriptor [chan].  The
    result is the returned gboolean (TRUE keeps the listen watch), the
    proxy afterwards and the actions performed. *)
Definition connect_event (r : accept_res) (chan cond : Z) (prx : proxy)
    : option (bool * proxy * list pevent) :=
  if negb (Z.land cond G_IO_NVAL =? 0) then Some (false, prx, [])
  else if negb (Z.land cond (Z.lor G_IO_ERR G_IO_HUP) =? 0) then
    Some (false, prx, [PChannelClose chan])
  else
    match a_accept r with
    | SysErr _ => Some (true, prx, [])
    | SysOk rsk =>
        let prx := set_dst (a_peer r) prx in
        match local_connect r prx with
        | None => None
        | Some (lsk, evs) =>
            if lsk <? 0 then Some (true, prx, evs ++ [PClose rsk])
            else
              let rw := Z.pos (a_rfcomm_watch r) in
              let lw := Z.pos (a_local_watch r) in
              Some (true, set_watches rw lw prx,
                    evs ++ [PAddWatch rw rsk lsk; PAddWatch lw lsk rsk])
        end
    end.

End Proxy.

(** ** Enabling and disabling a proxy *)

Module ProxyControl.
Import Proxy.

(** Actions of the Enable and Disable handlers and of the listen watch's
    destroy notification. *)
Inductive cevent :=
| CSocket (sk : Z)                          (* socket(AF_BLUETOOTH, SOCK_STREAM, BTPROTO_RFCOMM) *)
| CSetsockopt (sk opts : Z)                 (* SOL_RFCOMM, RFCOMM_LM *)
| CBind (sk src channel : Z)
| CListen (sk backlog : Z)
| CGetsockname (sk : Z)
| CClose (sk : Z)
| CAddRecord (uuid128 : string) (channel : Z)   (* AddServiceRecord with the record of create_proxy_record *)
| CRemoveRecord (rec_id : Z)                (* RemoveServiceRecord *)
| CAddWatchFull (id sk : Z)                 (* g_io_add_watch_full(connect_event, listen_watch_notify) *)
| CSourceRemove (id : Z).

(** Results of the calls made while one Enable call is handled. *)
Record listen_res := {
  l_socket : sysret;
  l_setsockopt : sysret;
  l_bind : sysret;
  l_listen : sysret;
  l_getsockname : sysret;        (* SysOk ch: laddr.rc_channel *)
  l_add_record : Z;              (* add_proxy_record: the record id, 0 on failure *)
  l_watch_id : positive;         (* g_io_add_watch_full *)
  l_strerror : Z -> string       (* strerror *)
}.

(** [rfcomm_listen(src, channel, opts)]: the returned descriptor or
    negative errno, the byte [channel] points to afterwards ([None] for
    a NULL [channel]), and the actions. *)
Definition rfcomm_listen (r : listen_res) (src : Z) (channel : option Z)
    (opts : Z) : Z * option Z * list cevent :=
  match l_socket r with
  | SysErr e => (- Z.pos e, channel, [])
  | SysOk sk =>
      let evs := [CSocket sk; CSetsockopt sk opts] in
      match l_setsockopt r with
      | SysErr e => (- Z.pos e, channel, evs ++ [CClose sk])
      | SysOk _ =>
          let rc_channel := match channel with Some c => c | None => 0 end in
          let evs := evs ++ [CBind sk src rc_channel] in
          match l_bind r with
          | SysErr e => (- Z.pos e, channel, evs ++ [CClose sk])
          | SysOk _ =>
              let evs := evs ++ [CListen sk 1] in
              match l_listen r with
              | SysErr e => (- Z.pos e, channel, evs ++ [CClose sk])
              | SysOk _ =>
                  match channel with
                  | None => (sk, None, evs)
                  | Some _ =>
                      let evs := evs ++ [CGetsockname sk] in
                      match l_getsockname r with
                      | SysErr e => (- Z.pos e, channel, evs ++ [CClose sk])
                      | SysOk ch => (sk, Some (uint8 ch), evs)
                      end
                  end
              end
          end
      end
  end.

Definition set_channel (v : Z) (prx : proxy) : proxy :=
  {| src := src prx; dst := dst prx; uuid128 := uuid128 prx;
     address := address prx; port := port prx; type := type prx;
     sys_ti := sys_ti prx; proxy_ti := proxy_ti prx; channel := v;
     record_id := record_id prx; listen_watch := listen_watch prx;
     rfcomm_watch := rfcomm_watch prx; local_watch := local_watch prx |}.

Definition set_record_id (v : Z) (prx : proxy) : proxy :=
  {| src := src prx; dst := dst prx; uuid128 := uuid128 prx;
     address := address prx; port := port prx; type := type prx;
     sys_ti := sys_ti prx; proxy_ti := proxy_ti prx; channel := channel prx;
     record_id := v; listen_watch := listen_watch prx;
     rfcomm_watch := rfcomm_watch prx; local_watch := local_watch prx |}.

Definition set_listen_watch (v : Z) (prx : proxy) : proxy :=
  {| src := src prx; dst := dst prx; uuid128 := uuid128 prx;
     address := address prx; port := port prx; type := type prx;
     sys_ti := sys_ti prx; proxy_ti := proxy_ti prx; channel := channel prx;
     record_id := record_id prx; listen_watch := v;
     rfcomm_watch := rfcomm_watch prx; local_watch := local_watch prx |}.

(** The destroy notification of the listen watch. *)
Definition listen_watch_notify (prx : proxy) : proxy * list cevent :=
  let prx1 := set_listen_watch 0 prx in
  let evs1 :=
    if negb (rfcomm_watch prx1 =? 0) then [CSourceRemove (rfcomm_watch prx1)]
    else [] in
  let prx2 := set_watches 0 (local_watch prx1) prx1 in
  let evs2 :=
    if negb (local_watch prx2 =? 0) then [CSourceRemove (local_watch prx2)]
    else [] in
  let prx3 := set_watches (rfcomm_watch prx2) 0 prx2 in
  (set_record_id 0 prx3, evs1 ++ evs2 ++ [CRemoveRecord (record_id prx3)]).

Definition proxy_enable (r : listen_res) (prx : proxy)
    : dbus_reply * proxy * list cevent :=
  if negb (listen_watch prx =? 0) then (ErrFailed "Already enabled", prx, [])
  else
    (* Listen *)
    let '(sk, ch, evs) := rfcomm_listen r (src prx) (Some (channel prx)) 0 in
    let prx := match ch with Some c => set_channel c prx | None => prx end in
    if sk <? 0 then (ErrFailed (l_strerror r (- sk)), prx, evs)
    else
      (* Create the record, register the record *)
      let evs := evs ++ [CAddRecord (uuid128 prx) (channel prx)] in
      let prx := set_record_id (uint32 (l_add_record r)) prx in
      if record_id prx =? 0 then
        (ErrFailed "Service registration failed", prx, evs ++ [CClose sk])
      else
        (* Add incomming connection watch *)
        let id := Z.pos (l_watch_id r) in
        (MethodReturn [], set_listen_watch id prx,
         evs ++ [CAddWatchFull id sk]).

(** [g_source_remove] on the listen watch destroys the source, which
    runs its destroy notification before returning. *)
Definition proxy_disable (prx : proxy) : dbus_reply * proxy * list cevent :=
  if listen_watch prx =? 0 then (ErrFailed "Not enabled", prx, [])
  else
    (* Remove the watches and unregister the record: see watch notify *)
    let '(prx', evs) := listen_watch_notify prx in
    (MethodReturn [], prx', CSourceRemove (listen_watch prx) :: evs).

(** The main loop dispatching the listen watch: when [connect_event]
    returns FALSE the source is destroyed and its notification runs. *)
Definition listen_dispatch (r : accept_res) (chan cond : Z) (prx : proxy)
    : option (proxy * list pevent * list cevent) :=
  match connect_event r chan cond prx with
  | None => None
  | Some (true, prx', evs) => Some (prx', evs, [])
  | Some (false, prx', evs) =>
      let '(prx'', cevs) := listen_watch_notify prx' in
      Some (prx'', evs, cevs)
  end.

End ProxyControl.

(** ** Forwarding between the two sides of a connection *)

Module Forwarding.

Inductive GIOError :=
| G_IO_ERROR_NONE
| G_IO_ERROR_AGAIN
| G_IO_ERROR_INVAL
| G_IO_ERROR_UNKNOWN.

Definition is_none (err : GIOError) : bool :=
  match err with G_IO_ERROR_NONE => true | _ => false end.

(** The answer to one [g_io_channel_read(chan, buf, sizeof(buf), &rbytes)]:
    the error and the bytes placed in [buf]. *)
Definition read_answer : Type := GIOError * list Byte.byte.

(** The answer to one [g_io_channel_write(chan, buf, count, &written)]:
    the error and the number of bytes taken. *)
Definition write_answer : Type := GIOError * nat.

(** The loop of [channel_write]: [wbytes] bytes of [buf] are written,
    [sent] is what the channel has taken, [ws] the answers to the calls
    still to come.  [None] when the answers run out before the loop
    ends. *)
Fixpoint channel_write_loop (ws : list write_answer) (buf : list Byte.byte)
    (wbytes : nat) (sent : list Byte.byte)
    : option (GIOError * list Byte.byte * list write_answer) :=
  if Nat.ltb wbytes (List.length buf) then
    match ws with
    | [] => None
    | (err, written) :: ws' =>
        if negb (is_none err) then Some (err, sent, ws')
        else
          channel_write_loop ws' buf (wbytes + written)
            (sent ++ firstn written (skipn wbytes buf))
    end
  else Some (G_IO_ERROR_NONE, sent, ws).

(** [channel_write(chan, buf, size)] with [buf] holding [size] bytes. *)
Definition channel_write (ws : list write_answer) (buf : list Byte.byte)
    : option (GIOError * list Byte.byte * list write_answer) :=
  channel_write_loop ws buf 0 [].

(** The do-while loop of the hang-up branch of [forward_data]: the bytes
    the destination has taken when the loop is left. *)
Fixpoint drain (rs : list read_answer) (ws : list write_answer)
    (sent : list Byte.byte) : option (list Byte.byte) :=
  match rs with
  | [] => None
  | (err, data) :: rs' =>
      if negb (is_none err) || Nat.eqb (List.length data) 0 then Some sent
      else
        match channel_write ws data with
        | None => None
        | Some (werr, out, ws') =>
            if is_none werr then drain rs' ws' (sent ++ out)
            else Some (sent ++ out)
        end
  end.

(** [forward_data] on the source channel with the answers [rs] to its
    reads and [ws] to the writes on the destination: the returned
    gboolean (TRUE keeps the watch), the bytes the destination has
    taken, and whether the destination was closed. *)
Definition forward_data (cond : Z) (rs : list read_answer)
    (ws : list write_answer) : option (bool * list Byte.byte * bool) :=
  if negb (Z.land cond G_IO_NVAL =? 0) then Some (false, [], false)
  else if negb (Z.land cond (Z.lor G_IO_HUP G_IO_ERR) =? 0) then
    (* Try forward remaining data *)
    match drain rs ws [] with
    | None => None
    | Some sent => Some (false, sent, true)
    end
  else
    match rs with
    | [] => None
    | (err, data) :: _ =>
        if negb (is_none err) then Some (false, [], false)
        else
          match channel_write ws data with
          | None => None
          | Some (werr, out, _) =>
              if negb (is_none werr) then Some (false, out, false)
              else Some (true, out, false)
          end
    end.

End Forwarding.

(** ** The proxy registry *)

Module ProxyManager.
Import Proxy ProxyControl.

(** [MAX_PATH_LENGTH] of [dbus-helper.h]. *)
Definition MAX_PATH_LENGTH : nat := 64.

(** File type bits of [st_mode]. *)
Definition S_IFMT : Z := 61440.     (* 0170000 *)
Definition S_IFCHR : Z := 8192.     (* 0020000 *)
Definition S_IFSOCK : Z := 49152.   (* 0140000 *)

Definition S_ISCHR (mode : Z) : bool := Z.land mode S_IFMT =? S_IFCHR.
Definition S_ISSOCK (mode : Z) : bool := Z.land mode S_IFMT =? S_IFSOCK.

(** Observable actions of the registry handlers. *)
Inductive mevent :=
| MReply (m : dbus_message) (r : dbus_reply)
| MAlreadyExists (m : dbus_message) (descr : string)   (* error_already_exists *)
| MSignal (name : string) (arg : string)
| MProxyDelete (src : Z) (address : string)            (* proxy_delete *)
| MOpen (path : string)
| MTcsetattr (fd : Z) (ti : termios)
| MClose (fd : Z)
| MControl (e : cevent).

(** Results of the calls made while one registry call is handled. *)
Record mgr_res := {
  (* conversions made by sscanf(string, "%08x-%04hx-%04hx-%04hx-%08x%04hx", ...) *)
  g_sscanf_uuid : string -> Z;
  g_stat : string -> option Z;      (* stat(address, &st): st.st_mode, None when < 0 *)
  g_hci_get_route : Z;              (* hci_get_route(NULL) *)
  g_hci_devba : Z -> option Z;      (* hci_devba(dev_id, &src): Some src when >= 0 *)
  g_open : sysret;                  (* open(address, ...) *)
  g_tcgetattr : termios;            (* what tcgetattr leaves in the zeroed sys_ti *)
  g_oom : bool                      (* the object tree cannot allocate *)
}.

Record mstate := {
  proxies_paths : list string;      (* static GSList *proxies_paths *)
  objects : list (string * proxy);  (* the proxy objects of the connection: path and user data *)
  sk_counter : Z;                   (* static int sk_counter *)
  mtrace : list mevent
}.

Definition memit (e : mevent) (st : mstate) : mstate :=
  {| proxies_paths := proxies_paths st; objects := objects st;
     sk_counter := sk_counter st; mtrace := mtrace st ++ [e] |}.

Definition memits (evs : list mevent) (st : mstate) : mstate :=
  {| proxies_paths := proxies_paths st; objects := objects st;
     sk_counter := sk_counter st; mtrace := mtrace st ++ evs |}.

(** [dbus_connection_get_object_user_data]: [None] when no object is
    registered at the path. *)
Fixpoint get_object_user_data (objs : list (string * proxy)) (path : string)
    : option proxy :=
  match objs with
  | [] => None
  | (p, prx) :: rest =>
      if strcmp p path =? 0 then Some prx else get_object_user_data rest path
  end.

Fixpoint remove_object (objs : list (string * proxy)) (path : string)
    : list (string * proxy) :=
  match objs with
  | [] => []
  | (p, prx) :: rest =>
      if strcmp p path =? 0 then rest else (p, prx) :: remove_object rest path
  end.

(** [g_slist_find_custom(list, data, func)]: the first element on which
    [func] answers 0. *)
Fixpoint g_slist_find_custom (l : list string) (func : string -> Z)
    : option string :=
  match l with
  | [] => None
  | x :: rest => if func x =? 0 then Some x else g_slist_find_custom rest func
  end.

(** [g_slist_remove] of the node found by [g_slist_find_custom] with
    [strcmp]: the first element equal to [path]. *)
Fixpoint remove_path (l : list string) (path : string) : list string :=
  match l with
  | [] => []
  | x :: rest => if strcmp x path =? 0 then rest else x :: remove_path rest path
  end.

Definition char_at (s : string) (n : nat) (c : ascii) : bool :=
  match String.get n s with
  | Some d => code d =? code c
  | None => false
  end.

(** [str2uuid]: 0 or -1. *)
Definition str2uuid (r : mgr_res) (s : string) : Z :=
  if (strlen s =? 36) && char_at s 8 "-" && char_at s 13 "-"
     && char_at s 18 "-" && char_at s 23 "-" && (g_sscanf_uuid r s =? 6)
  then 0 else -1.

Definition addr2type (r : mgr_res) (address : string) : proxy_type_t :=
  match g_stat r address with
  | None =>
      (* Unix socket: if the sun_path starts with null byte it refers to
         abstract namespace.  'x00' will be used to represent the null
         byte. *)
      if strncmp "localhost:" address 10 =? 0 then TCP_SOCKET_PROXY
      else if negb (strncmp "x00" address 3 =? 0) then UNKNOWN_PROXY_TYPE
      else UNIX_SOCKET_PROXY
  | Some mode =>
      (* Filesystem: char device or unix socket *)
      if S_ISCHR mode && (strncmp "/dev/" address 4 =? 0) then TTY_PROXY
      else if S_ISSOCK mode then UNIX_SOCKET_PROXY
      else UNKNOWN_PROXY_TYPE
  end.

Definition proxycmp (st : mstate) (path address : string) : Z :=
  match get_object_user_data (objects st) path with
  | None => -1
  | Some prx => strcmp (Proxy.address prx) address
  end.

Definition zero_ti : termios :=
  {| c_iflag := 0; c_oflag := 0; c_cflag := 0; c_lflag := 0;
     c_ispeed := 0; c_ospeed := 0 |}.

(** [g_new0(struct proxy, 1)] followed by the assignments common to the
    three register functions. *)
Definition new_proxy (src : Z) (uuid128 address : string)
    (type : proxy_type_t) : proxy :=
  {| Proxy.src := src; dst := 0; Proxy.uuid128 := uuid128;
     Proxy.address := address; port := 0; Proxy.type := type;
     sys_ti := zero_ti; proxy_ti := zero_ti; channel := 0; record_id := 0;
     listen_watch := 0; rfcomm_watch := 0; local_watch := 0 |}.

Definition set_ti (sys prx_ti : termios) (prx : proxy) : proxy :=
  {| Proxy.src := Proxy.src prx; dst := dst prx;
     Proxy.uuid128 := Proxy.uuid128 prx; Proxy.address := Proxy.address prx;
     port := port prx; Proxy.type := Proxy.type prx;
     sys_ti := sys; proxy_ti := prx_ti; channel := channel prx;
     record_id := record_id prx; listen_watch := listen_watch prx;
     rfcomm_watch := rfcomm_watch prx; local_watch := local_watch prx |}.

(** [register_proxy_object]: the return value, the path built, and the
    state.  Creating the object fails when the tree cannot allocate or
    already has an object at the path. *)
Definition register_proxy_object (r : mgr_res) (prx : proxy) (st : mstate)
    : Z * string * mstate :=
  let path :=
    snprintf MAX_PATH_LENGTH
      ("/org/bluez/serial/proxy" ++ fmt_d (sk_counter st)) in
  let st :=
    {| proxies_paths := proxies_paths st; objects := objects st;
       sk_counter := sk_counter st + 1; mtrace := mtrace st |} in
  if g_oom r
     || match get_object_user_data (objects st) path with
        | Some _ => true
        | None => false
        end
  then (-1, path, st)
  else
    (0, path,
     {| proxies_paths := g_slist_append (proxies_paths st) path;
        objects := objects st ++ [(path, prx)];
        sk_counter := sk_counter st; mtrace := mtrace st |}).

(** [proxy_tty_register] with [ti == NULL]. *)
Definition proxy_tty_register (r : mgr_res) (src : Z)
    (uuid128 address : string) (st : mstate) : Z * string * mstate :=
  let st := memit (MOpen address) st in
  match g_open r with
  | SysErr _ => (- EINVAL, "", st)
  | SysOk sk =>
      let prx := new_proxy src uuid128 address TTY_PROXY in
      (* Current TTY settings *)
      let st := memit (MClose sk) st in
      (* Use current settings *)
      let prx := set_ti (g_tcgetattr r) (g_tcgetattr r) prx in
      register_proxy_object r prx st
  end.

Definition proxy_socket_register (r : mgr_res) (src : Z)
    (uuid128 address : string) (st : mstate) : Z * string * mstate :=
  register_proxy_object r (new_proxy src uuid128 address UNIX_SOCKET_PROXY) st.

Definition proxy_tcp_register (r : mgr_res) (src : Z)
    (uuid128 address : string) (st : mstate) : Z * string * mstate :=
  register_proxy_object r (new_proxy src uuid128 address TCP_SOCKET_PROXY) st.

(** [args]: (uuid128, address) when the message carries two strings. *)
Definition create_proxy (r : mgr_res) (m : dbus_message)
    (args : option (string * string)) (st : mstate) : mstate :=
  match args with
  | None => memit (MReply m (ErrInvalidArguments "")) st
  | Some (uuid128, address) =>
  if str2uuid r uuid128 <? 0 then
    memit (MReply m (ErrInvalidArguments "Invalid UUID")) st
  else
  let type := addr2type r address in
  match type with
  | UNKNOWN_PROXY_TYPE =>
      memit (MReply m (ErrInvalidArguments "Invalid address")) st
  | _ =>
  (* Only one proxy per address(TTY or unix socket) is allowed *)
  match g_slist_find_custom (proxies_paths st)
          (fun path => proxycmp st path address) with
  | Some _ => memit (MAlreadyExists m "Proxy already exists") st
  | None =>
  let dev_id := g_hci_get_route r in
  match (if dev_id <? 0 then None else g_hci_devba r dev_id) with
  | None => memit (MReply m (ErrFailed "Adapter not available")) st
  | Some src =>
  let '(ret, path, st) :=
    match type with
    | UNIX_SOCKET_PROXY => proxy_socket_register r src uuid128 address st
    | TTY_PROXY => proxy_tty_register r src uuid128 address st
    | TCP_SOCKET_PROXY => proxy_tcp_register r src uuid128 address st
    | UNKNOWN_PROXY_TYPE => (-1, "", st)
    end in
  if ret <? 0 then
    memit (MReply m (ErrFailed "Create object path failed")) st
  else
    let st := memit (MSignal "ProxyCreated" path) st in
    memit (MReply m (MethodReturn [path])) st
  end end end end.

(** The reply carries one array of strings, the paths in the order of
    [proxies_paths]. *)
Definition list_proxies (m : dbus_message) (st : mstate) : mstate :=
  memit (MReply m (MethodReturn (proxies_paths st))) st.

(** [proxy_handler_unregister]: the actions; the struct is freed. *)
Definition proxy_handler_unregister (r : mgr_res) (prx : proxy)
    : list mevent :=
  let restore :=
    match Proxy.type prx with
    | TTY_PROXY =>
        (* Restore the initial TTY configuration *)
        let sk := match g_open r with SysOk fd => fd | SysErr _ => -1 end in
        MOpen (Proxy.address prx)
        :: (if negb (sk =? 0)
            then [MTcsetattr sk (sys_ti prx); MClose sk] else [])
    | _ => []
    end in
  restore
  ++ (if negb (listen_watch prx =? 0)
      then MControl (CSourceRemove (listen_watch prx))
           :: map MControl (snd (listen_watch_notify prx))
      else []).

(** [dbus_connection_destroy_object_path]: the object at the path, if
    any, is taken out of the tree and its unregister function runs. *)
Definition destroy_object_path (r : mgr_res) (path : string) (st : mstate)
    : mstate :=
  match get_object_user_data (objects st) path with
  | None => st
  | Some prx =>
      memits (proxy_handler_unregister r prx)
        {| proxies_paths := proxies_paths st;
           objects := remove_object (objects st) path;
           sk_counter := sk_counter st; mtrace := mtrace st |}
  end.

Definition remove_proxy (r : mgr_res) (m : dbus_message)
    (args : option string) (st : mstate) : mstate :=
  match args with
  | None => memit (MReply m (ErrInvalidArguments "")) st
  | Some path =>
      match g_slist_find_custom (proxies_paths st)
              (fun x => strcmp x path) with
      | None => memit (MReply m (ErrDoesNotExist "Invalid proxy path")) st
      | Some _ =>
          (* Remove from storage *)
          let st :=
            match get_object_user_data (objects st) path with
            | Some prx => memit (MProxyDelete (Proxy.src prx) (Proxy.address prx)) st
            | None => st
            end in
          let st :=
            {| proxies_paths := remove_path (proxies_paths st) path;
               objects := objects st; sk_counter := sk_counter st;
               mtrace := mtrace st |} in
          let st := destroy_object_path r path st in
          let st := memit (MSignal "ProxyRemoved" path) st in
          memit (MReply m (MethodReturn [])) st
      end
  end.

Fixpoint update_object (objs : list (string * proxy)) (path : string)
    (prx : proxy) : list (string * proxy) :=
  match objs with
  | [] => []
  | (p, old) :: rest =>
      if strcmp p path =? 0 then (p, prx) :: rest
      else (p, old) :: update_object rest path prx
  end.

(** A method call on the proxy object at [path] has run: the handler's
    changes to the object's user data stay in the struct. *)
Definition set_object (path : string) (prx : proxy) (st : mstate) : mstate :=
  {| proxies_paths := proxies_paths st;
     objects := update_object (objects st) path prx;
     sk_counter := sk_counter st; mtrace := mtrace st |}.

End ProxyManager.

(** ** Observations on traces *)

(** The events a handler added when it took [st] to [st']. *)
Definition new_events (st st' : state) : list event :=
  skipn (List.length (trace st)) (trace st').

Definition is_get_handles (e : event) : bool :=
  match e with EvGetHandles _ _ _ _ => true | _ => false end.

Definition is_get_record (e : event) : bool :=
  match e with EvGetRecord _ _ _ _ => true | _ => false end.

(** A request to the remote discovery service. *)
Definition is_discovery (e : event) : bool :=
  is_get_handles e || is_get_record e.

Definition is_reply (e : event) : bool :=
  match e with EvReply _ _ => true | _ => false end.

Definition is_open (e : event) : bool :=
  match e with EvOpen _ => true | _ => false end.

Definition is_createdev (e : event) : bool :=
  match e with EvCreateDev _ _ _ _ _ => true | _ => false end.

Definition is_connect (e : event) : bool :=
  match e with EvConnect _ _ _ => true | _ => false end.

(** ** Concrete environments for the examples *)

Module Sample.

(** A one-byte record format: the byte is the RFCOMM channel, 255 does
    not parse and 254 has no protocol descriptor list. *)
#[local] Instance byte_sdp : SdpLib := {|
  sdp_record_t := Z;
  sdp_list_t := Z;
  sdp_extract_pdu := fun b =>
    match b with
    | [] => None
    | x :: _ =>
        let v := Z.of_N (Byte.to_N x) in
        if v =? 255 then None else Some (v, 1)
    end;
  sdp_get_access_protos := fun rec => if rec =? 254 then None else Some rec;
  sdp_get_proto_port := fun protos _ => protos;
  sdp_svcname := fun _ => None
|}.

Definition msg0 : dbus_message :=
  {| msg_sender := ":1.42"; msg_member := "ConnectService"; msg_serial := 7 |}.

Definition msg1 : dbus_message :=
  {| msg_sender := ":1.43"; msg_member := "CreatePort"; msg_serial := 8 |}.

Definition null_pc : pending_connect :=
  {| msg := {| msg_sender := ""; msg_member := ""; msg_serial := 0 |};
     bda := ""; adapter_path := ""; pattern := ""; src := 0; channel := 0;
     io_id := 0; io := None; dev := None; id := 0; ntries := 0;
     canceled := 0 |}.

Definition init : state :=
  {| pending_connects := []; heap := fun _ => null_pc;
     rfcomm_devs := []; timeouts := []; ports_paths := []; trace := [] |}.

(** The adapter is present, D-Bus sends succeed, the connect is left in
    progress, and later the device node opens on the first attempt. *)
Definition env : sysres :=
  {| r_hci_get_route := 0; r_hci_devba := fun _ => Some 1;
     r_dbus_send := true; r_socket := SysOk 7; r_bind := SysOk 0;
     r_set_nonblocking := SysOk 0; r_connect := SysErr 115;
     r_getsockopt := SysOk 0; r_createdev := SysOk 0; r_open := SysOk 9;
     r_watch_id := 3%positive; r_port_path := "/org/bluez/serial/rfcomm0" |}.

(** As [env], with the device node not there yet (ENOENT). *)
Definition env_noent : sysres :=
  {| r_hci_get_route := 0; r_hci_devba := fun _ => Some 1;
     r_dbus_send := true; r_socket := SysOk 7; r_bind := SysOk 0;
     r_set_nonblocking := SysOk 0; r_connect := SysErr 115;
     r_getsockopt := SysOk 0; r_createdev := SysOk 0; r_open := SysErr 2;
     r_watch_id := 3%positive; r_port_path := "/org/bluez/serial/rfcomm0" |}.

Definition peer : string := "00:11:22:33:44:55".

End Sample.

(** * Vocabulary of the properties *)

(** ** Letter case *)

Fixpoint lower (s : string) : list Z :=
  match s with
  | EmptyString => []
  | String c r => tolower c :: lower r
  end.

Definition is_upper (c : ascii) : Prop := 65 <= code c <= 90.

(** Two characters that are the same or the two cases of one ASCII
    letter. *)
Definition same_letter (c d : ascii) : Prop :=
  c = d \/
  (is_upper c /\ code d = code c + 32) \/
  (is_upper d /\ code c = code d + 32).

(** Strings that differ only in ASCII letter case. *)
Inductive case_variant : string -> string -> Prop :=
| cv_nil : case_variant EmptyString EmptyString
| cv_cons (c d : ascii) (s t : string) :
    same_letter c d -> case_variant s t ->
    case_variant (String c s) (String d t).

(** A string as C has it: no character of it is the terminating NUL. *)
Fixpoint c_string (s : string) : Prop :=
  match s with
  | EmptyString => True
  | String c r => code c <> 0 /\ c_string r
  end.

(** ** Traces *)

(** [st'] has the trace of [st] followed by events that all satisfy [P]. *)
Definition extends (P : event -> bool) (st st' : state) : Prop :=
  exists evs, trace st' = trace st ++ evs /\ forallb P evs = true.

(** What the connect, bind and open phases may emit: no discovery
    request and, among the replies, only a method return, a connection
    failure, an errno failure or a cancellation. *)
Definition after_resolution (e : event) : bool :=
  match e with
  | EvGetHandles _ _ _ _ | EvGetRecord _ _ _ _ => false
  | EvReply _ (MethodReturn _) => true
  | EvReply _ (ErrConnectionAttemptFailed _) => true
  | EvReply _ (ErrCanceled _) => true
  | EvReply _ (ErrFailedErrno _) => true
  | EvReply _ _ => false
  | EvNameListenerAdd _ => false
  | _ => true
  end.

(** Events of the failure path after the error reply. *)
Definition is_cleanup (e : event) : bool :=
  match e with
  | EvNameListenerRemove _ | EvSourceRemove _ | EvClose _ => true
  | _ => false
  end.

Definition is_timeout_add (e : event) : bool :=
  match e with EvTimeoutAdd _ _ => true | _ => false end.

Definition count_opens (evs : list event) : nat :=
  List.length (filter is_open evs).

(** ** The registry *)

(** [st'] registers no request that [st] did not, and the address and
    pattern stored in every struct are those of [st]. *)
Definition frames (st st' : state) : Prop :=
  (forall q, In q (pending_connects st') -> In q (pending_connects st)) /\
  (NoDup (pending_connects st) -> NoDup (pending_connects st')) /\
  (forall q, bda (heap st' q) = bda (heap st q) /\
             pattern (heap st' q) = pattern (heap st q)).

(** The registry invariant: the registered addresses are distinct, and
    no two registered requests have the same address and pattern up to
    letter case. *)
Definition registry_ok (st : state) : Prop :=
  NoDup (pending_connects st) /\
  (forall p q, In p (pending_connects st) -> In q (pending_connects st) ->
     strcasecmp (bda (heap st p)) (bda (heap st q)) = 0 ->
     strcasecmp (pattern (heap st p)) (pattern (heap st q)) = 0 -> p = q).

(** A struct just allocated for the pair of a request that found no
    registered match. *)
Definition candidate (st : state) (p : ptr) : Prop :=
  registry_ok st /\ ~ In p (pending_connects st) /\
  (forall q, In q (pending_connects st) ->
     ~ (strcasecmp (bda (heap st q)) (bda (heap st p)) = 0 /\
        strcasecmp (pattern (heap st q)) (pattern (heap st p)) = 0)).

(** The registered requests for the pair (a, pat). *)
Definition pending_for (st : state) (a pat : string) : list ptr :=
  filter (fun p => String.eqb (bda (heap st p)) a
                   && String.eqb (pattern (heap st p)) pat)
    (pending_connects st).

(** ** The open timer *)

(** The main loop firing the open timer of [p] once per element of [rs]. *)
Fixpoint run_timer (rs : list sysres) (p : ptr) (st : state) : state :=
  match rs with
  | [] => st
  | r :: rs' => run_timer rs' p (timeout_dispatch r p st)
  end.

Definition open_fails (r : sysres) : Prop := exists e, r_open r = SysErr e.

(** Request [p] waits for its device node: the device [d] is bound, its
    node is [path], the open timer is armed, [n] timer attempts have
    failed, and the request is registered and not canceled. *)
Definition opening (st : state) (p : ptr) (n d : Z) (path : string) : Prop :=
  In p (pending_connects st) /\ In p (timeouts st) /\ NoDup (timeouts st) /\
  ntries (heap st p) = n /\ canceled (heap st p) = 0 /\
  id (heap st p) = d /\ dev (heap st p) = Some path.

(** ** Dispatches and record payloads *)

Section Vocabulary.

Context {sdp : SdpLib}.

(** One dispatch of the main loop: a method call of the manager
    interface, a pending-call notification, the connect watch of a
    registered request, an open timer, or the exit of a requester.  The
    arguments and the results of the environment are arbitrary. *)
Inductive step : state -> state -> Prop :=
| step_connect_service r m args st :
    step st (connect_service r m args st)
| step_connect_service_from_adapter r m dev_id a pat st :
    step st (connect_service_from_devid r m dev_id a pat st)
| step_create_port r m args st :
    step st (create_port r m args st)
| step_cancel_connect_service m args st :
    step st (cancel_connect_service m args st)
| step_handles_reply r reply data st :
    step st (handles_reply r reply data st)
| step_record_reply r reply data st :
    step st (record_reply r reply data st)
| step_rfcomm_connect_cb r chan cond p st :
    In p (pending_connects st) ->
    step st (rfcomm_connect_cb r chan cond p st)
| step_timeout r p st :
    step st (timeout_dispatch r p st)
| step_owner_exited name st :
    step st (transaction_owner_exited name st).

(** The states the manager can be in: it starts with no pending
    connection. *)
Inductive reachable : state -> Prop :=
| reachable_start st : pending_connects st = [] -> reachable st
| reachable_step st st' : reachable st -> step st st' -> reachable st'.

(** The failure conditions of the specification, on the payload of a
    record-fetch reply. *)
Definition payload_empty (rec_bin : list Byte.byte) : Prop := rec_bin = [].

Definition payload_unparsable (rec_bin : list Byte.byte) : Prop :=
  sdp_extract_pdu rec_bin = None \/
  exists rec scanned,
    sdp_extract_pdu rec_bin = Some (rec, scanned) /\
    scanned <> Z.of_nat (List.length rec_bin).

Definition no_protocol_list (rec_bin : list Byte.byte) : Prop :=
  exists rec scanned,
    sdp_extract_pdu rec_bin = Some (rec, scanned) /\
    sdp_get_access_protos rec = None.

Definition channel_out_of_range (rec_bin : list Byte.byte) : Prop :=
  exists rec scanned protos,
    sdp_extract_pdu rec_bin = Some (rec, scanned) /\
    sdp_get_access_protos rec = Some protos /\
    (sdp_get_proto_port protos RFCOMM_UUID < 1 \/
     30 < sdp_get_proto_port protos RFCOMM_UUID).

Definition extraction_fails (rec_bin : list Byte.byte) : Prop :=
  payload_empty rec_bin \/ payload_unparsable rec_bin \/
  no_protocol_list rec_bin \/ channel_out_of_range rec_bin.

End Vocabulary.

(** ** Sample states *)

(** A state with one ConnectService request in flight, waiting for the
    handles of the serial port service. *)
Definition one_pending : state :=
  connect_service_from_devid Sample.env Sample.msg0 0
    "00:11:22:AA:BB:CC" "spp" Sample.init.

(** A ConnectService for channel 5 whose connect is in progress. *)
Definition connecting : state :=
  connect_service_from_devid Sample.env Sample.msg0 0 Sample.peer "5"
    Sample.init.

Definition cancel_msg : dbus_message :=
  {| msg_sender := ":1.42"; msg_member := "CancelConnectService";
     msg_serial := 9 |}.

(** The request of [connecting] after its connect completed, the device
    was bound, the first open failed, and the requester canceled. *)
Definition canceled_opening : state :=
  cancel_connect_service cancel_msg (Some (Sample.peer, "5"))
    (rfcomm_connect_cb Sample.env_noent 7 G_IO_OUT 1%nat connecting).

(** The requester of [one_pending] exits while its handle lookup is in
    flight: the request is destroyed. *)
Definition owner_gone : state :=
  transaction_owner_exited (msg_sender Sample.msg0) one_pending.

(** Another client then asks for a port to the dial-up service of
    another device. *)
Definition second_request : state :=
  create_port Sample.env Sample.msg1 (Some (Sample.peer, "dun")) owner_gone.

(** ** The proxy *)

Module ProxySpec.
Import Proxy.

Definition is_add_watch (e : pevent) : bool :=
  match e with PAddWatch _ _ _ => true | _ => false end.

(** A character-device proxy that is enabled and has no peer. *)
Definition tty_proxy : proxy :=
  {| src := 1; dst := 0;
     uuid128 := "00001101-0000-1000-8000-00805F9B34FB";
     address := "/dev/ttyS0"; port := 0; type := TTY_PROXY;
     sys_ti := {| c_iflag := 0; c_oflag := 0; c_cflag := 189;
                  c_lflag := 0; c_ispeed := 13; c_ospeed := 13 |};
     proxy_ti := {| c_iflag := 0; c_oflag := 0; c_cflag := 189;
                    c_lflag := 0; c_ispeed := 13; c_ospeed := 13 |};
     channel := 3; record_id := 65540; listen_watch := 11;
     rfcomm_watch := 0; local_watch := 0 |}.

(** The peer connects and the serial device cannot be opened (EBUSY). *)
Definition busy_tty : accept_res :=
  {| a_accept := SysOk 12; a_peer := 0x001122334455;
     a_open := SysErr 16; a_tcsetattr := SysOk 0; a_socket := SysOk 13;
     a_connect := SysOk 0; a_rfcomm_watch := 21; a_local_watch := 22 |}.

Definition rate_names : list string := map fst supported_speed.

Definition parity_names : list string :=
  ["even"; "odd"; "mark"; "none"; "space"].

(** The valid calls of the specification: a rate of the table, data
    bits in 5..8, stop bits 1 or 2, and one of the five parity names in
    any letter case. *)
Definition valid_params (rate : string) (databits stopbits : Z)
    (parity : string) : Prop :=
  In rate rate_names /\ 5 <= databits <= 8 /\
  (stopbits = 1 \/ stopbits = 2) /\
  exists name, In name parity_names /\ case_variant name parity.

(** No peer has been accepted since the proxy was created or last
    disabled.  The proxy is as CreateProxy made it ([rest_new], and
    [rest_tty] for the settings read from a character device) or as the
    destroy notification of its listen watch left it ([rest_notify]:
    Disable, or an error on the listening socket), and since then it has
    only been enabled, given serial parameters, or has seen its listen
    watch fire without the two forwarding watches being installed. *)
Inductive at_rest : proxy -> Prop :=
| rest_new (s : Z) (uuid addr : string) (t : proxy_type_t) :
    at_rest (ProxyManager.new_proxy s uuid addr t)
| rest_tty (sys ti : termios) (prx : proxy) :
    at_rest prx -> at_rest (ProxyManager.set_ti sys ti prx)
| rest_notify (prx : proxy) :
    at_rest (fst (ProxyControl.listen_watch_notify prx))
| rest_enable (r : ProxyControl.listen_res) (prx : proxy) :
    at_rest prx -> at_rest (snd (fst (ProxyControl.proxy_enable r prx)))
| rest_params (args : option (string * Z * Z * string)) (prx : proxy) :
    at_rest prx -> at_rest (snd (proxy_set_serial_params args prx))
| rest_no_peer (r : accept_res) (chan cond : Z) (prx prx' : proxy)
    (keep : bool) (evs : list pevent) :
    at_rest prx ->
    connect_event r chan cond prx = Some (keep, prx', evs) ->
    existsb is_add_watch evs = false ->
    at_rest prx'.

(** A peer has been accepted and the proxy has not been disabled since,
    which is the case as long as that peer is connected.
    [connect_event] installed the two forwarding watches
    ([peer_accepted]); since then the proxy has only been asked to
    enable itself or to change its serial parameters, or has seen its
    listen watch fire and stay. *)
Inductive with_peer : proxy -> Prop :=
| peer_accepted (r : accept_res) (chan cond : Z) (prx prx' : proxy)
    (keep : bool) (evs : list pevent) :
    connect_event r chan cond prx = Some (keep, prx', evs) ->
    existsb is_add_watch evs = true ->
    with_peer prx'
| peer_enable (r : ProxyControl.listen_res) (prx : proxy) :
    with_peer prx -> with_peer (snd (fst (ProxyControl.proxy_enable r prx)))
| peer_params (args : option (string * Z * Z * string)) (prx : proxy) :
    with_peer prx -> with_peer (snd (proxy_set_serial_params args prx))
| peer_listen (r : accept_res) (chan cond : Z) (prx prx' : proxy)
    (evs : list pevent) :
    with_peer prx ->
    connect_event r chan cond prx = Some (true, prx', evs) ->
    with_peer prx'.

End ProxySpec.

(** ** Requester exit *)

(** The request at [p] was made by the connection [name]. *)
Definition owned_by (name : string) (st : state) (p : ptr) : bool :=
  strcmp name (msg_sender (msg (heap st p))) =? 0.

(** Releasing a device, removing a watch, closing a descriptor. *)
Definition is_teardown (e : event) : bool :=
  match e with
  | EvReleaseDev _ | EvSourceRemove _ | EvClose _ => true
  | _ => false
  end.

(** ** Replies and the registry *)

(** From [st] to [st'] nothing was sent back to a requester, the registry
    is the same and the stored messages are the same. *)
Definition quiet (st st' : state) : Prop :=
  exists evs, trace st' = trace st ++ evs /\ filter is_reply evs = [] /\
    pending_connects st' = pending_connects st /\
    (forall q, msg (heap st' q) = msg (heap st q)).

(** From [st] to [st'] exactly one reply was sent, to the message of the
    request at [p], and the registry is the same. *)
Definition replied (p : ptr) (st st' : state) : Prop :=
  exists evs r, trace st' = trace st ++ evs /\
    filter is_reply evs = [EvReply (msg (heap st p)) r] /\
    pending_connects st' = pending_connects st /\
    (forall q, msg (heap st' q) = msg (heap st q)).

(** From [st] to [st'] exactly one reply was sent, to the message of the
    request at [p], and [p] was taken out of the registry. *)
Definition answered (p : ptr) (st st' : state) : Prop :=
  exists evs r, trace st' = trace st ++ evs /\
    filter is_reply evs = [EvReply (msg (heap st p)) r] /\
    pending_connects st' = g_slist_remove (pending_connects st) p /\
    (forall q, msg (heap st' q) = msg (heap st q)).

(** What a submitted request [m] has come to when its handler returns in
    [st']: it has been answered, once, and the registry is as in [st]; or
    nothing has been sent to anybody and the registry has one more
    entry, the struct allocated for the request. *)
Definition submitted (m : dbus_message) (st st' : state) : Prop :=
  (exists rep, filter is_reply (new_events st st') = [EvReply m rep] /\
               pending_connects st' = pending_connects st) \/
  (filter is_reply (new_events st st') = [] /\
   pending_connects st' = pending_connects st ++ [g_new0 st]).

(** ** Bit fields of the control flags *)

Module TermiosBits.

(** [y] is [x] with the bits under the mask [M] replaced by those of
    [V]. *)
Definition field_set (M V x y : Z) : Prop :=
  Z.land V M = V /\ y = Z.lor (Z.ldiff x M) V.

(** The bits of [c_cflag] that SetSerialParameters may write: the speed
    (CBAUD, CBAUDEX), CSIZE, CSTOPB, CREAD, PARENB, PARODD and CLOCAL. *)
Definition LINE_BITS : Z := 7167.

(** The parity names that switch parity off. *)
Definition no_parity (parity : string) : bool :=
  (strcasecmp "none" parity =? 0) || (strcasecmp "space" parity =? 0).

End TermiosBits.

(** ** Enabling and disabling a proxy *)

Module ProxyControlSpec.
Import Proxy ProxyControl.

(** The descriptors the environment hands out are not negative. *)
Definition sane (r : listen_res) : Prop :=
  forall sk, l_socket r = SysOk sk -> 0 <= sk.

Definition is_cclose (e : cevent) : bool :=
  match e with CClose _ => true | _ => false end.

Definition is_add_watch_full (e : cevent) : bool :=
  match e with CAddWatchFull _ _ => true | _ => false end.

(** Every socket created in [evs] is closed in [evs]. *)
Definition sockets_closed (evs : list cevent) : Prop :=
  forall sk, In (CSocket sk) evs -> In (CClose sk) evs.

(** Enable succeeded: the proxy listens on an open socket, bound to the
    channel it asked for, and its record is published for the channel
    read back from the socket. *)
Definition enabled_by (r : listen_res) (prx : proxy)
    (res : dbus_reply * proxy * list cevent) : Prop :=
  let '(rep, prx', evs) := res in
  rep = MethodReturn [] /\
  listen_watch prx' = Z.pos (l_watch_id r) /\
  record_id prx' = uint32 (l_add_record r) /\ record_id prx' <> 0 /\
  filter is_cclose evs = [] /\
  exists sk c,
    l_socket r = SysOk sk /\ l_getsockname r = SysOk c /\
    channel prx' = uint8 c /\
    In (CBind sk (src prx) (channel prx)) evs /\
    In (CAddRecord (uuid128 prx) (uint8 c)) evs /\
    In (CAddWatchFull (Z.pos (l_watch_id r)) sk) evs.

(** Enable failed: the proxy is not listening, every socket opened has
    been closed and no watch was added. *)
Definition enable_refused (res : dbus_reply * proxy * list cevent) : Prop :=
  let '(rep, prx', evs) := res in
  (exists descr, rep = ErrFailed descr) /\
  listen_watch prx' = 0 /\
  sockets_closed evs /\ filter is_add_watch_full evs = [].

(** A disabled socket proxy that never listened. *)
Definition socket_proxy : proxy :=
  {| src := 1; dst := 0;
     uuid128 := "00001101-0000-1000-8000-00805F9B34FB";
     address := "x00/bluez/proxy"; port := 0; type := UNIX_SOCKET_PROXY;
     sys_ti := {| c_iflag := 0; c_oflag := 0; c_cflag := 0;
                  c_lflag := 0; c_ispeed := 0; c_ospeed := 0 |};
     proxy_ti := {| c_iflag := 0; c_oflag := 0; c_cflag := 0;
                    c_lflag := 0; c_ispeed := 0; c_ospeed := 0 |};
     channel := 0; record_id := 0; listen_watch := 0;
     rfcomm_watch := 0; local_watch := 0 |}.

(** The kernel picks channel 3 and the record gets the id 0x10004. *)
Definition listen_ok : listen_res :=
  {| l_socket := SysOk 14; l_setsockopt := SysOk 0; l_bind := SysOk 0;
     l_listen := SysOk 0; l_getsockname := SysOk 3; l_add_record := 65540;
     l_watch_id := 11; l_strerror := fun _ => "" |}.

(** The peer connects and the local socket accepts. *)
Definition accept_ok : accept_res :=
  {| a_accept := SysOk 12; a_peer := 0x001122334455;
     a_open := SysOk 13; a_tcsetattr := SysOk 0; a_socket := SysOk 13;
     a_connect := SysOk 0; a_rfcomm_watch := 21; a_local_watch := 22 |}.

End ProxyControlSpec.

(** ** Forwarding *)

Module ForwardingSpec.
Import Forwarding.

(** [l1] is an initial segment of [l2]. *)
Definition prefix_of (l1 l2 : list Byte.byte) : Prop :=
  exists rest, l2 = l1 ++ rest.

(** The condition reports a hang-up or an error, on a valid
    descriptor. *)
Definition hung_up (cond : Z) : Prop :=
  Z.land cond G_IO_NVAL = 0 /\ Z.land cond (Z.lor G_IO_HUP G_IO_ERR) <> 0.

(** The condition reports neither an invalid descriptor nor a hang-up
    nor an error. *)
Definition readable (cond : Z) : Prop :=
  Z.land cond G_IO_NVAL = 0 /\ Z.land cond (Z.lor G_IO_HUP G_IO_ERR) = 0.

(** Every write succeeds and takes at least one byte. *)
Definition progressing (ws : list write_answer) : Prop :=
  Forall (fun w => fst w = G_IO_ERROR_NONE /\ (1 <= snd w)%nat) ws.

(** The source delivers the chunks and then reports end of file. *)
Definition delivers (chunks : list (list Byte.byte)) : list read_answer :=
  map (fun d => (G_IO_ERROR_NONE, d)) chunks ++ [(G_IO_ERROR_NONE, [])].

(** The destination takes every chunk whole. *)
Definition takes_whole (chunks : list (list Byte.byte)) : list write_answer :=
  map (fun d => (G_IO_ERROR_NONE, List.length d)) chunks.

End ForwardingSpec.

(** ** The proxy registry *)

Module ProxyManagerSpec.
Import Proxy ProxyControl ProxyManager.

Definition new_mevents (st st' : mstate) : list mevent :=
  skipn (List.length (mtrace st)) (mtrace st').

(** The registry invariant: the listed paths are the paths of the proxy
    objects, in the same order; no two objects have the same path; and
    no two objects have the same address. *)
Definition apart (l : list string) : Prop :=
  ForallOrdPairs (fun a b => strcmp a b <> 0) l.

Definition registry_consistent (st : mstate) : Prop :=
  proxies_paths st = map fst (objects st) /\
  apart (map fst (objects st)) /\
  apart (map (fun o => address (snd o)) (objects st)).

(** One dispatch that concerns the proxies: a call of the manager
    interface, a call of the proxy interface on a registered object, or
    the listen watch of a registered proxy.  The arguments and the
    results of the environment are arbitrary. *)
Inductive mstep : mstate -> mstate -> Prop :=
| mstep_create_proxy r m args st :
    mstep st (create_proxy r m args st)
| mstep_remove_proxy r m args st :
    mstep st (remove_proxy r m args st)
| mstep_list_proxies m st :
    mstep st (list_proxies m st)
| mstep_enable r path prx st :
    get_object_user_data (objects st) path = Some prx ->
    mstep st (set_object path (snd (fst (proxy_enable r prx))) st)
| mstep_disable path prx st :
    get_object_user_data (objects st) path = Some prx ->
    mstep st (set_object path (snd (fst (proxy_disable prx))) st)
| mstep_set_serial_params args path prx st :
    get_object_user_data (objects st) path = Some prx ->
    mstep st (set_object path (snd (proxy_set_serial_params args prx)) st)
| mstep_listen r chan cond path prx prx' pevs cevs st :
    get_object_user_data (objects st) path = Some prx ->
    listen_dispatch r chan cond prx = Some (prx', pevs, cevs) ->
    mstep st (set_object path prx' st).

(** The states that calls lead to from a registry without proxies. *)
Inductive mreachable : mstate -> Prop :=
| mreachable_start st :
    proxies_paths st = [] -> objects st = [] -> mreachable st
| mreachable_step st st' : mreachable st -> mstep st st' -> mreachable st'.

(** CreateProxy registered the proxy [prx] at [path]. *)
Definition created (r : mgr_res) (m : dbus_message) (uuid128 addr : string)
    (path : string) (prx : proxy) (st st' : mstate) : Prop :=
  proxies_paths st' = proxies_paths st ++ [path] /\
  objects st' = objects st ++ [(path, prx)] /\
  get_object_user_data (objects st) path = None /\
  sk_counter st' = sk_counter st + 1 /\
  address prx = addr /\ uuid128 = Proxy.uuid128 prx /\
  type prx = addr2type r addr /\ type prx <> UNKNOWN_PROXY_TYPE /\
  listen_watch prx = 0 /\
  exists evs,
    new_mevents st st'
    = evs ++ [MSignal "ProxyCreated" path; MReply m (MethodReturn [path])].

(** What goes out on the bus: replies, errors and signals. *)
Definition is_sent (e : mevent) : bool :=
  match e with
  | MReply _ _ | MAlreadyExists _ _ | MSignal _ _ => true
  | _ => false
  end.

(** The errors of CreateProxy, in answer to [m]. *)
Definition create_error (m : dbus_message) (e : mevent) : Prop :=
  (exists descr, e = MReply m (ErrInvalidArguments descr)) \/
  e = MAlreadyExists m "Proxy already exists" \/
  (exists descr, e = MReply m (ErrFailed descr)).

(** CreateProxy announced the proxy at [path] and returned the path, and
    sent nothing else. *)
Definition announced (m : dbus_message) (path : string) (st st' : mstate)
    : Prop :=
  filter is_sent (new_mevents st st')
  = [MSignal "ProxyCreated" path; MReply m (MethodReturn [path])].

(** CreateProxy was refused: nothing is registered, and exactly one
    message goes out, last of all: an InvalidArguments, AlreadyExists or
    Failed error in answer to the call.  A path may have been used up. *)
Definition refused (m : dbus_message) (st st' : mstate) : Prop :=
  proxies_paths st' = proxies_paths st /\
  objects st' = objects st /\
  (sk_counter st' = sk_counter st \/ sk_counter st' = sk_counter st + 1) /\
  exists evs e,
    new_mevents st st' = evs ++ [e] /\ filter is_sent evs = [] /\
    create_error m e.

Definition no_proxies : mstate :=
  {| proxies_paths := []; objects := []; sk_counter := 0; mtrace := [] |}.

(** Nothing exists at the address, the adapter is there. *)
Definition plain_env : mgr_res :=
  {| g_sscanf_uuid := fun _ => 6; g_stat := fun _ => None;
     g_hci_get_route := 0; g_hci_devba := fun _ => Some 1;
     g_open := SysOk 5; g_tcgetattr := zero_ti; g_oom := false |}.

Definition create_msg : dbus_message :=
  {| msg_sender := ":1.50"; msg_member := "CreateProxy"; msg_serial := 3 |}.

Definition remove_msg : dbus_message :=
  {| msg_sender := ":1.50"; msg_member := "RemoveProxy"; msg_serial := 4 |}.

Definition spp_uuid : string := "00001101-0000-1000-8000-00805F9B34FB".

(** A socket name of 107 characters. *)
Definition long_name : string :=
  String.concat "" (repeat "/a-long-directory-name" 4) ++ "/proxy-socket-names".

(** The address of a unix-socket proxy fits [addr.sun_path] together
    with its terminating NUL. *)
Definition fits_sun_path (addr : string) : Prop :=
  if strncmp "x00" addr 3 =? 0
  then strlen (str_offset 3 addr) + 1 <= sun_path_room true
  else strlen addr + 1 <= sun_path_room false.

(** The listen watch fires without an error condition and [accept]
    returns a connection. *)
Definition accepting (ra : accept_res) (cond : Z) : Prop :=
  Z.land cond G_IO_NVAL = 0 /\
  Z.land cond (Z.lor G_IO_ERR G_IO_HUP) = 0 /\
  exists rsk, a_accept ra = SysOk rsk.

(** The registry after one CreateProxy for a TCP address. *)
Definition one_proxy : mstate :=
  create_proxy plain_env create_msg (Some (spp_uuid, "localhost:7000"))
    no_proxies.

End ProxyManagerSpec.

(** * Properties *)

(** ** Lists of addresses *)

Lemma g_slist_find_In (l : list ptr) (p : ptr) :
  g_slist_find l p = true <-> In p l.
Proof.
  unfold g_slist_find. rewrite existsb_exists. split.
  - intros [q [Hq Heq]]. apply Nat.eqb_eq in Heq. now subst.
  - intros H. exists p. split; [assumption | apply Nat.eqb_refl].
Qed.

Lemma g_slist_find_not_In (l : list ptr) (p : ptr) :
  ~ In p l -> g_slist_find l p = false.
Proof.
  intros H. destruct (g_slist_find l p) eqn:E; [|reflexivity].
  apply g_slist_find_In in E. contradiction.
Qed.

(** The search either stops at an address that is not in the list, or
    runs out of fuel after finding [fuel] consecutive addresses in it. *)
Lemma first_free_spec (l : list ptr) :
  forall (fuel : nat) (a : ptr),
    ~ In (first_free fuel l a) l \/
    (first_free fuel l a = (a + fuel)%nat /\ incl (seq a fuel) l).
Proof.
  induction fuel as [|fuel IH]; intros a; cbn [first_free seq].
  - right. split; [now rewrite Nat.add_0_r | intros x []].
  - destruct (g_slist_find l a) eqn:E.
    + apply g_slist_find_In in E.
      destruct (IH (S a)) as [H | [H1 H2]]; [now left|].
      right. split; [rewrite H1; lia|].
      intros x [<- | Hx]; [exact E | now apply H2].
    + left. intros H. apply g_slist_find_In in H. congruence.
Qed.

(** [g_new0] never returns the address of a registered struct. *)
Lemma g_new0_fresh (st : state) : ~ In (g_new0 st) (pending_connects st).
Proof.
  unfold g_new0.
  destruct (first_free_spec (pending_connects st)
              (List.length (pending_connects st)) 1%nat) as [H | [E Hincl]];
    [exact H|].
  rewrite E. intros Hin.
  assert (Hback : incl (pending_connects st)
                    (seq 1%nat (List.length (pending_connects st)))).
  { apply NoDup_length_incl; [apply seq_NoDup | | exact Hincl].
    rewrite length_seq. lia. }
  apply Hback, in_seq in Hin. lia.
Qed.

Lemma g_slist_remove_incl (l : list ptr) (p q : ptr) :
  In q (g_slist_remove l p) -> In q l.
Proof.
  induction l as [|x l IH]; simpl; [tauto|].
  destruct (Nat.eqb x p); simpl; intuition.
Qed.

Lemma g_slist_remove_NoDup (l : list ptr) (p : ptr) :
  NoDup l -> NoDup (g_slist_remove l p) /\ ~ In p (g_slist_remove l p).
Proof.
  induction 1 as [|x l Hx Hnd [IH1 IH2]]; simpl.
  - split; [constructor | tauto].
  - destruct (Nat.eqb x p) eqn:E.
    + apply Nat.eqb_eq in E. subst. split; assumption.
    + apply Nat.eqb_neq in E. split.
      * constructor; [|assumption].
        intros Hin. apply Hx. eapply g_slist_remove_incl; eassumption.
      * simpl. intros [H|H]; [congruence | tauto].
Qed.

(** ** Case-insensitive comparison *)

(** [strcasecmp] answers 0 on strings that are equal after
    lower-casing. *)
Lemma strcasecmp_lower (s t : string) :
  lower s = lower t -> strcasecmp s t = 0.
Proof.
  revert t. induction s as [|c s IH]; intros [|d t]; simpl; try discriminate.
  - reflexivity.
  - intros H. injection H as Hc Hr. rewrite Hc, Z.eqb_refl. auto.
Qed.

Lemma strcasecmp_refl (s : string) : strcasecmp s s = 0.
Proof. apply strcasecmp_lower. reflexivity. Qed.

Lemma same_letter_tolower (c d : ascii) :
  same_letter c d -> tolower c = tolower d.
Proof.
  unfold same_letter, is_upper, tolower.
  intros [-> | [[Hc Hd] | [Hd Hc]]]; [reflexivity | |].
  - rewrite Hd.
    replace ((65 <=? code c) && (code c <=? 90)) with true
      by (symmetry; apply andb_true_iff; split; apply Z.leb_le; lia).
    replace ((65 <=? code c + 32) && (code c + 32 <=? 90)) with false
      by (symmetry; apply andb_false_iff; right; apply Z.leb_gt; lia).
    reflexivity.
  - rewrite Hc.
    replace ((65 <=? code d) && (code d <=? 90)) with true
      by (symmetry; apply andb_true_iff; split; apply Z.leb_le; lia).
    replace ((65 <=? code d + 32) && (code d + 32 <=? 90)) with false
      by (symmetry; apply andb_false_iff; right; apply Z.leb_gt; lia).
    reflexivity.
Qed.

Lemma case_variant_lower (s t : string) :
  case_variant s t -> lower s = lower t.
Proof.
  induction 1 as [|c d s t Hcd _ IH]; simpl; [reflexivity|].
  rewrite (same_letter_tolower _ _ Hcd), IH. reflexivity.
Qed.

Lemma code_inj (c d : ascii) : code c = code d -> c = d.
Proof.
  unfold code. intros H. apply N2Z.inj in H.
  rewrite <- (ascii_N_embedding c), <- (ascii_N_embedding d). now rewrite H.
Qed.

(** On C strings [strcmp] answers 0 for equal strings only. *)
Lemma strcmp_eq (s t : string) :
  c_string s -> c_string t -> strcmp s t = 0 -> s = t.
Proof.
  revert t. induction s as [|c s IH]; intros [|d t] Hs Ht;
    cbn [strcmp c_string] in *.
  - reflexivity.
  - lia.
  - lia.
  - destruct (code c =? code d) eqn:E; [|apply Z.eqb_neq in E; lia].
    apply Z.eqb_eq, code_inj in E. subst d. intros H.
    f_equal. now apply IH.
Qed.

Lemma tolower_zero (c : ascii) : tolower c = 0 -> code c = 0.
Proof.
  unfold tolower.
  destruct ((65 <=? code c) && (code c <=? 90)) eqn:E; [|auto].
  apply andb_true_iff in E as [E _]. apply Z.leb_le in E. lia.
Qed.

Lemma tolower_same_letter (c d : ascii) :
  tolower c = tolower d -> same_letter c d.
Proof.
  unfold same_letter, is_upper, tolower.
  destruct ((65 <=? code c) && (code c <=? 90)) eqn:Ec;
    destruct ((65 <=? code d) && (code d <=? 90)) eqn:Ed; intros H.
  - left. apply code_inj. lia.
  - right. left. apply andb_true_iff in Ec as [E1 E2].
    apply Z.leb_le in E1, E2. lia.
  - right. right. apply andb_true_iff in Ed as [E1 E2].
    apply Z.leb_le in E1, E2. lia.
  - left. now apply code_inj.
Qed.

(** On C strings [strcasecmp] answers 0 only for strings that differ in
    letter case at most. *)
Lemma strcasecmp_case_variant (s t : string) :
  c_string s -> c_string t -> strcasecmp s t = 0 -> case_variant s t.
Proof.
  revert t. induction s as [|c s IH]; intros [|d t] Hs Ht;
    cbn [strcasecmp c_string] in *; intros H.
  - constructor.
  - exfalso. apply (proj1 Ht), tolower_zero. lia.
  - exfalso. apply (proj1 Hs), tolower_zero. lia.
  - destruct (tolower c =? tolower d) eqn:E; [|apply Z.eqb_neq in E; lia].
    apply Z.eqb_eq in E. constructor.
    + now apply tolower_same_letter.
    + apply IH; tauto.
Qed.

(** ** The registry lookup *)

Lemma find_pending_from_match (h : ptr -> pending_connect) (l : list ptr)
    (a pat : string) (p : ptr) :
  In p l ->
  strcasecmp (bda (h p)) a = 0 -> strcasecmp (pattern (h p)) pat = 0 ->
  exists q, find_pending_from h l a pat = Some q.
Proof.
  intros Hin Ha Hp. induction l as [|x l IH]; [contradiction|].
  simpl. destruct ((strcasecmp (bda (h x)) a =? 0)
                   && (strcasecmp (pattern (h x)) pat =? 0)) eqn:E.
  - eauto.
  - destruct Hin as [-> | Hin]; [|auto].
    rewrite Ha, Hp in E. discriminate.
Qed.

Lemma find_pending_from_None (h : ptr -> pending_connect) (l : list ptr)
    (a pat : string) (p : ptr) :
  find_pending_from h l a pat = None -> In p l ->
  ~ (strcasecmp (bda (h p)) a = 0 /\ strcasecmp (pattern (h p)) pat = 0).
Proof.
  intros Hnone Hin [Ha Hp].
  destruct (find_pending_from_match h l a pat p Hin Ha Hp) as [q Hq].
  congruence.
Qed.

(** A request that finds a registered pending connection is answered
    InProgress and nothing else happens. *)
Lemma connect_service_from_devid_found (r : sysres) (m : dbus_message)
    (dev_id : Z) (a pat : string) (st : state) (q : ptr) :
  find_pending_connect_by_pattern st a pat = Some q ->
  connect_service_from_devid r m dev_id a pat st
  = emit (EvReply m (ErrInProgress "Connection in progress")) st.
Proof. intros H. unfold connect_service_from_devid. rewrite H. reflexivity. Qed.

Lemma create_port_found (r : sysres) (m : dbus_message)
    (a pat : string) (st : state) (q : ptr) :
  find_pending_connect_by_pattern st a pat = Some q ->
  create_port r m (Some (a, pat)) st
  = emit (EvReply m (ErrInProgress "Connection in progress")) st.
Proof. intros H. unfold create_port. rewrite H. reflexivity. Qed.

Lemma new_events_app (st st' : state) (evs : list event) :
  trace st' = trace st ++ evs -> new_events st st' = evs.
Proof.
  intros H. unfold new_events. rewrite H.
  rewrite skipn_app, skipn_all, Nat.sub_diag. reflexivity.
Qed.

(** ** How the handlers extend the trace *)

Lemma extends_refl (P : event -> bool) (st : state) : extends P st st.
Proof. exists []. split; [now rewrite app_nil_r | reflexivity]. Qed.

Lemma extends_trans (P : event -> bool) (st1 st2 st3 : state) :
  extends P st1 st2 -> extends P st2 st3 -> extends P st1 st3.
Proof.
  intros (e1 & H1 & F1) (e2 & H2 & F2). exists (e1 ++ e2). split.
  - rewrite H2, H1, app_assoc. reflexivity.
  - rewrite forallb_app, F1, F2. reflexivity.
Qed.

Lemma extends_emit (P : event -> bool) (st0 st : state) (e : event) :
  extends P st0 st -> P e = true -> extends P st0 (emit e st).
Proof.
  intros H He. eapply extends_trans; [exact H|].
  exists [e]. split; [reflexivity | simpl; now rewrite He].
Qed.

Lemma extends_same_trace (P : event -> bool) (st0 st st' : state) :
  trace st' = trace st -> extends P st0 st -> extends P st0 st'.
Proof. intros E (evs & H & F). exists evs. rewrite E. auto. Qed.

Lemma extends_new_events (P : event -> bool) (st st' : state) :
  extends P st st' -> forallb P (new_events st st') = true.
Proof. intros (evs & H & F). now rewrite (new_events_app _ _ _ H). Qed.

(** Destructs the scrutinee of an innermost match of the goal. *)
Ltac break_inner :=
  match goal with
  | |- context [match ?x with _ => _ end] =>
      lazymatch x with
      | context [match _ with _ => _ end] => fail
      | _ => destruct x eqn:?
      end
  end.

Lemma extends_store P st0 st p f :
  extends P st0 st -> extends P st0 (store p f st).
Proof. apply extends_same_trace. reflexivity. Qed.

Lemma extends_set_pending P st0 st l :
  extends P st0 st -> extends P st0 (set_pending l st).
Proof. apply extends_same_trace. reflexivity. Qed.

Lemma extends_set_devs P st0 st l :
  extends P st0 st -> extends P st0 (set_devs l st).
Proof. apply extends_same_trace. reflexivity. Qed.

Lemma extends_set_timeouts P st0 st l :
  extends P st0 st -> extends P st0 (set_timeouts l st).
Proof. apply extends_same_trace. reflexivity. Qed.

Lemma extends_set_ports_paths P st0 st l :
  extends P st0 st -> extends P st0 (set_ports_paths l st).
Proof. apply extends_same_trace. reflexivity. Qed.

(** Turns a goal about the state component of a destructed call into
    one about the call. *)
Ltac fold_snd :=
  match goal with
  | E : ?f = (_, ?s) |- extends _ _ ?s =>
      replace s with (snd f) by (rewrite E; reflexivity)
  end.

Ltac ext_base :=
  first
    [ eassumption
    | apply extends_refl
    | apply extends_emit; [ | reflexivity ]
    | apply extends_store
    | apply extends_set_pending
    | apply extends_set_devs
    | apply extends_set_timeouts
    | apply extends_set_ports_paths ].

Section TraceLemmas.

Context {sdp : SdpLib}.

Lemma pending_connect_free_ext (st0 st : state) (p : ptr) :
  extends after_resolution st0 st ->
  extends after_resolution st0 (pending_connect_free p st).
Proof.
  intros H. unfold pending_connect_free. cbv zeta.
  repeat first [ext_base | break_inner].
Qed.

Lemma rfcomm_release_ext (st0 st : state) (dev_id : Z) :
  extends after_resolution st0 st ->
  extends after_resolution st0 (snd (rfcomm_release dev_id st)).
Proof.
  intros H. unfold rfcomm_release. cbv zeta.
  repeat first [ext_base | break_inner | progress simpl].
Qed.

Lemma pending_connect_remove_ext (st0 st : state) (p : ptr) :
  extends after_resolution st0 st ->
  extends after_resolution st0 (pending_connect_remove p st).
Proof.
  intros H. unfold pending_connect_remove. cbv zeta.
  apply pending_connect_free_ext. repeat ext_base.
Qed.

Lemma open_notify_ext (st0 st : state) (fd err : Z) (p : ptr) :
  extends after_resolution st0 st ->
  extends after_resolution st0 (open_notify fd err p st).
Proof.
  intros H. unfold open_notify. cbv zeta.
  repeat first [ext_base | apply rfcomm_release_ext | break_inner].
Qed.

Lemma port_open_ext (st0 st : state) (r : sysres) (p : ptr) :
  extends after_resolution st0 st ->
  extends after_resolution st0 (snd (port_open r p st)).
Proof.
  intros H. unfold port_open. cbv zeta.
  destruct (r_open r); simpl; repeat ext_base.
Qed.

Lemma rfcomm_connect_cb_ext (st0 st : state) (r : sysres) (chan cond : Z)
    (p : ptr) :
  extends after_resolution st0 st ->
  extends after_resolution st0 (rfcomm_connect_cb r chan cond p st).
Proof.
  intros H. unfold rfcomm_connect_cb. cbv zeta.
  repeat first
    [ ext_base
    | apply pending_connect_remove_ext
    | apply open_notify_ext
    | fold_snd; apply port_open_ext
    | break_inner ].
Qed.

Lemma rfcomm_connect_ext (st0 st : state) (r : sysres) (p : ptr) :
  extends after_resolution st0 st ->
  extends after_resolution st0 (snd (rfcomm_connect r p st)).
Proof.
  intros H. unfold rfcomm_connect. cbv zeta.
  repeat first
    [ ext_base | apply rfcomm_connect_cb_ext | break_inner | progress simpl ].
Qed.

Lemma rfcomm_bind_ext (st0 st : state) (r : sysres) (s : Z) (d : string)
    (ch : Z) :
  extends after_resolution st0 st ->
  extends after_resolution st0 (snd (rfcomm_bind r s d ch st)).
Proof.
  intros H. unfold rfcomm_bind.
  destruct (r_createdev r); simpl; repeat ext_base.
Qed.

Lemma record_reply_channel_ext (st0 st : state) (r : sysres)
    (rec : sdp_record_t) (ch : Z) (p : ptr) :
  extends after_resolution st0 st ->
  extends after_resolution st0 (record_reply_channel r rec ch p st).
Proof.
  intros H. unfold record_reply_channel. cbv zeta.
  repeat first
    [ ext_base
    | apply pending_connect_remove_ext
    | fold_snd; first [apply rfcomm_connect_ext | apply rfcomm_bind_ext]
    | break_inner ].
Qed.

End TraceLemmas.

(** ** Pattern classification *)

Lemma hex_prefix_inv (pat : string) :
  strncasecmp "0x" pat 2 = 0 ->
  exists c0 c1 rest, pat = String c0 (String c1 rest)
                     /\ tolower c0 = 48 /\ tolower c1 = 120.
Proof.
  intros H.
  destruct pat as [|c0 [|c1 rest]]; cbn [strncasecmp] in H;
    change (tolower "0") with 48 in H; change (tolower "x") with 120 in H.
  - discriminate.
  - destruct (48 =? tolower c0) eqn:E0; [discriminate|].
    apply Z.eqb_neq in E0. lia.
  - exists c0, c1, rest. split; [reflexivity|].
    destruct (48 =? tolower c0) eqn:E0.
    + apply Z.eqb_eq in E0.
      destruct (120 =? tolower c1) eqn:E1.
      * apply Z.eqb_eq in E1. auto.
      * apply Z.eqb_neq in E1. lia.
    + apply Z.eqb_neq in E0. lia.
Qed.

(** A pattern with the "0x" prefix is neither a friendly name nor a
    128-bit UUID string: the names start with a letter and the UUID form
    asks for "000" in front. *)
Lemma hex_prefix_not_uuid (pat : string) (size : nat) :
  strncasecmp "0x" pat 2 = 0 -> pattern2uuid128 pat size = None.
Proof.
  intros H. destruct (hex_prefix_inv pat H) as (c0 & c1 & rest & -> & H0 & H1).
  unfold pattern2uuid128, str2class, serial_services, str2class_from.
  cbn [strcasecmp]. rewrite H0.
  repeat match goal with
  | |- context [tolower ?c =? 48] =>
      change (tolower c =? 48) with false; cbv iota
  | |- context [tolower ?c - 48 =? 0] =>
      change (tolower c - 48 =? 0) with false; cbv iota
  end.
  change (negb (0 =? 0)) with false. cbv iota.
  unfold BASE_UUID. cbn [strncasecmp]. rewrite H0, H1.
  change (tolower "0") with 48. cbn [Z.eqb Pos.eqb].
  change (48 - 120 =? 0) with false. rewrite andb_false_r. reflexivity.
Qed.

Lemma uint8_small (v : Z) : 0 <= v < 256 -> uint8 v = v.
Proof. intros H. unfold uint8. apply Z.mod_small. simpl. lia. Qed.

(** ** Submitting a request *)

Lemma heap_store_same (st : state) (p : ptr) f :
  heap (store p f st) p = f (heap st p).
Proof. simpl. now rewrite Nat.eqb_refl. Qed.

(** Once the socket is set up, [rfcomm_connect] issues the connect(2) to
    the request's address and channel before anything else observable. *)
Lemma rfcomm_connect_issues_connect (r : sysres) (p : ptr) (st : state)
    (sk x y : Z) :
  r_socket r = SysOk sk -> r_bind r = SysOk x ->
  r_set_nonblocking r = SysOk y ->
  exists evs,
    trace (snd (rfcomm_connect r p st))
    = trace st ++ [EvSocket sk; EvConnect sk (bda (heap st p)) (channel (heap st p))]
        ++ evs.
Proof.
  intros Hs Hb Hn. unfold rfcomm_connect. rewrite Hs, Hb, Hn. cbv zeta.
  rewrite heap_store_same.
  destruct (r_connect r) as [v|e].
  - cbn [snd].
    match goal with |- context [rfcomm_connect_cb r sk G_IO_OUT p ?s] =>
      destruct (rfcomm_connect_cb_ext s s r sk G_IO_OUT p (extends_refl _ _))
        as (evs & Hevs & _) end.
    exists evs. rewrite Hevs. cbn [trace emit store]. rewrite <- !app_assoc.
    reflexivity.
  - destruct (negb ((Z.pos e =? EAGAIN) || (Z.pos e =? EINPROGRESS)));
      cbn [snd trace emit store]; rewrite <- !app_assoc; simpl;
      eexists; reflexivity.
Qed.

(** C1, as the code has it.  For a pattern that is neither a friendly
    name nor a UUID string, does not start with "0x" and parses as an
    integer in 1..30, ConnectService (no request pending for the pair,
    adapter available) sends no discovery request, neither a handle
    lookup nor a record fetch, and, as soon as the socket is set up,
    issues the RFCOMM connect to the given address on that channel. *)
Theorem connect_service_literal_channel
    (r : sysres) (m : dbus_message) (dev_id : Z) (a pat : string)
    (st : state) (val srcaddr : Z) :
  find_pending_connect_by_pattern st a pat = None ->
  0 <= dev_id -> r_hci_devba r dev_id = Some srcaddr ->
  pattern2uuid128 pat MAX_LEN_UUID_STR = None ->
  strncasecmp "0x" pat 2 <> 0 ->
  pattern2long pat = Some val -> 1 <= val <= 30 ->
  let st' := connect_service_from_devid r m dev_id a pat st in
  (forall e, In e (new_events st st') -> is_discovery e = false) /\
  (forall sk x y,
      r_socket r = SysOk sk -> r_bind r = SysOk x ->
      r_set_nonblocking r = SysOk y ->
      In (EvConnect sk a val) (new_events st st')).
Proof.
  intros Hfind Hdev Hba Huuid Hhex Hlong Hval st'. subst st'.
  unfold connect_service_from_devid.
  rewrite Hfind.
  replace (dev_id <? 0) with false by (symmetry; apply Z.ltb_ge; lia).
  rewrite Hba. unfold alloc. cbv iota beta zeta.
  rewrite Huuid, Hlong.
  replace (strncasecmp "0x" pat 2 =? 0) with false
    by (symmetry; now apply Z.eqb_neq).
  replace ((val <? 1) || (30 <? val)) with false
    by (symmetry; apply orb_false_iff; split; apply Z.ltb_ge; lia).
  match goal with |- context [rfcomm_connect r _ ?s] => set (s0 := s) end.
  match goal with |- context [rfcomm_connect r ?p s0] => set (p0 := p) end.
  assert (Ht0 : trace s0 = trace st) by reflexivity.
  assert (Hpc : bda (heap s0 p0) = a /\ channel (heap s0 p0) = val).
  { subst s0 p0. rewrite heap_store_same. cbn [set_pending heap].
    rewrite Nat.eqb_refl. cbn. split; [reflexivity|].
    apply uint8_small. lia. }
  pose proof (rfcomm_connect_ext s0 s0 r p0 (extends_refl _ _)) as Hext.
  split.
  - assert (Hd : extends (fun e => negb (is_discovery e)) st
                   (let '(err, st1) := rfcomm_connect r p0 s0 in
                    if err <? 0
                    then emit (EvReply m (ErrConnectionAttemptFailed (- err)))
                           (pending_connect_free p0
                              (set_pending (g_slist_remove (pending_connects st1) p0) st1))
                    else emit (EvNameListenerAdd (msg_sender m)) st1)).
    { destruct (rfcomm_connect r p0 s0) as [err st1]. cbn [snd] in Hext.
      assert (H1 : extends (fun e => negb (is_discovery e)) st st1).
      { destruct Hext as (evs & E & F). exists evs. split.
        - rewrite E, Ht0. reflexivity.
        - rewrite forallb_forall in *. intros e He. specialize (F e He).
          destruct e as [? []| | | | | | | | | | | | | | | | |]; try reflexivity;
            discriminate. }
      destruct (err <? 0).
      + apply extends_emit; [|reflexivity].
        destruct (pending_connect_free_ext st1
                    (set_pending (g_slist_remove (pending_connects st1) p0) st1)
                    p0) as (evs & E & F).
        { apply extends_set_pending, extends_refl. }
        eapply extends_trans; [exact H1|]. exists evs. split; [exact E|].
        rewrite forallb_forall in *. intros e He. specialize (F e He).
        destruct e as [? []| | | | | | | | | | | | | | | | |]; try reflexivity;
          discriminate.
      + apply extends_emit; [assumption | reflexivity]. }
    apply extends_new_events in Hd. rewrite forallb_forall in Hd.
    intros e He. apply Hd in He. now apply negb_true_iff in He.
  - intros sk x y Hs Hb Hn.
    destruct (rfcomm_connect_issues_connect r p0 s0 sk x y Hs Hb Hn)
      as (evs & Hevs).
    destruct Hpc as [Hbda Hch]. rewrite Hbda, Hch, Ht0 in Hevs.
    destruct (rfcomm_connect r p0 s0) as [err st1]. cbn [snd] in Hevs.
    destruct (err <? 0).
    + destruct (pending_connect_free_ext st1
                  (set_pending (g_slist_remove (pending_connects st1) p0) st1)
                  p0) as (evs2 & E & _).
      { apply extends_set_pending, extends_refl. }
      erewrite new_events_app.
      2:{ cbn [emit trace]. rewrite E. cbn [set_pending trace].
          rewrite Hevs, <- !app_assoc. reflexivity. }
      simpl. auto.
    + erewrite new_events_app.
      2:{ cbn [emit trace]. rewrite Hevs, <- !app_assoc. reflexivity. }
      simpl. auto.
Qed.

(** C1 as stated fails for the hexadecimal forms: "0x5" parses as 5, yet
    the request is rejected as an invalid record handle and no connect
    is issued. *)
Lemma connect_service_hex_channel_rejected :
  pattern2long "0x5" = Some 5 /\ 1 <= 5 <= 30 /\
  let st' := connect_service_from_devid Sample.env Sample.msg0 0
               Sample.peer "0x5" Sample.init in
  new_events Sample.init st'
  = [EvReply Sample.msg0 (ErrInvalidArguments "invalid record handle")] /\
  forall sk, ~ In (EvConnect sk Sample.peer 5) (new_events Sample.init st').
Proof.
  split; [reflexivity|]. split; [lia|].
  assert (E : new_events Sample.init
                (connect_service_from_devid Sample.env Sample.msg0 0
                   Sample.peer "0x5" Sample.init)
              = [EvReply Sample.msg0
                   (ErrInvalidArguments "invalid record handle")])
    by (vm_compute; reflexivity).
  cbv zeta. split; [exact E|].
  intros sk H. rewrite E in H. simpl in H. destruct H as [H|[]]. discriminate.
Qed.

Lemma connect_service_literal_channel_witness :
  In (EvConnect 7 Sample.peer 5)
     (new_events Sample.init
        (connect_service_from_devid Sample.env Sample.msg0 0
           Sample.peer "5" Sample.init)).
Proof.
  refine (proj2 (connect_service_literal_channel Sample.env Sample.msg0 0
                   Sample.peer "5" Sample.init 5 1 _ _ _ _ _ _ _)
            7 0 0 _ _ _).
  - reflexivity.
  - lia.
  - reflexivity.
  - reflexivity.
  - vm_compute. discriminate.
  - reflexivity.
  - lia.
  - reflexivity.
  - reflexivity.
  - reflexivity.
Defined.

(** C2, as the code has it.  For a pattern that starts with "0x" (in
    either case) and parses as an integer of at least 0x10000,
    ConnectService and CreatePort (no request pending for the pair,
    adapter available, D-Bus able to send) register the request and send
    exactly one record fetch, for the value as a 32-bit handle, and no
    handle lookup. *)
Theorem hex_record_handle_fetches_record_once
    (r : sysres) (m : dbus_message) (a pat : string) (st : state)
    (val srcaddr : Z) :
  find_pending_connect_by_pattern st a pat = None ->
  0 <= r_hci_get_route r ->
  r_hci_devba r (r_hci_get_route r) = Some srcaddr ->
  r_dbus_send r = true ->
  strncasecmp "0x" pat 2 = 0 ->
  pattern2long pat = Some val -> 0x10000 <= val ->
  let fetch :=
    [ EvGetRecord (g_new0 st)
        (snprintf 16 ("/org/bluez/hci" ++ fmt_d (r_hci_get_route r)))
        a (uint32 val);
      EvNameListenerAdd (msg_sender m) ] in
  let st1 := connect_service r m (Some (a, pat)) st in
  let st2 := create_port r m (Some (a, pat)) st in
  (new_events st st1 = fetch /\
   pending_connects st1 = pending_connects st ++ [g_new0 st]) /\
  (new_events st st2 = fetch /\
   pending_connects st2 = pending_connects st ++ [g_new0 st]).
Proof.
  intros Hfind Hdev Hba Hsend Hhex Hlong Hval fetch st1 st2.
  subst fetch st1 st2.
  unfold connect_service, connect_service_from_devid, create_port.
  rewrite Hfind. cbv zeta.
  replace (r_hci_get_route r <? 0) with false by (symmetry; apply Z.ltb_ge; lia).
  rewrite Hba. unfold alloc. cbv iota beta zeta.
  rewrite (hex_prefix_not_uuid pat _ Hhex), Hlong, Hhex.
  change (0 =? 0) with true. cbv iota.
  replace (val <? 65536) with false by (symmetry; apply Z.ltb_ge; lia).
  unfold get_record. rewrite Hsend. cbv iota beta zeta.
  change (0 <? 0) with false. cbv iota.
  cbn [heap]. rewrite Nat.eqb_refl.
  split; (split; [apply new_events_app; cbn; rewrite <- app_assoc | ];
          reflexivity).
Qed.

Lemma hex_record_handle_fetches_record_once_witness :
  new_events Sample.init
    (connect_service Sample.env Sample.msg0
       (Some (Sample.peer, "0x10000")) Sample.init)
  = [ EvGetRecord 1%nat "/org/bluez/hci0" Sample.peer 65536;
      EvNameListenerAdd ":1.42" ].
Proof.
  refine (proj1 (proj1 (hex_record_handle_fetches_record_once Sample.env
                   Sample.msg0 Sample.peer "0x10000" Sample.init 65536 1
                   _ _ _ _ _ _ _))).
  - reflexivity.
  - simpl. lia.
  - reflexivity.
  - reflexivity.
  - reflexivity.
  - reflexivity.
  - lia.
Defined.

(** C2 as stated fails for the decimal forms: "65536" parses as 0x10000,
    yet both entry points reject it as an invalid channel and send no
    record fetch. *)
Lemma decimal_record_handle_rejected :
  pattern2long "65536" = Some 65536 /\ 0x10000 <= 65536 /\
  new_events Sample.init
    (connect_service Sample.env Sample.msg0
       (Some (Sample.peer, "65536")) Sample.init)
  = [EvReply Sample.msg0 (ErrInvalidArguments "invalid RFCOMM channel")] /\
  new_events Sample.init
    (create_port Sample.env Sample.msg1
       (Some (Sample.peer, "65536")) Sample.init)
  = [EvReply Sample.msg1 (ErrInvalidArguments "invalid RFCOMM channel")].
Proof.
  split; [reflexivity|]. split; [lia|]. split; vm_compute; reflexivity.
Qed.

(** ** Callbacks of a destroyed request *)

Section Callbacks.

Context {sdp : SdpLib}.

(** The guard of the three callbacks is a search for the address they
    were given: when that address is not in [pending_connects] the
    callback leaves the whole state as it is, and the tick returns
    FALSE. *)
Lemma callbacks_ignore_unregistered_address
    (r : sysres) (reply : dbus_incoming) (p : ptr) (st : state) :
  ~ In p (pending_connects st) ->
  handles_reply r reply p st = st /\
  record_reply r reply p st = st /\
  open_continue r p st = (false, st).
Proof.
  intros H. apply g_slist_find_not_In in H.
  unfold handles_reply, record_reply, open_continue.
  rewrite H. simpl. auto.
Qed.

End Callbacks.

(** C9: the code breaks the claim.  The guard finds a request by the
    address of its struct, and the address of a destroyed request is
    free for the next one.  The first request (ConnectService, "spp")
    sends its handle lookup with the address 1 and is destroyed when its
    requester exits; the second request (CreatePort, "dun", from another
    client and for another device) gets the same address.  The reply to
    the first lookup, arriving now, is not discarded: when it is an
    error the second requester is answered NotSupported and its request
    destroyed, when it carries handles the second request fetches a
    record of its own device by a handle of the first. *)
Theorem late_reply_reaches_reused_address :
  new_events Sample.init one_pending
  = [ EvGetHandles 1%nat "/org/bluez/hci0" "00:11:22:AA:BB:CC"
        "00001101-0000-1000-8000-00805f9b34fb";
      EvNameListenerAdd ":1.42" ] /\
  pending_connects one_pending = [1%nat] /\
  pending_connects owner_gone = [] /\
  pending_connects second_request = [1%nat] /\
  msg (heap second_request 1%nat) = Sample.msg1 /\
  (let late := handles_reply Sample.env (InError "org.bluez.Error.Failed")
                 1%nat second_request in
   new_events second_request late
   = [ EvReply Sample.msg1 ErrNotSupported; EvNameListenerRemove ":1.43" ] /\
   pending_connects late = []) /\
  (let late := handles_reply Sample.env (InHandles [65536])
                 1%nat second_request in
   new_events second_request late
   = [ EvGetRecord 1%nat "/org/bluez/hci0" Sample.peer 65536 ]).
Proof. repeat split; vm_compute; reflexivity. Qed.

(** ** Duplicate requests *)

(** C10.  A request whose address and pattern differ from those of a
    registered pending connection only in the case of ASCII letters is
    answered InProgress by ConnectService and by CreatePort, with no
    other effect: the same outcome as for the identical pair. *)
Theorem duplicate_detection_ignores_case
    (r : sysres) (m : dbus_message) (dev_id : Z) (st : state) (p : ptr)
    (a pat : string) :
  In p (pending_connects st) ->
  case_variant (bda (heap st p)) a ->
  case_variant (pattern (heap st p)) pat ->
  let in_progress := emit (EvReply m (ErrInProgress "Connection in progress")) st in
  connect_service_from_devid r m dev_id a pat st = in_progress /\
  create_port r m (Some (a, pat)) st = in_progress /\
  connect_service_from_devid r m dev_id (bda (heap st p)) (pattern (heap st p)) st
  = in_progress.
Proof.
  intros Hin Ha Hp in_progress. subst in_progress.
  apply case_variant_lower, strcasecmp_lower in Ha, Hp.
  destruct (find_pending_from_match (heap st) _ a pat p Hin Ha Hp) as [q Hq].
  destruct (find_pending_from_match (heap st) _ _ _ p Hin
              (strcasecmp_refl _) (strcasecmp_refl _)) as [q' Hq'].
  split; [|split].
  - eapply connect_service_from_devid_found. exact Hq.
  - eapply create_port_found. exact Hq.
  - eapply connect_service_from_devid_found. exact Hq'.
Qed.

(** Solves [case_variant] between two string literals. *)
Ltac case_variant_lit :=
  repeat first
    [ apply cv_nil
    | apply cv_cons;
      [ first
          [ left; reflexivity
          | right; left; split; [unfold is_upper; vm_compute; intuition discriminate | reflexivity]
          | right; right; split; [unfold is_upper; vm_compute; intuition discriminate | reflexivity] ]
      | ] ].

Lemma duplicate_detection_ignores_case_witness :
  create_port Sample.env Sample.msg1
    (Some ("00:11:22:aa:bb:cc", "SPP")) one_pending
  = emit (EvReply Sample.msg1 (ErrInProgress "Connection in progress"))
      one_pending.
Proof.
  refine (proj1 (proj2 (duplicate_detection_ignores_case Sample.env
                   Sample.msg1 0 one_pending 1%nat
                   "00:11:22:aa:bb:cc" "SPP" _ _ _))).
  - vm_compute. auto.
  - vm_compute. case_variant_lit.
  - vm_compute. case_variant_lit.
Defined.

(** ** How the handlers act on the registry *)

Lemma frames_refl (st : state) : frames st st.
Proof. unfold frames. auto. Qed.

Lemma frames_trans (st1 st2 st3 : state) :
  frames st1 st2 -> frames st2 st3 -> frames st1 st3.
Proof.
  intros (I1 & N1 & K1) (I2 & N2 & K2). repeat split.
  - auto.
  - auto.
  - rewrite (proj1 (K2 q)). apply K1.
  - rewrite (proj2 (K2 q)). apply K1.
Qed.

Lemma frames_same (st st' : state) :
  pending_connects st' = pending_connects st ->
  heap st' = heap st -> frames st st'.
Proof.
  intros L H. unfold frames. rewrite L, H. auto.
Qed.

Lemma frames_emit (st0 st : state) (e : event) :
  frames st0 st -> frames st0 (emit e st).
Proof.
  intros H. eapply frames_trans; [exact H|]. now apply frames_same.
Qed.

Lemma frames_set_devs (st0 st : state) l :
  frames st0 st -> frames st0 (set_devs l st).
Proof.
  intros H. eapply frames_trans; [exact H|]. now apply frames_same.
Qed.

Lemma frames_set_timeouts (st0 st : state) l :
  frames st0 st -> frames st0 (set_timeouts l st).
Proof.
  intros H. eapply frames_trans; [exact H|]. now apply frames_same.
Qed.

Lemma frames_set_ports_paths (st0 st : state) l :
  frames st0 st -> frames st0 (set_ports_paths l st).
Proof.
  intros H. eapply frames_trans; [exact H|]. now apply frames_same.
Qed.

Lemma frames_store (st0 st : state) (p : ptr) f :
  (forall pc, bda (f pc) = bda pc /\ pattern (f pc) = pattern pc) ->
  frames st0 st -> frames st0 (store p f st).
Proof.
  intros Hf H. eapply frames_trans; [exact H|].
  unfold frames. cbn [store pending_connects heap].
  repeat split; auto; destruct (Nat.eqb q p) eqn:E; try reflexivity;
    apply Nat.eqb_eq in E; subst; apply Hf.
Qed.

Lemma frames_remove (st0 st : state) (p : ptr) :
  frames st0 st ->
  frames st0 (set_pending (g_slist_remove (pending_connects st) p) st).
Proof.
  intros H. eapply frames_trans; [exact H|].
  unfold frames. cbn [set_pending pending_connects heap].
  repeat split; auto.
  - intros q. apply g_slist_remove_incl.
  - intros Hn. apply g_slist_remove_NoDup. assumption.
Qed.

Ltac fold_snd_frames :=
  match goal with
  | E : ?f = (_, ?s) |- frames _ ?s =>
      replace s with (snd f) by (rewrite E; reflexivity)
  end.

Ltac frm_base :=
  first
    [ eassumption
    | apply frames_refl
    | apply frames_emit
    | apply frames_store; [ intros; split; reflexivity | ]
    | apply frames_remove
    | apply frames_set_devs
    | apply frames_set_timeouts
    | apply frames_set_ports_paths ].

Section RegistryLemmas.

Context {sdp : SdpLib}.

Lemma pending_connect_free_frames (st0 st : state) (p : ptr) :
  frames st0 st -> frames st0 (pending_connect_free p st).
Proof.
  intros H. unfold pending_connect_free. cbv zeta.
  repeat first [frm_base | break_inner].
Qed.

Lemma rfcomm_release_frames (st0 st : state) (dev_id : Z) :
  frames st0 st -> frames st0 (snd (rfcomm_release dev_id st)).
Proof.
  intros H. unfold rfcomm_release. cbv zeta.
  repeat first [frm_base | break_inner | progress cbn [snd]].
Qed.

Lemma pending_connect_remove_frames (st0 st : state) (p : ptr) :
  frames st0 st -> frames st0 (pending_connect_remove p st).
Proof.
  intros H. unfold pending_connect_remove. cbv zeta.
  apply pending_connect_free_frames.
  change (pending_connects
            (emit (EvNameListenerRemove (msg_sender (msg (heap st p)))) st))
    with (pending_connects st).
  set (e := EvNameListenerRemove _).
  assert (Hs : frames st0 (emit e st)) by (apply frames_emit; exact H).
  exact (frames_remove st0 (emit e st) p Hs).
Qed.

Lemma open_notify_frames (st0 st : state) (fd err : Z) (p : ptr) :
  frames st0 st -> frames st0 (open_notify fd err p st).
Proof.
  intros H. unfold open_notify. cbv zeta.
  repeat first [apply rfcomm_release_frames | frm_base | break_inner].
Qed.

Lemma open_continue_frames (st0 st : state) (r : sysres) (p : ptr) :
  frames st0 st -> frames st0 (snd (open_continue r p st)).
Proof.
  intros H. unfold open_continue. cbv zeta.
  repeat first
    [ apply pending_connect_remove_frames
    | apply open_notify_frames
    | frm_base
    | break_inner
    | progress cbn [snd] ].
Qed.

Lemma port_open_frames (st0 st : state) (r : sysres) (p : ptr) :
  frames st0 st -> frames st0 (snd (port_open r p st)).
Proof.
  intros H. unfold port_open. cbv zeta.
  destruct (r_open r); cbn [snd]; repeat frm_base.
Qed.

Lemma rfcomm_connect_cb_frames (st0 st : state) (r : sysres)
    (chan cond : Z) (p : ptr) :
  frames st0 st -> frames st0 (rfcomm_connect_cb r chan cond p st).
Proof.
  intros H. unfold rfcomm_connect_cb. cbv zeta.
  repeat first
    [ apply pending_connect_remove_frames
    | apply open_notify_frames
    | fold_snd_frames; apply port_open_frames
    | frm_base
    | break_inner ].
Qed.

Lemma rfcomm_connect_frames (st0 st : state) (r : sysres) (p : ptr) :
  frames st0 st -> frames st0 (snd (rfcomm_connect r p st)).
Proof.
  intros H. unfold rfcomm_connect. cbv zeta.
  repeat first
    [ apply rfcomm_connect_cb_frames | frm_base | break_inner
    | progress cbn [snd] ].
Qed.

Lemma rfcomm_bind_frames (st0 st : state) (r : sysres) (s : Z) (d : string)
    (ch : Z) :
  frames st0 st -> frames st0 (snd (rfcomm_bind r s d ch st)).
Proof.
  intros H. unfold rfcomm_bind.
  destruct (r_createdev r); cbn [snd]; repeat frm_base.
Qed.

Lemma get_record_frames (st0 st : state) (r : sysres) (p : ptr) (h : Z) :
  frames st0 st -> frames st0 (snd (get_record r p h st)).
Proof.
  intros H. unfold get_record.
  destruct (r_dbus_send r); cbn [snd]; repeat frm_base.
Qed.

Lemma get_handles_frames (st0 st : state) (r : sysres) (p : ptr) (u : string) :
  frames st0 st -> frames st0 (snd (get_handles r p u st)).
Proof.
  intros H. unfold get_handles.
  destruct (r_dbus_send r); cbn [snd]; repeat frm_base.
Qed.

Lemma record_reply_channel_frames (st0 st : state) (r : sysres)
    (rec : sdp_record_t) (ch : Z) (p : ptr) :
  frames st0 st -> frames st0 (record_reply_channel r rec ch p st).
Proof.
  intros H. unfold record_reply_channel. cbv zeta.
  repeat first
    [ apply pending_connect_remove_frames
    | fold_snd_frames;
      first [apply rfcomm_connect_frames | apply rfcomm_bind_frames]
    | frm_base
    | break_inner ].
Qed.

Lemma record_reply_frames (st0 st : state) (r : sysres)
    (reply : dbus_incoming) (p : ptr) :
  frames st0 st -> frames st0 (record_reply r reply p st).
Proof.
  intros H. unfold record_reply. cbv zeta.
  repeat first
    [ apply pending_connect_remove_frames
    | apply record_reply_channel_frames
    | frm_base
    | break_inner ].
Qed.

Lemma handles_reply_frames (st0 st : state) (r : sysres)
    (reply : dbus_incoming) (p : ptr) :
  frames st0 st -> frames st0 (handles_reply r reply p st).
Proof.
  intros H. unfold handles_reply. cbv zeta.
  repeat first
    [ apply pending_connect_remove_frames
    | fold_snd_frames; apply get_record_frames
    | frm_base
    | break_inner ].
Qed.

Lemma cancel_connect_service_frames (st0 st : state) (m : dbus_message)
    (args : option (string * string)) :
  frames st0 st -> frames st0 (cancel_connect_service m args st).
Proof.
  intros H. unfold cancel_connect_service. cbv zeta.
  repeat first [frm_base | break_inner].
Qed.

Lemma timeout_dispatch_frames (st0 st : state) (r : sysres) (p : ptr) :
  frames st0 st -> frames st0 (timeout_dispatch r p st).
Proof.
  intros H. unfold timeout_dispatch.
  repeat first
    [ fold_snd_frames; apply open_continue_frames | frm_base | break_inner ].
Qed.

End RegistryLemmas.

Section RegistryInvariant.

Context {sdp : SdpLib}.

Lemma owner_exited_loop_spec (name : string) (l : list ptr) :
  forall (tmp : list ptr) (st : state),
    let res := owner_exited_loop name l tmp st in
    (forall q, In q (fst res) -> In q tmp \/ In q l) /\
    (NoDup (tmp ++ l) -> NoDup (fst res)) /\
    frames st (snd res).
Proof.
  induction l as [|p l IH]; intros tmp st; cbn [owner_exited_loop].
  - cbn [fst snd]. rewrite app_nil_r. repeat split; auto.
  - cbv zeta.
    destruct (negb (strcmp name (msg_sender (msg (heap st p))) =? 0)).
    + destruct (IH (g_slist_append tmp p) st) as (I & N & F).
      unfold g_slist_append in *. split; [|split].
      * intros q Hq. destruct (I q Hq) as [H|H]; [|simpl; auto].
        apply in_app_or in H as [H|[H|[]]]; [auto | subst; simpl; auto].
      * intros Hn. apply N. rewrite <- app_assoc. exact Hn.
      * exact F.
    + match goal with |- context [owner_exited_loop name l tmp ?s] =>
        destruct (IH tmp s) as (I & N & F);
        assert (Fs : frames st s)
      end.
      { apply pending_connect_free_frames.
        destruct (0 <=? id (heap st p));
          [apply rfcomm_release_frames|]; apply frames_refl. }
      split; [|split].
      * intros q Hq. destruct (I q Hq); simpl; auto.
      * intros Hn. apply N. eapply NoDup_remove_1. exact Hn.
      * eapply frames_trans; eassumption.
Qed.

Lemma transaction_owner_exited_frames (st0 st : state) (name : string) :
  frames st0 st -> frames st0 (transaction_owner_exited name st).
Proof.
  intros H. eapply frames_trans; [exact H|].
  unfold transaction_owner_exited.
  pose proof (owner_exited_loop_spec name (pending_connects st) [] st)
    as (I & N & (I' & N' & K)).
  destruct (owner_exited_loop name (pending_connects st) [] st) as [tmp st'].
  cbn [fst snd] in *. unfold frames. cbn [set_pending pending_connects heap].
  repeat split; auto; try apply K.
  intros q Hq. destruct (I q Hq) as [[]|Hl]. exact Hl.
Qed.

Lemma registry_ok_frames (st st' : state) :
  registry_ok st -> frames st st' -> registry_ok st'.
Proof.
  intros (N & U) (I & N' & K). repeat split.
  - auto.
  - intros p q Hp Hq. rewrite !(proj1 (K _)), !(proj2 (K _)). auto.
Qed.

Lemma strcasecmp_sym (s t : string) :
  strcasecmp s t = 0 -> strcasecmp t s = 0.
Proof.
  revert t. induction s as [|c s IH]; intros [|d t]; cbn [strcasecmp]; auto.
  - lia.
  - lia.
  - rewrite (Z.eqb_sym (tolower d)).
    destruct (tolower c =? tolower d); [auto | lia].
Qed.

(** Registering a struct whose pair matches no registered request. *)
Lemma registry_ok_register (st : state) (p : ptr) :
  registry_ok st -> ~ In p (pending_connects st) ->
  (forall q, In q (pending_connects st) ->
     ~ (strcasecmp (bda (heap st q)) (bda (heap st p)) = 0 /\
        strcasecmp (pattern (heap st q)) (pattern (heap st p)) = 0)) ->
  registry_ok (set_pending (g_slist_append (pending_connects st) p) st).
Proof.
  intros (N & U) Hnin Hno.
  unfold registry_ok, g_slist_append. cbn [set_pending pending_connects heap].
  repeat split.
  - apply NoDup_app; [assumption | repeat constructor; simpl; tauto |].
    intros x Hx [<-|[]]. contradiction.
  - intros x y Hx Hy Ha Hb.
    apply in_app_or in Hx as [Hx|[<-|[]]];
      apply in_app_or in Hy as [Hy|[<-|[]]]; auto.
    + exfalso. apply (Hno x Hx). auto.
    + exfalso. apply (Hno y Hy). split; apply strcasecmp_sym; assumption.
Qed.

End RegistryInvariant.

Section RegistrySteps.

Context {sdp : SdpLib}.

Lemma candidate_alloc (st : state) (m : dbus_message) (s : Z)
    (a pat : string) (dev_id : Z) :
  registry_ok st -> find_pending_connect_by_pattern st a pat = None ->
  candidate (snd (alloc (new_pending m s a pat dev_id) st)) (g_new0 st).
Proof.
  intros (N & U) Hfind. unfold candidate, registry_ok, alloc.
  cbn [snd pending_connects heap].
  pose proof (g_new0_fresh st) as F.
  assert (Hold : forall q, In q (pending_connects st) ->
                           Nat.eqb q (g_new0 st) = false).
  { intros q Hq. apply Nat.eqb_neq. intros ->. contradiction. }
  repeat split.
  - assumption.
  - intros x y Hx Hy. rewrite (Hold x Hx), (Hold y Hy). auto.
  - exact F.
  - intros q Hq. rewrite (Hold q Hq), Nat.eqb_refl. cbn [new_pending bda pattern].
    eapply find_pending_from_None; eassumption.
Qed.

Lemma candidate_frames (st st' : state) (p : ptr) :
  candidate st p -> frames st st' -> candidate st' p.
Proof.
  intros (Hok & Hnin & Hno) Hf.
  pose proof (registry_ok_frames _ _ Hok Hf) as Hok'.
  destruct Hf as (I & _ & K).
  split; [exact Hok' | split].
  - intros Hin. apply Hnin. auto.
  - intros q Hq. rewrite !(proj1 (K _)), !(proj2 (K _)). auto.
Qed.

Lemma candidate_register (st : state) (p : ptr) :
  candidate st p ->
  registry_ok (set_pending (g_slist_append (pending_connects st) p) st).
Proof. intros (Hok & Hnin & Hno). now apply registry_ok_register. Qed.

Ltac frm :=
  repeat first
    [ apply pending_connect_remove_frames
    | apply pending_connect_free_frames
    | apply open_notify_frames
    | apply rfcomm_connect_cb_frames
    | apply record_reply_channel_frames
    | fold_snd_frames;
      first [ apply port_open_frames | apply rfcomm_connect_frames
            | apply rfcomm_bind_frames | apply get_record_frames
            | apply get_handles_frames | apply open_continue_frames
            | apply rfcomm_release_frames ]
    | frm_base ].

(** Closes [registry_ok] of a state computed from the candidate state
    [sa]: either nothing was registered, or the candidate was appended
    to a state framed by [sa]. *)
Ltac registry_via sa Hc s1 p :=
  apply registry_ok_frames
    with (st := set_pending (g_slist_append (pending_connects s1) p) s1);
  [ apply candidate_register;
    apply candidate_frames with (st := sa); [exact Hc | frm]
  | frm ].

Ltac registry_leaf sa Hc :=
  first
    [ match goal with
      | |- context [set_pending (g_slist_append (pending_connects ?s1) ?p) ?s1] =>
          registry_via sa Hc s1 p
      | _ : context [set_pending (g_slist_append (pending_connects ?s1) ?p) ?s1]
        |- _ =>
          registry_via sa Hc s1 p
      end
    | apply registry_ok_frames with (st := sa); [ exact (proj1 Hc) | frm ] ].

Lemma connect_service_from_devid_ok (r : sysres) (m : dbus_message)
    (dev_id : Z) (a pat : string) (st : state) :
  registry_ok st ->
  registry_ok (connect_service_from_devid r m dev_id a pat st).
Proof.
  intros Hok. unfold connect_service_from_devid.
  destruct (find_pending_connect_by_pattern st a pat) eqn:Hfind.
  { eapply registry_ok_frames; [exact Hok | apply frames_emit, frames_refl]. }
  destruct (if dev_id <? 0 then None else r_hci_devba r dev_id) as [s|].
  2:{ eapply registry_ok_frames; [exact Hok | apply frames_emit, frames_refl]. }
  pose proof (candidate_alloc st m s a pat dev_id Hok Hfind) as Hc.
  destruct (alloc (new_pending m s a pat dev_id) st) as [p sa] eqn:Ea.
  assert (p = g_new0 st) by (unfold alloc in Ea; congruence). subst p.
  cbn [snd] in Hc. clear Ea.
  repeat break_inner; registry_leaf sa Hc.
Qed.

Lemma create_port_ok (r : sysres) (m : dbus_message)
    (args : option (string * string)) (st : state) :
  registry_ok st -> registry_ok (create_port r m args st).
Proof.
  intros Hok. unfold create_port.
  destruct args as [[a pat]|].
  2:{ eapply registry_ok_frames; [exact Hok | apply frames_emit, frames_refl]. }
  destruct (find_pending_connect_by_pattern st a pat) eqn:Hfind.
  { eapply registry_ok_frames; [exact Hok | apply frames_emit, frames_refl]. }
  cbv zeta.
  destruct (if r_hci_get_route r <? 0 then None
            else r_hci_devba r (r_hci_get_route r)) as [s|].
  2:{ eapply registry_ok_frames; [exact Hok | apply frames_emit, frames_refl]. }
  pose proof (candidate_alloc st m s a pat (r_hci_get_route r) Hok Hfind) as Hc.
  destruct (alloc (new_pending m s a pat (r_hci_get_route r)) st)
    as [p sa] eqn:Ea.
  assert (p = g_new0 st) by (unfold alloc in Ea; congruence). subst p.
  cbn [snd] in Hc. clear Ea.
  repeat break_inner; registry_leaf sa Hc.
Qed.

Lemma step_registry_ok (st st' : state) :
  step st st' -> registry_ok st -> registry_ok st'.
Proof.
  intros Hs Hok. destruct Hs.
  - unfold connect_service. destruct args as [[a pat]|].
    + now apply connect_service_from_devid_ok.
    + eapply registry_ok_frames; [exact Hok | apply frames_emit, frames_refl].
  - now apply connect_service_from_devid_ok.
  - now apply create_port_ok.
  - eapply registry_ok_frames;
      [exact Hok | apply cancel_connect_service_frames, frames_refl].
  - eapply registry_ok_frames;
      [exact Hok | apply handles_reply_frames, frames_refl].
  - eapply registry_ok_frames;
      [exact Hok | apply record_reply_frames, frames_refl].
  - eapply registry_ok_frames;
      [exact Hok | apply rfcomm_connect_cb_frames, frames_refl].
  - eapply registry_ok_frames;
      [exact Hok | apply timeout_dispatch_frames, frames_refl].
  - eapply registry_ok_frames;
      [exact Hok | apply transaction_owner_exited_frames, frames_refl].
Qed.

Lemma reachable_registry_ok (st : state) : reachable st -> registry_ok st.
Proof.
  induction 1 as [st Hnil | st st' _ IH Hs].
  - unfold registry_ok. rewrite Hnil. repeat split.
    + constructor.
    + intros p q [].
  - eapply step_registry_ok; eassumption.
Qed.

Lemma filter_at_most_one (A : Type) (f : A -> bool) (l : list A) :
  NoDup l ->
  (forall x y, In x l -> In y l -> f x = true -> f y = true -> x = y) ->
  (List.length (filter f l) <= 1)%nat.
Proof.
  induction 1 as [|x l Hx Hn IH]; intros Hu; simpl; [lia|].
  destruct (f x) eqn:Fx.
  - assert (E : filter f l = []).
    { destruct (filter f l) as [|y t] eqn:E; [reflexivity|].
      assert (Hy : In y (filter f l)) by (rewrite E; simpl; auto).
      apply filter_In in Hy as [Hy Fy].
      exfalso. apply Hx.
      rewrite (Hu x y); simpl; auto. }
    rewrite E. simpl. lia.
  - apply IH. intros a b Ha Hb. apply Hu; simpl; auto.
Qed.

(** C3.  In every state the manager can reach: a ConnectService or
    CreatePort for the address and pattern of a registered pending
    connection is answered InProgress and [pending_connects] is what it
    was (no second struct is registered); and for any pair at most one
    pending connection is registered. *)
Theorem at_most_one_pending_per_pair (st : state) :
  reachable st ->
  (forall r m dev_id p,
      In p (pending_connects st) ->
      let a := bda (heap st p) in
      let pat := pattern (heap st p) in
      let rejected :=
        emit (EvReply m (ErrInProgress "Connection in progress")) st in
      connect_service_from_devid r m dev_id a pat st = rejected /\
      create_port r m (Some (a, pat)) st = rejected /\
      pending_connects rejected = pending_connects st) /\
  (forall a pat, (List.length (pending_for st a pat) <= 1)%nat).
Proof.
  intros Hr. split.
  - intros r m dev_id p Hin a pat rejected. subst a pat rejected.
    destruct (find_pending_from_match (heap st) _ _ _ p Hin
                (strcasecmp_refl _) (strcasecmp_refl _)) as [q Hq].
    split; [|split].
    + eapply connect_service_from_devid_found. exact Hq.
    + eapply create_port_found. exact Hq.
    + reflexivity.
  - intros a pat. destruct (reachable_registry_ok st Hr) as (N & U).
    apply filter_at_most_one; [assumption|].
    intros x y Hx Hy Fx Fy.
    apply andb_true_iff in Fx as [Fx1 Fx2], Fy as [Fy1 Fy2].
    apply String.eqb_eq in Fx1, Fx2, Fy1, Fy2.
    apply U; auto.
    + rewrite Fx1, Fy1. apply strcasecmp_refl.
    + rewrite Fx2, Fy2. apply strcasecmp_refl.
Qed.

End RegistrySteps.

Lemma at_most_one_pending_per_pair_witness :
  create_port Sample.env Sample.msg1
    (Some ("00:11:22:AA:BB:CC", "spp")) one_pending
  = emit (EvReply Sample.msg1 (ErrInProgress "Connection in progress"))
      one_pending /\
  (List.length (pending_for one_pending "00:11:22:AA:BB:CC" "spp") <= 1)%nat.
Proof.
  assert (Hr : reachable (sdp := Sample.byte_sdp) one_pending).
  { unfold one_pending. apply reachable_step with (st := Sample.init).
    - apply reachable_start. reflexivity.
    - apply step_connect_service_from_adapter. }
  pose proof (at_most_one_pending_per_pair (sdp := Sample.byte_sdp)
                one_pending Hr) as [H1 H2].
  split.
  - refine (proj1 (proj2 (H1 Sample.env Sample.msg1 0 1%nat _))).
    vm_compute. auto.
  - apply H2.
Defined.

(** ** Channel extraction from a fetched record *)

Section RecordReply.

Context {sdp : SdpLib}.

Lemma pending_connect_remove_cleanup (p : ptr) (st : state) :
  rfcomm_devs (pending_connect_remove p st) = rfcomm_devs st /\
  heap (pending_connect_remove p st) = heap st /\
  pending_connects (pending_connect_remove p st)
  = g_slist_remove (pending_connects st) p /\
  exists evs, trace (pending_connect_remove p st) = trace st ++ evs /\
              forallb is_cleanup evs = true.
Proof.
  unfold pending_connect_remove, pending_connect_free. cbv zeta.
  cbn [heap emit set_pending].
  destruct (0 <? io_id (heap st p)); destruct (io (heap st p));
    cbn [emit set_pending rfcomm_devs heap pending_connects trace];
    repeat split; rewrite <- ?app_assoc; eexists; split;
      try reflexivity; reflexivity.
Qed.

(** The failure path: the error reply, then the removal of the request. *)
Lemma reply_and_remove (p : ptr) (st : state) (m : dbus_message)
    (e : dbus_reply) :
  let st' := pending_connect_remove p (emit (EvReply m e) st) in
  rfcomm_devs st' = rfcomm_devs st /\
  pending_connects st' = g_slist_remove (pending_connects st) p /\
  exists evs, new_events st st' = EvReply m e :: evs /\
              forallb is_cleanup evs = true.
Proof.
  cbv zeta.
  destruct (pending_connect_remove_cleanup p (emit (EvReply m e) st))
    as (D & _ & L & evs & T & F).
  split; [exact D | split; [exact L|]].
  exists evs. split; [|exact F].
  apply new_events_app. rewrite T. cbn [emit trace].
  rewrite <- app_assoc. reflexivity.
Qed.

Lemma cleanup_not_device (evs : list event) (e : event) :
  forallb is_cleanup evs = true -> In e evs ->
  is_createdev e = false /\ is_connect e = false /\ is_reply e = false.
Proof.
  intros F H. rewrite forallb_forall in F. specialize (F e H).
  destruct e; try discriminate; auto.
Qed.

(** [record_reply] on a payload either takes the failure path with
    NotSupported, and then one of the failure conditions holds, or goes on
    with a channel in range, and then none does. *)
Lemma record_reply_payload_cases
    (r : sysres) (rec_bin : list Byte.byte) (p : ptr) (st : state) :
  In p (pending_connects st) -> canceled (heap st p) = 0 ->
  (extraction_fails rec_bin /\
   record_reply r (InBytes rec_bin) p st
   = pending_connect_remove p
       (emit (EvReply (msg (heap st p)) ErrNotSupported) st)) \/
  (~ extraction_fails rec_bin /\
   exists rec ch,
     1 <= ch <= 30 /\
     record_reply r (InBytes rec_bin) p st = record_reply_channel r rec ch p st).
Proof.
  intros Hin Hcan. unfold record_reply.
  rewrite (proj2 (g_slist_find_In _ _) Hin), Hcan.
  cbn [negb Z.eqb]. cbv iota zeta.
  destruct (Z.of_nat (List.length rec_bin) =? 0) eqn:Elen.
  { left. split; [|reflexivity]. left.
    apply Z.eqb_eq in Elen. destruct rec_bin; [reflexivity | discriminate]. }
  apply Z.eqb_neq in Elen.
  destruct (sdp_extract_pdu rec_bin) as [[rec scanned]|] eqn:Eext.
  2:{ left. split; [|reflexivity]. right. left. left. exact Eext. }
  destruct (Z.of_nat (List.length rec_bin) =? scanned) eqn:Escan; cbn [negb].
  2:{ left. split; [|reflexivity]. right. left. right.
      exists rec, scanned. split; [exact Eext|].
      apply Z.eqb_neq in Escan. congruence. }
  apply Z.eqb_eq in Escan.
  destruct (sdp_get_access_protos rec) as [protos|] eqn:Eprot.
  2:{ left. split; [|reflexivity]. right. right. left.
      exists rec, scanned. auto. }
  destruct ((sdp_get_proto_port protos RFCOMM_UUID <? 1)
            || (30 <? sdp_get_proto_port protos RFCOMM_UUID)) eqn:Ech.
  { left. split; [|reflexivity]. right. right. right.
    exists rec, scanned, protos. split; [exact Eext | split; [assumption|]].
    apply orb_true_iff in Ech as [E|E]; apply Z.ltb_lt in E; auto. }
  apply orb_false_iff in Ech as [E1 E2]. apply Z.ltb_ge in E1, E2.
  right. split.
  - intros [He | [[Hu | (rec' & sc' & Hu & Hne)]
                 | [(rec' & sc' & Hu & Hn) | (rec' & sc' & pr' & Hu & Hp & Hr)]]].
    + unfold payload_empty in He. subst. simpl in Elen. lia.
    + congruence.
    + rewrite Eext in Hu. injection Hu as <- <-. congruence.
    + rewrite Eext in Hu. injection Hu as <- <-. congruence.
    + rewrite Eext in Hu. injection Hu as <- <-.
      rewrite Eprot in Hp. injection Hp as <-. lia.
  - exists rec, (sdp_get_proto_port protos RFCOMM_UUID).
    split; [lia | reflexivity].
Qed.

(** C5.  For a record-fetch reply carrying a payload, delivered for a
    registered request that is not canceled: NotSupported is replied
    exactly when the payload is empty, does not parse as a record
    (a parse that does not consume the whole payload included), has no
    protocol descriptor list, or gives a channel outside 1..30; and then
    no device is created and no connect is issued. *)
Theorem record_reply_not_supported_iff
    (r : sysres) (rec_bin : list Byte.byte) (p : ptr) (st : state) :
  In p (pending_connects st) -> canceled (heap st p) = 0 ->
  let st' := record_reply r (InBytes rec_bin) p st in
  ((exists m, In (EvReply m ErrNotSupported) (new_events st st'))
   <-> extraction_fails rec_bin) /\
  (extraction_fails rec_bin ->
   In (EvReply (msg (heap st p)) ErrNotSupported) (new_events st st') /\
   rfcomm_devs st' = rfcomm_devs st /\
   forall e, In e (new_events st st') ->
             is_createdev e = false /\ is_connect e = false).
Proof.
  intros Hin Hcan st'. subst st'.
  destruct (record_reply_payload_cases r rec_bin p st Hin Hcan)
    as [[Hf ->] | [Hnf (rec & ch & Hch & ->)]].
  - destruct (reply_and_remove p st (msg (heap st p)) ErrNotSupported)
      as (D & L & evs & T & F). cbv zeta in *.
    rewrite T. split; [split; [auto|] |].
    + intros _. eexists. left. reflexivity.
    + intros _. split; [left; reflexivity | split; [exact D|]].
      intros e [<- | He]; [auto|].
      destruct (cleanup_not_device evs e F He) as (? & ? & ?). auto.
  - split; [split|]; [|contradiction|contradiction].
    intros [m Hm]. exfalso.
    pose proof (record_reply_channel_ext st st r rec ch p (extends_refl _ _))
      as Hext.
    apply extends_new_events in Hext. rewrite forallb_forall in Hext.
    specialize (Hext _ Hm). discriminate.
Qed.

End RecordReply.

Lemma record_reply_not_supported_iff_witness :
  let st := one_pending in
  let st' := record_reply (sdp := Sample.byte_sdp) Sample.env
               (InBytes [Byte.x05; Byte.x00]) 1%nat st in
  In (EvReply Sample.msg0 ErrNotSupported) (new_events st st') /\
  rfcomm_devs st' = rfcomm_devs st.
Proof.
  cbv zeta.
  destruct (record_reply_not_supported_iff (sdp := Sample.byte_sdp)
              Sample.env [Byte.x05; Byte.x00] 1%nat one_pending)
    as [_ H].
  - vm_compute. auto.
  - reflexivity.
  - destruct H as (H1 & H2 & _).
    + right. left. right. exists 5, 1. split; [reflexivity|].
      simpl. discriminate.
    + split; [exact H1 | exact H2].
Defined.

(** ** The device-open retry loop *)

Lemma rfcomm_release_gone (d : Z) (st : state) :
  ~ In (int16 d) (rfcomm_devs (snd (rfcomm_release d st))) /\
  trace (snd (rfcomm_release d st)) = trace st ++ [EvReleaseDev (int16 d)] /\
  heap (snd (rfcomm_release d st)) = heap st /\
  pending_connects (snd (rfcomm_release d st)) = pending_connects st /\
  timeouts (snd (rfcomm_release d st)) = timeouts st.
Proof.
  unfold rfcomm_release. cbv zeta. cbn [emit rfcomm_devs].
  destruct (existsb (Z.eqb (int16 d)) (rfcomm_devs st)) eqn:E; cbn;
    repeat split; auto.
  - intros H. apply filter_In in H as [_ H].
    rewrite Z.eqb_refl in H. discriminate.
  - intros H. assert (existsb (Z.eqb (int16 d)) (rfcomm_devs st) = true).
    { apply existsb_exists. exists (int16 d). split; [assumption|].
      apply Z.eqb_refl. }
    congruence.
Qed.

Lemma g_slist_remove_gone (l : list ptr) (p : ptr) :
  NoDup l -> ~ In p (g_slist_remove l p).
Proof. intros H. now apply g_slist_remove_NoDup. Qed.

Lemma timeouts_pending_connect_remove (p : ptr) (st : state) :
  timeouts (pending_connect_remove p st) = timeouts st.
Proof.
  unfold pending_connect_remove, pending_connect_free. cbv zeta.
  repeat break_inner; reflexivity.
Qed.

(** A tick whose open fails before the bound only counts the attempt. *)
Lemma tick_fail_more (r : sysres) (p : ptr) (st : state) (n d : Z)
    (path : string) :
  opening st p n d path -> open_fails r -> n + 1 < MAX_OPEN_TRIES ->
  opening (timeout_dispatch r p st) p (n + 1) d path /\
  trace (timeout_dispatch r p st) = trace st ++ [EvOpen path] /\
  msg (heap (timeout_dispatch r p st) p) = msg (heap st p) /\
  bda (heap (timeout_dispatch r p st) p) = bda (heap st p) /\
  rfcomm_devs (timeout_dispatch r p st) = rfcomm_devs st.
Proof.
  intros (Hp & Ht & Hn & Hnt & Hc & Hid & Hdev) [e He] Hlt.
  unfold timeout_dispatch, open_continue.
  rewrite (proj2 (g_slist_find_In _ _) Ht), (proj2 (g_slist_find_In _ _) Hp).
  cbn [negb]. rewrite He. cbv zeta. rewrite heap_store_same.
  cbn [emit heap set_ntries ntries]. rewrite Hnt.
  replace (MAX_OPEN_TRIES <=? n + 1) with false
    by (symmetry; apply Z.leb_gt; lia).
  unfold opening, dev_name. rewrite Hdev.
  cbn [store emit pending_connects timeouts heap trace rfcomm_devs].
  rewrite Nat.eqb_refl. cbn. rewrite Hnt. auto 10.
Qed.

(** The tick that reaches the bound reports the failure, releases the
    device and ends the timer. *)
Lemma tick_fail_last (r : sysres) (p : ptr) (st : state) (n d : Z)
    (path : string) (e : positive) :
  opening st p n d path -> r_open r = SysErr e -> MAX_OPEN_TRIES <= n + 1 ->
  let st' := timeout_dispatch r p st in
  ~ In p (timeouts st') /\ ~ In (int16 d) (rfcomm_devs st') /\
  exists evs,
    trace st' = trace st ++
      [ EvOpen path; EvReleaseDev (int16 d);
        EvReply (msg (heap st p)) (ErrConnectionAttemptFailed (Z.pos e)) ] ++ evs /\
    forallb is_cleanup evs = true.
Proof.
  intros (Hp & Ht & Hn & Hnt & Hc & Hid & Hdev) He Hge. cbv zeta.
  unfold timeout_dispatch, open_continue.
  rewrite (proj2 (g_slist_find_In _ _) Ht), (proj2 (g_slist_find_In _ _) Hp).
  cbn [negb]. rewrite He. cbv zeta. rewrite heap_store_same.
  cbn [emit heap set_ntries ntries]. rewrite Hnt.
  replace (MAX_OPEN_TRIES <=? n + 1) with true
    by (symmetry; apply Z.leb_le; lia).
  unfold open_notify. cbv zeta. cbn [negb Z.eqb]. cbv iota.
  rewrite !heap_store_same. cbn [set_ntries id msg emit heap].
  unfold dev_name. rewrite Hdev, Hid.
  match goal with |- context [rfcomm_release d ?s] =>
    destruct (rfcomm_release_gone d s) as (G & T & H & L & TO);
    set (s1 := snd (rfcomm_release d s)) in * end.
  match goal with |- context [pending_connect_remove p ?s] =>
    destruct (pending_connect_remove_cleanup p s) as (D & _ & _ & evs & T2 & F);
    pose proof (timeouts_pending_connect_remove p s) as TO2;
    set (s2 := pending_connect_remove p s) in * end.
  cbn [set_timeouts timeouts rfcomm_devs trace].
  rewrite TO2. cbn [emit timeouts]. rewrite TO.
  cbn [store emit timeouts]. split; [now apply g_slist_remove_gone|].
  rewrite D. cbn [emit rfcomm_devs]. split; [exact G|].
  exists evs. split; [|exact F].
  rewrite T2. cbn [emit trace]. rewrite T. cbn [store emit trace].
  rewrite <- !app_assoc. reflexivity.
Qed.

(** A tick whose open succeeds answers the request with the device path
    and ends the timer. *)
Lemma tick_success (r : sysres) (p : ptr) (st : state) (n d : Z)
    (path : string) (fd : Z) :
  opening st p n d path -> r_open r = SysOk fd ->
  let st' := timeout_dispatch r p st in
  ~ In p (timeouts st') /\ rfcomm_devs st' = rfcomm_devs st /\
  exists evs,
    trace st' = trace st ++
      [ EvOpen path; EvReply (msg (heap st p)) (MethodReturn [path]);
        EvSignal "ServiceConnected" path;
        EvPortAddListener d (bda (heap st p)) fd path
          (msg_sender (msg (heap st p))) ] ++ evs /\
    forallb is_cleanup evs = true.
Proof.
  intros (Hp & Ht & Hn & Hnt & Hc & Hid & Hdev) He. cbv zeta.
  unfold timeout_dispatch, open_continue.
  rewrite (proj2 (g_slist_find_In _ _) Ht), (proj2 (g_slist_find_In _ _) Hp).
  cbn [negb]. rewrite He. cbv zeta.
  unfold open_notify. cbv zeta. cbn [negb Z.eqb emit heap]. cbv iota.
  rewrite Hc. cbn [negb Z.eqb]. cbv iota.
  unfold dev_name. rewrite Hdev, Hid.
  match goal with |- context [pending_connect_remove p ?s] =>
    destruct (pending_connect_remove_cleanup p s) as (D & _ & _ & evs & T2 & F);
    pose proof (timeouts_pending_connect_remove p s) as TO2;
    set (s2 := pending_connect_remove p s) in * end.
  cbn [set_timeouts timeouts rfcomm_devs trace].
  rewrite TO2, D. cbn [emit timeouts rfcomm_devs].
  split; [now apply g_slist_remove_gone | split; [reflexivity|]].
  exists evs. split; [|exact F].
  rewrite T2. cbn [emit trace]. rewrite <- !app_assoc. reflexivity.
Qed.

Lemma run_timer_idle (rs : list sysres) (p : ptr) (st : state) :
  ~ In p (timeouts st) -> run_timer rs p st = st.
Proof.
  intros H. induction rs as [|r rs IH]; [reflexivity|].
  cbn [run_timer]. unfold timeout_dispatch.
  rewrite (g_slist_find_not_In _ _ H). exact IH.
Qed.

Lemma cleanup_filters (evs : list event) :
  forallb is_cleanup evs = true ->
  filter is_open evs = [] /\ filter is_reply evs = [] /\
  filter is_timeout_add evs = [].
Proof.
  induction evs as [|e evs IH]; [auto|]. cbn [forallb]. intros H.
  apply andb_true_iff in H as [He H]. destruct (IH H) as (I1 & I2 & I3).
  destruct e; try discriminate; cbn; auto.
Qed.

Lemma repeat_open_filters (path : string) (k : nat) :
  filter is_open (repeat (EvOpen path) k) = repeat (EvOpen path) k /\
  filter is_reply (repeat (EvOpen path) k) = [] /\
  filter is_timeout_add (repeat (EvOpen path) k) = [].
Proof.
  induction k as [|k (I1 & I2 & I3)]; cbn; [auto|]. rewrite I1. auto.
Qed.

Section OpenLoop.

Variables (p : ptr) (d : Z) (path : string).

(** However the opens turn out, the timer opens the node at most
    [MAX_OPEN_TRIES - n] more times and arms no further timer. *)
Lemma run_timer_bound (rs : list sysres) :
  forall (st : state) (n : Z),
    opening st p n d path -> 0 <= n < MAX_OPEN_TRIES ->
    exists evs,
      trace (run_timer rs p st) = trace st ++ evs /\
      (count_opens evs <= Z.to_nat (MAX_OPEN_TRIES - n))%nat /\
      filter is_timeout_add evs = [].
Proof.
  unfold count_opens.
  induction rs as [|r rs IH]; intros st n Hop Hn; cbn [run_timer].
  - exists []. rewrite app_nil_r. cbn [filter List.length].
    repeat split; lia.
  - destruct (r_open r) as [fd|e] eqn:Er.
    + destruct (tick_success r p st n d path fd Hop Er)
        as (Hgone & _ & evs & T & F).
      rewrite (run_timer_idle rs p _ Hgone). eexists. split; [exact T|].
      destruct (cleanup_filters evs F) as (C1 & C2 & C3).
      rewrite !filter_app, C1, C3.
      cbn [filter is_open is_timeout_add app List.length].
      unfold MAX_OPEN_TRIES in *. split; [lia | reflexivity].
    + destruct (Z_lt_ge_dec (n + 1) MAX_OPEN_TRIES) as [Hlt|Hge].
      * destruct (tick_fail_more r p st n d path Hop
                    (ex_intro _ e Er) Hlt) as (Hop' & T & _).
        destruct (IH _ (n + 1) Hop') as (evs & T' & Hc & Ht); [lia|].
        exists (EvOpen path :: evs). split; [|split].
        -- rewrite T', T, <- app_assoc. reflexivity.
        -- cbn [filter is_open List.length]. unfold MAX_OPEN_TRIES in *. lia.
        -- cbn [filter is_timeout_add]. exact Ht.
      * destruct (tick_fail_last r p st n d path e Hop Er)
          as (Hgone & _ & evs & T & F); [lia|].
        rewrite (run_timer_idle rs p _ Hgone). eexists. split; [exact T|].
        destruct (cleanup_filters evs F) as (C1 & C2 & C3).
        rewrite !filter_app, C1, C3.
      cbn [filter is_open is_timeout_add app List.length].
      unfold MAX_OPEN_TRIES in *. split; [lia | reflexivity].
Qed.

(** Every open fails until the bound is reached. *)
Lemma run_timer_all_fail (rs : list sysres) :
  forall (st : state) (n : Z) (r_last : sysres),
    opening st p n d path -> 0 <= n ->
    Forall open_fails (rs ++ [r_last]) ->
    n + Z.of_nat (List.length rs) + 1 = MAX_OPEN_TRIES ->
    let st' := run_timer (rs ++ [r_last]) p st in
    exists e evs,
      r_open r_last = SysErr e /\
      trace st' = trace st ++ repeat (EvOpen path) (List.length rs) ++
        [ EvOpen path; EvReleaseDev (int16 d);
          EvReply (msg (heap st p)) (ErrConnectionAttemptFailed (Z.pos e)) ]
        ++ evs /\
      forallb is_cleanup evs = true /\
      ~ In p (timeouts st') /\ ~ In (int16 d) (rfcomm_devs st').
Proof.
  induction rs as [|r rs IH]; intros st n r_last Hop Hn Hall Hlen;
    cbn [run_timer app List.length repeat] in *.
  - apply Forall_inv in Hall. destruct Hall as [e He].
    destruct (tick_fail_last r_last p st n d path e Hop He)
      as (Hgone & Hrel & evs & T & F); [lia|].
    exists e, evs. auto.
  - pose proof (Forall_inv Hall) as Hr. apply Forall_inv_tail in Hall.
    destruct (tick_fail_more r p st n d path Hop Hr) as (Hop' & T & Hm & _);
      [lia|].
    destruct (IH _ (n + 1) r_last Hop') as (e & evs & He & T' & F & G1 & G2);
      [lia | assumption | lia |].
    exists e, evs. rewrite Hm in T'. repeat split; auto.
    rewrite T', T, <- app_assoc. reflexivity.
Qed.

(** The node appears after some failed timer attempts, before the bound. *)
Lemma run_timer_success (fails : list sysres) :
  forall (st : state) (n : Z) (r_ok : sysres) (rest : list sysres) (fd : Z),
    opening st p n d path -> 0 <= n ->
    Forall open_fails fails ->
    n + Z.of_nat (List.length fails) < MAX_OPEN_TRIES ->
    r_open r_ok = SysOk fd ->
    let st' := run_timer (fails ++ r_ok :: rest) p st in
    exists evs,
      trace st' = trace st ++ repeat (EvOpen path) (List.length fails) ++
        [ EvOpen path; EvReply (msg (heap st p)) (MethodReturn [path]);
          EvSignal "ServiceConnected" path;
          EvPortAddListener d (bda (heap st p)) fd path
            (msg_sender (msg (heap st p))) ] ++ evs /\
      forallb is_cleanup evs = true /\
      ~ In p (timeouts st') /\ rfcomm_devs st' = rfcomm_devs st.
Proof.
  induction fails as [|r fails IH]; intros st n r_ok rest fd Hop Hn Hall Hlen Hok;
    cbn [run_timer app List.length repeat] in *.
  - destruct (tick_success r_ok p st n d path fd Hop Hok)
      as (Hgone & Hdev & evs & T & F).
    rewrite (run_timer_idle rest p _ Hgone). exists evs. auto.
  - pose proof (Forall_inv Hall) as Hr. apply Forall_inv_tail in Hall.
    destruct (tick_fail_more r p st n d path Hop Hr)
      as (Hop' & T & Hm & Hb & Hdevs); [lia|].
    destruct (IH _ (n + 1) r_ok rest fd Hop')
      as (evs & T' & F & G1 & G2); [lia | assumption | lia | assumption |].
    exists evs. rewrite Hm, Hb in T'. repeat split; auto.
    + rewrite T', T, <- app_assoc. reflexivity.
    + congruence.
Qed.

End OpenLoop.

(** ** From the connect completion to the end of the open phase *)

Section OpenRetry.

Variables (r0 : sysres) (chan cond : Z) (p : ptr) (st0 : state) (d : Z).

(** The connect of the registered, live request [p] completes without
    error, the kernel creates device [d], and no open timer of [p] is
    armed yet. *)
Hypothesis Hpending : In p (pending_connects st0).
Hypothesis Hlive : canceled (heap st0 p) = 0.
Hypothesis Hfresh : ntries (heap st0 p) = 0.
Hypothesis Hcond : Z.land cond G_IO_NVAL = 0.
Hypothesis Hconn : r_getsockopt r0 = SysOk 0.
Hypothesis Hdev : r_createdev r0 = SysOk d.
Hypothesis Htimers : NoDup (timeouts st0) /\ ~ In p (timeouts st0).

Let path : string := snprintf 16 ("/dev/rfcomm" ++ fmt_d d).
Let st1 : state := rfcomm_connect_cb r0 chan cond p st0.
Let created : event :=
  EvCreateDev (Some chan) (src (heap st0 p)) (bda (heap st0 p))
    (channel (heap st0 p)) d.

Lemma connect_cb_open_pending :
  open_fails r0 ->
  opening st1 p 0 d path /\
  trace st1 = trace st0 ++ [created; EvOpen path; EvTimeoutAdd OPEN_WAIT p] /\
  msg (heap st1 p) = msg (heap st0 p) /\
  bda (heap st1 p) = bda (heap st0 p).
Proof.
  intros [e He]. subst st1 created path. unfold rfcomm_connect_cb, port_open.
  rewrite Hlive, Hcond, Hconn, Hdev. cbn [negb Z.eqb]. cbv iota zeta.
  rewrite He. cbv iota zeta.
  replace (- EINPROGRESS <? 0) with true by reflexivity. cbv iota.
  unfold opening, dev_name.
  cbn [store emit set_devs set_timeouts pending_connects timeouts heap trace].
  rewrite !Nat.eqb_refl. cbn [set_dev set_id dev id ntries canceled msg bda].
  destruct Htimers as [Hn Hnin]. unfold g_slist_append.
  repeat split; auto.
  - apply in_or_app. right. simpl. auto.
  - apply NoDup_app; [assumption | repeat constructor; simpl; tauto |].
    intros x Hx [<-|[]]. contradiction.
  - rewrite <- !app_assoc. reflexivity.
Qed.

Lemma connect_cb_open_now (fd : Z) :
  r_open r0 = SysOk fd -> 0 <= fd ->
  ~ In p (timeouts st1) /\
  exists evs,
    trace st1 = trace st0 ++
      [ created; EvOpen path;
        EvReply (msg (heap st0 p)) (MethodReturn [path]);
        EvSignal "ServiceConnected" path;
        EvPortAddListener d (bda (heap st0 p)) fd path
          (msg_sender (msg (heap st0 p))) ] ++ evs /\
    forallb is_cleanup evs = true.
Proof.
  intros He Hfd. subst st1 created path. unfold rfcomm_connect_cb, port_open.
  rewrite Hlive, Hcond, Hconn, Hdev. cbn [negb Z.eqb]. cbv iota zeta.
  rewrite He. cbv iota zeta.
  replace (fd <? 0) with false by (symmetry; apply Z.ltb_ge; lia).
  unfold open_notify. cbv zeta. cbn [negb Z.eqb]. cbv iota.
  unfold dev_name.
  cbn [store emit set_devs heap]. rewrite !Nat.eqb_refl.
  cbn [set_dev set_id dev id canceled msg bda]. rewrite Hlive.
  cbn [negb Z.eqb]. cbv iota.
  match goal with |- context [pending_connect_remove p ?s] =>
    destruct (pending_connect_remove_cleanup p s) as (_ & _ & _ & evs & T2 & F);
    pose proof (timeouts_pending_connect_remove p s) as TO2;
    set (s2 := pending_connect_remove p s) in * end.
  rewrite TO2. cbn [emit timeouts store set_devs].
  split; [apply Htimers|].
  exists evs. split; [|exact F].
  rewrite T2. cbn [emit trace store set_devs]. rewrite <- !app_assoc.
  reflexivity.
Qed.

(** An open that "succeeds" with a negative descriptor, which open(2)
    does not return, is taken for a failure by the caller alone: nothing
    follows it. *)
Lemma connect_cb_open_negative (fd : Z) :
  r_open r0 = SysOk fd -> fd < 0 ->
  ~ In p (timeouts st1) /\ trace st1 = trace st0 ++ [created; EvOpen path].
Proof.
  intros He Hfd. subst st1 created path. unfold rfcomm_connect_cb, port_open.
  rewrite Hlive, Hcond, Hconn, Hdev. cbn [negb Z.eqb]. cbv iota zeta.
  rewrite He. cbv iota zeta.
  replace (fd <? 0) with true by (symmetry; apply Z.ltb_lt; lia).
  unfold dev_name.
  cbn [store emit set_devs heap timeouts trace]. rewrite !Nat.eqb_refl.
  cbn [set_dev set_id dev]. split; [apply Htimers|].
  rewrite <- !app_assoc. reflexivity.
Qed.

(** The open phase as the code runs it.  After the connect completes and
    the device is bound, the device node is opened once at once and then
    from a timer of [OPEN_WAIT] = 300 ms, at most [MAX_OPEN_TRIES] = 5
    times: six opens at most.  If all six fail, the only reply is the failure
    with the errno of the last open and the device is released; if one of
    them succeeds, after up to five failures, the only reply is the
    method return with the device path. *)
Theorem open_retry_loop :
  (forall rs,
      let evs := new_events st0 (run_timer rs p st1) in
      (count_opens evs <= 1 + Z.to_nat MAX_OPEN_TRIES)%nat /\
      forall e, In e evs -> is_timeout_add e = true ->
                e = EvTimeoutAdd OPEN_WAIT p) /\
  (forall rs r_last,
      Forall open_fails (r0 :: rs ++ [r_last]) ->
      List.length rs = 4%nat ->
      let st' := run_timer (rs ++ [r_last]) p st1 in
      exists e,
        r_open r_last = SysErr e /\
        count_opens (new_events st0 st') = 6%nat /\
        filter is_reply (new_events st0 st')
        = [EvReply (msg (heap st0 p)) (ErrConnectionAttemptFailed (Z.pos e))] /\
        In (EvReleaseDev (int16 d)) (new_events st0 st') /\
        ~ In (int16 d) (rfcomm_devs st')) /\
  (forall fails r_ok rest rs fd,
      r0 :: rs = fails ++ r_ok :: rest ->
      Forall open_fails fails -> (List.length fails <= 5)%nat ->
      r_open r_ok = SysOk fd -> 0 <= fd ->
      let st' := run_timer rs p st1 in
      count_opens (new_events st0 st') = S (List.length fails) /\
      filter is_reply (new_events st0 st')
      = [EvReply (msg (heap st0 p)) (MethodReturn [path])]).
Proof.
  split; [|split].
  - intros rs evs. subst evs.
    destruct (r_open r0) as [fd|e] eqn:E0.
    + destruct (Z_lt_ge_dec fd 0) as [Hneg|Hpos].
      * destruct (connect_cb_open_negative fd E0 Hneg) as (Hgone & T).
        rewrite (run_timer_idle rs p _ Hgone), (new_events_app _ _ _ T).
        split; [cbn; lia|]. intros e [<-|[<-|[]]]; discriminate.
      * destruct (connect_cb_open_now fd E0) as (Hgone & evs & T & F); [lia|].
        rewrite (run_timer_idle rs p _ Hgone), (new_events_app _ _ _ T).
        destruct (cleanup_filters evs F) as (C1 & _ & C3). split.
        -- unfold count_opens. rewrite filter_app, C1. cbn. lia.
        -- intros e He Ht. exfalso.
           assert (Hin : In e (filter is_timeout_add
                                 ([created; EvOpen path;
                                   EvReply (msg (heap st0 p)) (MethodReturn [path]);
                                   EvSignal "ServiceConnected" path;
                                   EvPortAddListener d (bda (heap st0 p)) fd path
                                     (msg_sender (msg (heap st0 p)))] ++ evs)))
             by (apply filter_In; auto).
           rewrite filter_app, C3 in Hin. cbn in Hin. exact Hin.
    + destruct (connect_cb_open_pending (ex_intro _ e E0)) as (Hop & T & _).
      destruct (run_timer_bound p d path rs st1 0 Hop) as (evs & T' & Hc & Ht).
      { unfold MAX_OPEN_TRIES. lia. }
      erewrite new_events_app.
      2:{ rewrite T', T, <- app_assoc. reflexivity. }
      split.
      * unfold count_opens in *. rewrite filter_app.
        cbn [filter is_open created app List.length].
        unfold MAX_OPEN_TRIES in *. cbn in Hc |- *. lia.
      * intros e' He' Hta.
        assert (Hin : In e' (filter is_timeout_add
                  ([created; EvOpen path; EvTimeoutAdd OPEN_WAIT p] ++ evs)))
          by (apply filter_In; auto).
        rewrite filter_app, Ht in Hin. cbn in Hin.
        destruct Hin as [<-|[]]. reflexivity.
  - intros rs r_last Hall Hlen st'. subst st'.
    pose proof (Forall_inv Hall) as H0. apply Forall_inv_tail in Hall.
    destruct (connect_cb_open_pending H0) as (Hop & T & Hm & _).
    destruct (run_timer_all_fail p d path rs st1 0 r_last Hop)
      as (e & evs & He & T' & F & Hgone & Hrel);
      [lia | assumption | rewrite Hlen; reflexivity |].
    exists e. split; [exact He|].
    destruct (cleanup_filters evs F) as (C1 & C2 & _).
    destruct (repeat_open_filters path (List.length rs)) as (R1 & R2 & _).
    erewrite new_events_app.
    2:{ rewrite T', T, Hm, <- app_assoc. reflexivity. }
    repeat split.
    + unfold count_opens. rewrite !filter_app, R1, C1.
      cbn [filter is_open created app List.length].
      rewrite length_app, repeat_length, Hlen. reflexivity.
    + rewrite !filter_app, R2, C2. reflexivity.
    + apply in_or_app. right. apply in_or_app. right.
      apply in_or_app. left. simpl. auto.
    + exact Hrel.
  - intros fails r_ok rest rs fd Heq Hall Hlen Hok Hfd st'. subst st'.
    destruct fails as [|f fails]; cbn [app] in Heq; injection Heq as <- ->.
    + destruct (connect_cb_open_now fd Hok Hfd) as (Hgone & evs & T & F).
      rewrite (run_timer_idle rest p _ Hgone), (new_events_app _ _ _ T).
      destruct (cleanup_filters evs F) as (C1 & C2 & _).
      unfold count_opens. rewrite !filter_app, C1, C2. split; reflexivity.
    + pose proof (Forall_inv Hall) as H0. apply Forall_inv_tail in Hall.
      destruct (connect_cb_open_pending H0) as (Hop & T & Hm & Hb).
      destruct (run_timer_success p d path fails st1 0 r_ok rest fd Hop)
        as (evs & T' & F & _); [lia | assumption | | assumption |].
      { unfold MAX_OPEN_TRIES. cbn [List.length] in Hlen. lia. }
      destruct (cleanup_filters evs F) as (C1 & C2 & _).
      destruct (repeat_open_filters path (List.length fails)) as (R1 & R2 & _).
      erewrite new_events_app.
      2:{ rewrite T', T, Hm, Hb, <- app_assoc. reflexivity. }
      split.
      * unfold count_opens. rewrite !filter_app, R1, C1.
        cbn [filter is_open created app List.length].
        rewrite length_app, repeat_length. cbn [List.length]. lia.
      * rewrite !filter_app, R2, C2. reflexivity.
Qed.

End OpenRetry.

(** C4.  The bound of five opens in total is exceeded by one: the open
    of [port_open] is not counted in [ntries].  When the node never
    appears the device path is opened six times before the failure is
    reported, and a node that appears only for the sixth open is still
    opened successfully. *)
Lemma device_opened_six_times :
  let st1 := rfcomm_connect_cb Sample.env_noent 7 G_IO_OUT 1%nat connecting in
  let never := run_timer (repeat Sample.env_noent 5) 1%nat st1 in
  let sixth := run_timer (repeat Sample.env_noent 4 ++ [Sample.env]) 1%nat st1 in
  (count_opens (new_events connecting never) = 6%nat /\
   filter is_reply (new_events connecting never)
   = [EvReply Sample.msg0 (ErrConnectionAttemptFailed 2)]) /\
  (count_opens (new_events connecting sixth) = 6%nat /\
   filter is_reply (new_events connecting sixth)
   = [EvReply Sample.msg0 (MethodReturn ["/dev/rfcomm0"])]).
Proof. vm_compute. auto. Qed.

Lemma open_retry_loop_witness :
  let st1 := rfcomm_connect_cb Sample.env_noent 7 G_IO_OUT 1%nat connecting in
  let st' := run_timer [Sample.env_noent; Sample.env] 1%nat st1 in
  count_opens (new_events connecting st') = 3%nat /\
  filter is_reply (new_events connecting st')
  = [EvReply Sample.msg0 (MethodReturn ["/dev/rfcomm0"])].
Proof.
  refine (proj2 (proj2 (open_retry_loop Sample.env_noent 7 G_IO_OUT 1%nat
                          connecting 0 _ _ _ _ _ _ _))
            [Sample.env_noent; Sample.env_noent] Sample.env []
            [Sample.env_noent; Sample.env] 9 _ _ _ _ _).
  - vm_compute. auto.
  - reflexivity.
  - reflexivity.
  - reflexivity.
  - reflexivity.
  - reflexivity.
  - split; [constructor | simpl; tauto].
  - reflexivity.
  - repeat constructor; exists 2%positive; reflexivity.
  - simpl. lia.
  - reflexivity.
  - lia.
Defined.

(** ** Cancellation *)

Section Cancellation.

Context {sdp : SdpLib}.

Variables (r : sysres) (p : ptr) (st : state).

(** The registered request [p] has its cancellation flag set. *)
Hypothesis Hpending : In p (pending_connects st).
Hypothesis Hcanceled : canceled (heap st p) <> 0.

Let canceled_reply : event :=
  EvReply (msg (heap st p)) (ErrCanceled "Connection canceled").

Lemma canceled_flag : negb (canceled (heap st p) =? 0) = true.
Proof. apply negb_true_iff, Z.eqb_neq. exact Hcanceled. Qed.

(** The short circuit before any device exists: the canceled reply, then
    the removal of the request. *)
Lemma reply_canceled_and_remove (st' : state) :
  st' = pending_connect_remove p (emit canceled_reply st) ->
  filter is_reply (new_events st st') = [canceled_reply] /\
  filter is_createdev (new_events st st') = [] /\
  rfcomm_devs st' = rfcomm_devs st.
Proof.
  intros ->.
  destruct (reply_and_remove p st (msg (heap st p))
              (ErrCanceled "Connection canceled")) as (D & _ & evs & T & F).
  cbv zeta in *. subst canceled_reply. rewrite T. cbn [filter is_reply is_createdev].
  assert (C : filter is_reply evs = [] /\ filter is_createdev evs = []).
  { clear T. induction evs as [|e evs IH]; [auto|]. cbn [forallb] in F.
    apply andb_true_iff in F as [Fe F]. destruct (IH F) as [I1 I2].
    destruct e; try discriminate; cbn; auto. }
  destruct C as [-> ->]. auto.
Qed.

(** Cancellation as the code handles it.  When the cancellation flag of
    a registered request is set, a handle-lookup reply, a record-fetch reply and the
    connect completion are answered with the canceled error and nothing
    else, and bind no device; an open that succeeds from the timer is
    answered with the canceled error instead of the device path, after
    the device is released.  The open that exhausts the retries is the
    exception: its only reply is the connection failure with the errno;
    the device is released there too. *)
Theorem cancellation_short_circuits :
  (forall reply,
      let st' := handles_reply r reply p st in
      filter is_reply (new_events st st') = [canceled_reply] /\
      filter is_createdev (new_events st st') = [] /\
      rfcomm_devs st' = rfcomm_devs st) /\
  (forall reply,
      let st' := record_reply r reply p st in
      filter is_reply (new_events st st') = [canceled_reply] /\
      filter is_createdev (new_events st st') = [] /\
      rfcomm_devs st' = rfcomm_devs st) /\
  (forall chan cond,
      let st' := rfcomm_connect_cb r chan cond p st in
      filter is_reply (new_events st st') = [canceled_reply] /\
      filter is_createdev (new_events st st') = [] /\
      rfcomm_devs st' = rfcomm_devs st) /\
  (forall fd,
      In p (timeouts st) -> r_open r = SysOk fd ->
      let st' := timeout_dispatch r p st in
      filter is_reply (new_events st st') = [canceled_reply] /\
      In (EvReleaseDev (int16 (id (heap st p)))) (new_events st st') /\
      ~ In (int16 (id (heap st p))) (rfcomm_devs st')) /\
  (forall e,
      In p (timeouts st) -> r_open r = SysErr e ->
      MAX_OPEN_TRIES <= ntries (heap st p) + 1 ->
      let st' := timeout_dispatch r p st in
      filter is_reply (new_events st st')
      = [EvReply (msg (heap st p)) (ErrConnectionAttemptFailed (Z.pos e))] /\
      In (EvReleaseDev (int16 (id (heap st p)))) (new_events st st') /\
      ~ In (int16 (id (heap st p))) (rfcomm_devs st')).
Proof.
  pose proof canceled_flag as Hc.
  pose proof (proj2 (g_slist_find_In _ _) Hpending) as Hfind.
  split; [|split; [|split; [|split]]].
  - intros reply st'. subst st'. apply reply_canceled_and_remove.
    unfold handles_reply. rewrite Hfind, Hc. reflexivity.
  - intros reply st'. subst st'. apply reply_canceled_and_remove.
    unfold record_reply. rewrite Hfind, Hc. reflexivity.
  - intros chan cond st'. subst st'. apply reply_canceled_and_remove.
    unfold rfcomm_connect_cb. rewrite Hc. reflexivity.
  - intros fd Ht He st'. subst st'.
    unfold timeout_dispatch, open_continue.
    rewrite (proj2 (g_slist_find_In _ _) Ht), Hfind, He. cbn [negb]. cbv zeta.
    unfold open_notify. cbv zeta. cbn [negb Z.eqb emit heap]. cbv iota.
    rewrite Hc.
    match goal with |- context [rfcomm_release ?i ?s] =>
      destruct (rfcomm_release_gone i s) as (G & T & H & L & TO);
      set (s1 := snd (rfcomm_release i s)) in * end.
    match goal with |- context [pending_connect_remove p ?s] =>
      destruct (pending_connect_remove_cleanup p s) as (D & _ & _ & evs & T2 & F);
      set (s2 := pending_connect_remove p s) in * end.
    destruct (cleanup_filters evs F) as (_ & C2 & _).
    cbn [set_timeouts rfcomm_devs trace]. rewrite D. cbn [emit rfcomm_devs].
    erewrite new_events_app.
    2:{ cbn [set_timeouts trace]. rewrite T2. cbn [emit trace]. rewrite T.
        cbn [emit trace]. rewrite <- !app_assoc. reflexivity. }
    rewrite !filter_app, C2. cbn [filter is_reply app].
    split; [reflexivity | split; [|exact G]].
    simpl. auto.
  - intros e Ht He Hmax st'. subst st'.
    unfold timeout_dispatch, open_continue.
    rewrite (proj2 (g_slist_find_In _ _) Ht), Hfind, He. cbn [negb]. cbv zeta.
    rewrite heap_store_same. cbn [emit heap set_ntries ntries].
    replace (MAX_OPEN_TRIES <=? ntries (heap st p) + 1) with true
      by (symmetry; apply Z.leb_le; lia).
    unfold open_notify. cbv zeta. cbn [negb Z.eqb]. cbv iota.
    rewrite !heap_store_same. cbn [set_ntries id msg emit heap].
    match goal with |- context [rfcomm_release ?i ?s] =>
      destruct (rfcomm_release_gone i s) as (G & T & H & L & TO);
      set (s1 := snd (rfcomm_release i s)) in * end.
    match goal with |- context [pending_connect_remove p ?s] =>
      destruct (pending_connect_remove_cleanup p s) as (D & _ & _ & evs & T2 & F);
      set (s2 := pending_connect_remove p s) in * end.
    destruct (cleanup_filters evs F) as (_ & C2 & _).
    cbn [set_timeouts rfcomm_devs trace]. rewrite D. cbn [emit rfcomm_devs].
    erewrite new_events_app.
    2:{ cbn [set_timeouts trace]. rewrite T2. cbn [emit trace]. rewrite T.
        cbn [store emit trace]. rewrite <- !app_assoc. reflexivity. }
    rewrite !filter_app, C2. cbn [filter is_reply app].
    split; [reflexivity | split; [|exact G]].
    simpl. auto.
Qed.

End Cancellation.

(** C6.  The canceled reply is missed when the open phase of a canceled
    request ends on the retry bound: [open_notify] returns on [err]
    before it looks at the flag, and the requester is told the connection
    attempt failed, not that it was canceled. *)
Lemma canceled_open_failure_reported_as_failure :
  canceled (heap canceled_opening 1%nat) = 1 /\
  filter is_reply
    (new_events canceled_opening
       (run_timer (repeat Sample.env_noent 5) 1%nat canceled_opening))
  = [EvReply Sample.msg0 (ErrConnectionAttemptFailed 2)].
Proof. vm_compute. auto. Qed.

Lemma cancellation_short_circuits_witness :
  let st' := timeout_dispatch Sample.env 1%nat canceled_opening in
  filter is_reply (new_events canceled_opening st')
  = [EvReply Sample.msg0 (ErrCanceled "Connection canceled")] /\
  In (EvReleaseDev 0) (new_events canceled_opening st') /\
  ~ In 0 (rfcomm_devs st').
Proof.
  refine (proj1 (proj2 (proj2 (proj2
            (cancellation_short_circuits (sdp := Sample.byte_sdp)
               Sample.env 1%nat canceled_opening _ _)))) 9 _ _).
  - vm_compute. auto.
  - vm_compute. discriminate.
  - vm_compute. auto.
  - reflexivity.
Defined.

(** ** The proxy: accept events *)

Module ProxyFacts.
Import Proxy ProxySpec.

(** None of the three ways to reach the local side registers a watch. *)
Lemma local_connect_no_watch (r : accept_res) (prx : proxy) (lsk : Z)
    (evs : list pevent) :
  local_connect r prx = Some (lsk, evs) -> forallb (fun e => negb (is_add_watch e)) evs = true.
Proof.
  unfold local_connect, unix_socket_connect, tty_open, tcp_socket_connect.
  intros H.
  repeat match type of H with
  | context [match ?x with _ => _ end] => destruct x
  end; try discriminate; injection H as <- <-; reflexivity.
Qed.

(** C8.  On an accept event (no error condition on the listening
    socket, accept succeeds) whose local open or connect fails, the
    accepted connection is closed and the callback returns TRUE, which
    keeps the listen watch; the proxy is as before except for the
    recorded peer address: its listen watch, its forwarding watches and
    the identifier of its published record are untouched, and no watch is
    registered. *)
Theorem accept_with_failed_local_open (r : accept_res) (chan cond : Z)
    (prx : proxy) (rsk lsk : Z) (evs : list pevent) :
  Z.land cond G_IO_NVAL = 0 ->
  Z.land cond (Z.lor G_IO_ERR G_IO_HUP) = 0 ->
  a_accept r = SysOk rsk ->
  local_connect r (set_dst (a_peer r) prx) = Some (lsk, evs) -> lsk < 0 ->
  exists prx',
    connect_event r chan cond prx = Some (true, prx', evs ++ [PClose rsk]) /\
    listen_watch prx' = listen_watch prx /\
    rfcomm_watch prx' = rfcomm_watch prx /\
    local_watch prx' = local_watch prx /\
    record_id prx' = record_id prx /\
    forallb (fun e => negb (is_add_watch e)) (evs ++ [PClose rsk]) = true.
Proof.
  intros Hn He Ha Hl Hneg. exists (set_dst (a_peer r) prx).
  unfold connect_event. rewrite Hn, He, Ha. cbn [negb Z.eqb]. cbv iota zeta.
  rewrite Hl.
  replace (lsk <? 0) with true by (symmetry; apply Z.ltb_lt; lia).
  repeat split.
  rewrite forallb_app, (local_connect_no_watch _ _ _ _ Hl). reflexivity.
Qed.

Lemma accept_with_failed_local_open_witness :
  exists prx',
    connect_event busy_tty 10 1 tty_proxy
    = Some (true, prx', [POpen "/dev/ttyS0"; PClose 12]) /\
    listen_watch prx' = 11 /\ rfcomm_watch prx' = 0 /\
    local_watch prx' = 0 /\ record_id prx' = 65540.
Proof.
  destruct (accept_with_failed_local_open busy_tty 10 1 tty_proxy 12 (-16)
              [POpen "/dev/ttyS0"])
    as (prx' & H1 & H2 & H3 & H4 & H5 & _).
  - reflexivity.
  - reflexivity.
  - reflexivity.
  - reflexivity.
  - lia.
  - exists prx'. auto.
Defined.

End ProxyFacts.

(** ** The proxy: serial parameters *)

Module SerialParams.
Import Proxy ProxySpec.

Lemma str2speed_known (rate : string) :
  In rate rate_names -> str2speed rate <> B0.
Proof.
  unfold rate_names, supported_speed. cbn [map fst In].
  intros H.
  repeat (destruct H as [<- | H]; [vm_compute; discriminate|]).
  contradiction.
Qed.

(** A rate that [str2speed] finds is in the table. *)
Lemma str2speed_found (rate : string) :
  c_string rate -> str2speed rate <> B0 -> In rate rate_names.
Proof.
  intros Hc. unfold str2speed, rate_names.
  assert (Hn : Forall c_string (map fst supported_speed))
    by (repeat constructor; vm_compute; intuition discriminate).
  revert Hn. generalize supported_speed.
  induction l as [|[s v] l IH]; cbn [str2speed_from map fst];
    intros Hn H; [contradiction|].
  inversion Hn as [|x y Hs Hl]; subst.
  destruct (strcmp s rate =? 0) eqn:E.
  - left. apply Z.eqb_eq in E. now apply strcmp_eq.
  - right. now apply IH.
Qed.

Lemma set_parity_known (parity : string) (ctrl : Z) :
  (exists name, In name parity_names /\ case_variant name parity) ->
  exists c, set_parity parity ctrl = Some c.
Proof.
  intros (name & Hin & Hcv).
  apply case_variant_lower, strcasecmp_lower in Hcv.
  unfold set_parity, parity_names in *. cbn [In] in Hin.
  repeat (destruct Hin as [<- | Hin];
          [rewrite Hcv; cbn [Z.eqb orb]; rewrite ?orb_true_r;
           repeat match goal with
                  | |- context [if ?b then _ else _] => destruct b
                  end; eexists; reflexivity|]).
  contradiction.
Qed.

(** A parity that [set_parity] takes is one of the five names in some
    letter case. *)
Lemma set_parity_found (parity : string) (ctrl c : Z) :
  c_string parity -> set_parity parity ctrl = Some c ->
  exists name, In name parity_names /\ case_variant name parity.
Proof.
  intros Hc. unfold set_parity, parity_names.
  assert (Hcv : forall name, c_string name ->
            (strcasecmp name parity =? 0) = true -> case_variant name parity).
  { intros name Hn E. apply Z.eqb_eq in E.
    now apply strcasecmp_case_variant. }
  destruct (strcasecmp "even" parity =? 0) eqn:E1;
    [intros _; exists "even"; split;
     [simpl; auto | apply Hcv; [vm_compute; intuition discriminate | exact E1]]|].
  destruct (strcasecmp "odd" parity =? 0) eqn:E2;
    [intros _; exists "odd"; split;
     [simpl; auto | apply Hcv; [vm_compute; intuition discriminate | exact E2]]|].
  destruct (strcasecmp "mark" parity =? 0) eqn:E3;
    [intros _; exists "mark"; split;
     [simpl; auto | apply Hcv; [vm_compute; intuition discriminate | exact E3]]|].
  destruct (strcasecmp "none" parity =? 0) eqn:E4;
    [intros _; exists "none"; split;
     [simpl; auto | apply Hcv; [vm_compute; intuition discriminate | exact E4]]|].
  destruct (strcasecmp "space" parity =? 0) eqn:E5;
    [intros _; exists "space"; split;
     [simpl; auto 6 | apply Hcv; [vm_compute; intuition discriminate | exact E5]]|].
  discriminate.
Qed.

Lemma set_databits_valid (databits ctrl : Z) :
  5 <= databits <= 8 -> exists c, set_databits databits ctrl = Some c.
Proof.
  intros H. unfold set_databits.
  replace ((databits <? 5) || (8 <? databits)) with false
    by (symmetry; apply orb_false_iff; split; apply Z.ltb_ge; lia).
  eexists. reflexivity.
Qed.

Lemma set_stopbits_valid (stopbits ctrl : Z) :
  stopbits = 1 \/ stopbits = 2 -> exists c, set_stopbits stopbits ctrl = Some c.
Proof. intros [-> | ->]; eexists; reflexivity. Qed.

Lemma cfset_speed (ti : termios) (speed : Z) :
  In speed (map snd supported_speed) ->
  c_ispeed (cfsetospeed (cfsetispeed ti speed) speed) = speed /\
  c_ospeed (cfsetospeed (cfsetispeed ti speed) speed) = speed.
Proof.
  unfold supported_speed. cbn [map snd In]. intros H.
  repeat (destruct H as [<- | H]; [split; reflexivity|]).
  contradiction.
Qed.

Lemma str2speed_in_table (rate : string) :
  In rate rate_names -> In (str2speed rate) (map snd supported_speed).
Proof.
  unfold rate_names, supported_speed. cbn [map fst In]. intros H.
  repeat (destruct H as [<- | H]; [vm_compute; tauto|]).
  contradiction.
Qed.

(** What the call does, by the local forwarding watch of the struct:
    refused while it is set; otherwise a valid call stores the control
    flags computed by the three setters and the requested speed, and
    any other call is answered InvalidArguments and stores nothing. *)
Lemma set_serial_parameters_by_watch
    (prx : proxy) (rate : string) (databits stopbits : Z) (parity : string) :
  let call := proxy_set_serial_params
                (Some (rate, databits, stopbits, parity)) prx in
  (local_watch prx <> 0 -> call = (ErrFailed "Not allowed", prx)) /\
  (local_watch prx = 0 -> valid_params rate databits stopbits parity ->
   exists c1 c2 c3,
     set_databits databits (c_cflag (proxy_ti prx)) = Some c1 /\
     set_stopbits stopbits c1 = Some c2 /\
     set_parity parity c2 = Some c3 /\
     let speed := str2speed rate in
     let ti := cfsetospeed
                 (cfsetispeed
                    (set_cflag (Z.lor c3 (Z.lor CLOCAL CREAD)) (proxy_ti prx))
                    speed) speed in
     call = (MethodReturn [], set_proxy_ti ti prx) /\
     c_ispeed ti = speed /\ c_ospeed ti = speed /\ speed <> B0 /\
     (type prx = TTY_PROXY ->
      forall r, local_connect r (snd call)
                = Some (tty_open r (address prx) ti))) /\
  (local_watch prx = 0 -> c_string rate -> c_string parity ->
   ~ valid_params rate databits stopbits parity ->
   exists descr, call = (ErrInvalidArguments descr, prx)).
Proof.
  intros call. subst call. unfold proxy_set_serial_params.
  split; [|split].
  - intros H. apply Z.eqb_neq in H. rewrite H. reflexivity.
  - intros H (Hr & Hd & Hs & Hp). rewrite H. cbn [negb Z.eqb]. cbv iota zeta.
    pose proof (str2speed_known rate Hr) as Hsp.
    destruct (set_databits_valid databits (c_cflag (proxy_ti prx)) Hd)
      as [c1 E1].
    destruct (set_stopbits_valid stopbits c1 Hs) as [c2 E2].
    destruct (set_parity_known parity c2 Hp) as [c3 E3].
    destruct (cfset_speed (set_cflag (Z.lor c3 (Z.lor CLOCAL CREAD))
                             (proxy_ti prx)) (str2speed rate)
                (str2speed_in_table rate Hr)) as [Si So].
    exists c1, c2, c3.
    replace (str2speed rate =? B0) with false
      by (symmetry; now apply Z.eqb_neq).
    rewrite E1, E2, E3. cbn [snd].
    repeat split; auto.
    intros Ht r. unfold local_connect. cbn [set_proxy_ti type address proxy_ti].
    rewrite Ht. reflexivity.
  - intros H Hcr Hcp Hout. rewrite H. cbn [negb Z.eqb]. cbv iota zeta.
    destruct (str2speed rate =? B0) eqn:Esp; [eexists; reflexivity|].
    destruct (set_databits databits (c_cflag (proxy_ti prx))) as [c1|] eqn:E1;
      [|eexists; reflexivity].
    destruct (set_stopbits stopbits c1) as [c2|] eqn:E2; [|eexists; reflexivity].
    destruct (set_parity parity c2) as [c3|] eqn:E3; [|eexists; reflexivity].
    exfalso. apply Hout. split; [|split; [|split]].
    + apply str2speed_found; [exact Hcr | now apply Z.eqb_neq].
    + unfold set_databits in E1.
      destruct ((databits <? 5) || (8 <? databits)) eqn:E; [discriminate|].
      apply orb_false_iff in E as [Ea Eb].
      apply Z.ltb_ge in Ea, Eb. lia.
    + unfold set_stopbits in E2.
      destruct (stopbits =? 1) eqn:Ea; [apply Z.eqb_eq in Ea; auto|].
      destruct (stopbits =? 2) eqn:Eb; [apply Z.eqb_eq in Eb; auto|].
      discriminate.
    + eapply set_parity_found; eassumption.
Qed.

Lemma connect_event_local_watch (r : accept_res) (chan cond : Z)
    (prx prx' : proxy) (keep : bool) (evs : list pevent) :
  connect_event r chan cond prx = Some (keep, prx', evs) ->
  if existsb is_add_watch evs then local_watch prx' <> 0
  else local_watch prx' = local_watch prx.
Proof.
  unfold connect_event.
  destruct (negb (Z.land cond G_IO_NVAL =? 0));
    [intros H; inversion H; reflexivity|].
  destruct (negb (Z.land cond (Z.lor G_IO_ERR G_IO_HUP) =? 0));
    [intros H; inversion H; reflexivity|].
  destruct (a_accept r) as [rsk|e]; [|intros H; inversion H; reflexivity].
  cbv zeta.
  destruct (local_connect r (set_dst (a_peer r) prx)) as [[lsk evl]|] eqn:El;
    [|discriminate].
  pose proof (ProxyFacts.local_connect_no_watch _ _ _ _ El) as Hno.
  assert (Hex : existsb is_add_watch evl = false).
  { clear - Hno. induction evl as [|e l IH]; [reflexivity|].
    cbn [forallb existsb] in *. apply andb_true_iff in Hno as [H1 H2].
    apply negb_true_iff in H1. rewrite H1. now apply IH. }
  destruct (lsk <? 0); intros H; inversion H; subst; clear H;
    rewrite existsb_app, Hex; cbn [existsb is_add_watch orb].
  - reflexivity.
  - cbn [set_watches local_watch]. discriminate.
Qed.

Lemma proxy_enable_local_watch (r : ProxyControl.listen_res) (prx : proxy) :
  local_watch (snd (fst (ProxyControl.proxy_enable r prx))) = local_watch prx.
Proof.
  unfold ProxyControl.proxy_enable.
  destruct (negb (listen_watch prx =? 0)); [reflexivity|].
  destruct (ProxyControl.rfcomm_listen r (src prx) (Some (channel prx)) 0)
    as [[sk ch] evs].
  destruct ch; destruct (sk <? 0); cbn [fst snd];
    try reflexivity;
    match goal with
    | |- context [record_id ?p =? 0] => destruct (record_id p =? 0)
    end; reflexivity.
Qed.

Lemma proxy_set_serial_params_local_watch
    (args : option (string * Z * Z * string)) (prx : proxy) :
  local_watch (snd (proxy_set_serial_params args prx)) = local_watch prx.
Proof.
  unfold proxy_set_serial_params. repeat first [reflexivity | break_inner].
Qed.

(** The local forwarding watch is unset on a proxy at rest. *)
Lemma at_rest_local_watch (prx : proxy) : at_rest prx -> local_watch prx = 0.
Proof.
  induction 1 as [ | | | r prx _ IH | args prx _ IH
                 | r chan cond prx prx' keep evs _ IH Hev Hno ].
  - reflexivity.
  - assumption.
  - reflexivity.
  - now rewrite proxy_enable_local_watch.
  - now rewrite proxy_set_serial_params_local_watch.
  - pose proof (connect_event_local_watch _ _ _ _ _ _ _ Hev) as H.
    rewrite Hno in H. congruence.
Qed.

(** The local forwarding watch is set on a proxy with a peer. *)
Lemma with_peer_local_watch (prx : proxy) :
  with_peer prx -> local_watch prx <> 0.
Proof.
  induction 1 as [ r chan cond prx prx' keep evs Hev Hyes
                 | r prx _ IH | args prx _ IH
                 | r chan cond prx prx' evs _ IH Hev ].
  - pose proof (connect_event_local_watch _ _ _ _ _ _ _ Hev) as H.
    now rewrite Hyes in H.
  - now rewrite proxy_enable_local_watch.
  - now rewrite proxy_set_serial_params_local_watch.
  - pose proof (connect_event_local_watch _ _ _ _ _ _ _ Hev) as H.
    destruct (existsb is_add_watch evs); congruence.
Qed.

(** C7, as the code has it.  SetSerialParameters is refused with the
    "Not allowed" failure on a proxy with a peer, that is, whenever a
    peer is connected.  On a proxy at rest (no peer accepted since it was
    created or last disabled) a call with a rate of the table, data bits
    in 5..8, stop bits 1 or 2 and one of the five parity names in any
    letter case succeeds and stores, in the settings the next open of
    the device applies, the control flags computed by the three setters
    and the requested speed; and every other call is answered
    InvalidArguments and stores nothing (the rate and the parity being
    C strings, as the strings of a message are).  In no case does the
    reply of GetInfo change: it carries no line setting. *)
Theorem set_serial_parameters
    (prx : proxy) (rate : string) (databits stopbits : Z) (parity : string) :
  let call := proxy_set_serial_params
                (Some (rate, databits, stopbits, parity)) prx in
  (with_peer prx -> call = (ErrFailed "Not allowed", prx)) /\
  (at_rest prx -> valid_params rate databits stopbits parity ->
   exists c1 c2 c3,
     set_databits databits (c_cflag (proxy_ti prx)) = Some c1 /\
     set_stopbits stopbits c1 = Some c2 /\
     set_parity parity c2 = Some c3 /\
     let speed := str2speed rate in
     let ti := cfsetospeed
                 (cfsetispeed
                    (set_cflag (Z.lor c3 (Z.lor CLOCAL CREAD)) (proxy_ti prx))
                    speed) speed in
     call = (MethodReturn [], set_proxy_ti ti prx) /\
     c_ispeed ti = speed /\ c_ospeed ti = speed /\ speed <> B0 /\
     (type prx = TTY_PROXY ->
      forall r, local_connect r (snd call)
                = Some (tty_open r (address prx) ti))) /\
  (at_rest prx -> c_string rate -> c_string parity ->
   ~ valid_params rate databits stopbits parity ->
   exists descr, call = (ErrInvalidArguments descr, prx)) /\
  proxy_get_info (snd call) = proxy_get_info prx.
Proof.
  intros call. subst call.
  destruct (set_serial_parameters_by_watch prx rate databits stopbits parity)
    as (Hbusy & Hok & Hbad).
  split; [|split; [|split]].
  - intros H. now apply Hbusy, with_peer_local_watch.
  - intros H. now apply Hok, at_rest_local_watch.
  - intros H. now apply Hbad, at_rest_local_watch.
  - unfold proxy_set_serial_params. repeat break_inner; reflexivity.
Qed.

(** [tty_proxy] is a character-device proxy as CreateProxy and Enable
    leave it. *)
Lemma tty_proxy_at_rest : at_rest tty_proxy.
Proof.
  exact (rest_enable ProxyControlSpec.listen_ok _
           (rest_tty (sys_ti tty_proxy) (proxy_ti tty_proxy) _
              (rest_new 1 "00001101-0000-1000-8000-00805F9B34FB"
                 "/dev/ttyS0" TTY_PROXY))).
Qed.

(** [tty_proxy] once a peer has been accepted and the device opened. *)
Lemma tty_proxy_with_peer :
  with_peer (set_watches 21 22 (set_dst 0x001122334455 tty_proxy)).
Proof.
  apply (peer_accepted ProxyControlSpec.accept_ok 14 1 tty_proxy _ true
           [ POpen "/dev/ttyS0"; PTcsetattr 13 (proxy_ti tty_proxy);
             PAddWatch 21 12 13; PAddWatch 22 13 12 ]);
    reflexivity.
Qed.

Lemma set_serial_parameters_witness :
  fst (proxy_set_serial_params (Some ("115200", 8, 1, "Even"))
         tty_proxy)
  = MethodReturn [] /\
  c_ospeed (proxy_ti (snd (proxy_set_serial_params
                             (Some ("115200", 8, 1, "Even"))
                             tty_proxy)))
  = B115200 /\
  fst (proxy_set_serial_params (Some ("115200", 8, 1, "Even"))
         (set_watches 21 22 (set_dst 0x001122334455 tty_proxy)))
  = ErrFailed "Not allowed" /\
  exists descr,
    proxy_set_serial_params (Some ("115200", 9, 1, "even")) tty_proxy
    = (ErrInvalidArguments descr, tty_proxy).
Proof.
  pose proof (set_serial_parameters tty_proxy "115200" 8 1 "Even")
    as (_ & Hok & _).
  pose proof (set_serial_parameters
                (set_watches 21 22 (set_dst 0x001122334455 tty_proxy))
                "115200" 8 1 "Even") as (Hbusy & _).
  pose proof (set_serial_parameters tty_proxy "115200" 9 1 "even")
    as (_ & _ & Hbad & _).
  destruct Hok as (c1 & c2 & c3 & _ & _ & _ & Hcall & _ & Ho & _).
  - exact tty_proxy_at_rest.
  - unfold valid_params. split; [simpl; tauto|]. split; [lia|].
    split; [now left|]. exists "even". split; [now left|].
    case_variant_lit.
  - cbv zeta in Hcall, Ho. rewrite Hcall. cbn [fst snd set_proxy_ti proxy_ti].
    split; [reflexivity|]. split; [exact Ho|]. split.
    + rewrite (Hbusy tty_proxy_with_peer). reflexivity.
    + apply Hbad.
      * exact tty_proxy_at_rest.
      * vm_compute. repeat split; discriminate.
      * vm_compute. repeat split; discriminate.
      * intros (_ & H & _). lia.
Defined.

(** C7 as stated fails on GetInfo: a successful call changes the stored
    settings, and the reply of GetInfo is the same before and after. *)
Lemma serial_parameters_absent_from_get_info :
  let prx := tty_proxy in
  let call := proxy_set_serial_params (Some ("115200", 8, 1, "none")) prx in
  fst call = MethodReturn [] /\
  proxy_ti (snd call) <> proxy_ti prx /\
  proxy_get_info (snd call) = proxy_get_info prx /\
  proxy_get_info prx
  = [ ("uuid", VString "00001101-0000-1000-8000-00805F9B34FB");
      ("address", VString "/dev/ttyS0"); ("channel", VByte 3);
      ("enabled", VBoolean true); ("connected", VBoolean false) ].
Proof.
  cbv zeta. split; [reflexivity|]. split; [|split; reflexivity].
  vm_compute. discriminate.
Qed.

End SerialParams.

(** ** Requester exit *)

Section OwnerExit.

Context {sdp : SdpLib}.

Lemma rfcomm_release_teardown (d : Z) (st : state) :
  extends is_teardown st (snd (rfcomm_release d st)) /\
  heap (snd (rfcomm_release d st)) = heap st /\
  (forall x, In x (rfcomm_devs (snd (rfcomm_release d st))) ->
             In x (rfcomm_devs st)).
Proof.
  unfold rfcomm_release. cbv zeta. cbn [emit rfcomm_devs].
  destruct (existsb (Z.eqb (int16 d)) (rfcomm_devs st));
    cbn [snd set_devs emit heap rfcomm_devs]; repeat split; auto;
    try (exists [EvReleaseDev (int16 d)]; split; reflexivity).
  intros x Hx. apply filter_In in Hx. tauto.
Qed.

Lemma pending_connect_free_teardown (p : ptr) (st : state) :
  extends is_teardown st (pending_connect_free p st) /\
  heap (pending_connect_free p st) = heap st /\
  rfcomm_devs (pending_connect_free p st) = rfcomm_devs st.
Proof.
  unfold pending_connect_free. cbv zeta.
  destruct (0 <? io_id (heap st p)); destruct (io (heap st p));
    cbn [emit heap rfcomm_devs]; repeat split;
    repeat (apply extends_emit; [|reflexivity]); apply extends_refl.
Qed.

Lemma owner_exited_loop_drops (name : string) (h : ptr -> pending_connect)
    (l : list ptr) :
  forall (tmp : list ptr) (st : state),
    heap st = h ->
    let res := owner_exited_loop name l tmp st in
    fst res
    = tmp ++ filter (fun p => negb (strcmp name (msg_sender (msg (h p))) =? 0)) l /\
    heap (snd res) = h /\
    extends is_teardown st (snd res) /\
    (forall x, In x (rfcomm_devs (snd res)) -> In x (rfcomm_devs st)) /\
    (forall p, In p l -> strcmp name (msg_sender (msg (h p))) = 0 ->
               0 <= id (h p) ->
               ~ In (int16 (id (h p))) (rfcomm_devs (snd res))).
Proof.
  induction l as [|p l IH]; intros tmp st Hh; cbn [owner_exited_loop filter].
  - cbn [fst snd]. rewrite app_nil_r.
    repeat split; auto using extends_refl.
  - cbv zeta. rewrite Hh.
    destruct (strcmp name (msg_sender (msg (h p))) =? 0) eqn:Eown;
      cbn [negb].
    + (* the exited requester's request *)
      set (s1 := if 0 <=? id (h p) then snd (rfcomm_release (id (h p)) st)
                 else st).
      assert (H1 : extends is_teardown st s1 /\ heap s1 = h /\
                   (forall x, In x (rfcomm_devs s1) -> In x (rfcomm_devs st)) /\
                   (0 <= id (h p) -> ~ In (int16 (id (h p))) (rfcomm_devs s1))).
      { subst s1. destruct (0 <=? id (h p)) eqn:Eid.
        - destruct (rfcomm_release_teardown (id (h p)) st) as (X & H & D).
          repeat split; auto; [congruence|].
          intros _. apply rfcomm_release_gone.
        - repeat split; auto; [apply extends_refl|]. lia. }
      destruct H1 as (X1 & Hh1 & D1 & G1).
      destruct (pending_connect_free_teardown p s1) as (X2 & Hh2 & D2).
      destruct (IH tmp (pending_connect_free p s1)) as (L & H & X & D & G);
        [congruence|].
      split; [exact L | split; [exact H | split; [|split]]].
      * eapply extends_trans; [exact X1|].
        eapply extends_trans; [exact X2 | exact X].
      * intros x Hx. apply D1. rewrite <- D2. auto.
      * intros q [<-|Hq] Hown Hid.
        -- intros Hin. apply (G1 Hid). rewrite <- D2. auto.
        -- auto.
    + destruct (IH (g_slist_append tmp p) st Hh) as (L & H & X & D & G).
      split; [|split; [exact H | split; [exact X | split; [exact D|]]]].
      * rewrite L. unfold g_slist_append. rewrite <- app_assoc. reflexivity.
      * intros q [<-|Hq] Hown Hid; [|auto].
        apply Z.eqb_neq in Eown. contradiction.
Qed.

(** When a requester leaves the bus, exactly its requests are dropped
    from the registry, in silence: the other requests stay in their
    order, no struct is modified, nothing is sent to anybody (the only
    actions are device releases, watch removals and closes), and the
    device bound for a dropped request is released. *)
Theorem owner_exit_drops_its_requests (name : string) (st : state) :
  let st' := transaction_owner_exited name st in
  pending_connects st'
  = filter (fun p => negb (owned_by name st p)) (pending_connects st) /\
  heap st' = heap st /\
  extends is_teardown st st' /\
  (forall p, In p (pending_connects st) -> owned_by name st p = true ->
             0 <= id (heap st p) ->
             ~ In (int16 (id (heap st p))) (rfcomm_devs st')).
Proof.
  cbv zeta. unfold transaction_owner_exited, owned_by.
  pose proof (owner_exited_loop_drops name (heap st) (pending_connects st)
                [] st eq_refl) as (L & H & X & D & G).
  destruct (owner_exited_loop name (pending_connects st) [] st) as [tmp s].
  cbn [fst snd] in *. cbn [set_pending pending_connects heap rfcomm_devs].
  split; [exact L | split; [exact H | split]].
  - eapply extends_same_trace; [|exact X]. reflexivity.
  - intros p Hp Hown. apply G; [exact Hp|]. now apply Z.eqb_eq.
Qed.

End OwnerExit.

(** ** Replies and the registry *)

Lemma quiet_refl (st : state) : quiet st st.
Proof. exists []. rewrite app_nil_r. auto. Qed.

Lemma quiet_trans (st1 st2 st3 : state) :
  quiet st1 st2 -> quiet st2 st3 -> quiet st1 st3.
Proof.
  intros (e1 & T1 & F1 & P1 & M1) (e2 & T2 & F2 & P2 & M2).
  exists (e1 ++ e2). repeat split.
  - rewrite T2, T1, app_assoc. reflexivity.
  - rewrite filter_app, F1, F2. reflexivity.
  - congruence.
  - intros q. rewrite M2. apply M1.
Qed.

Lemma quiet_emit (st0 st : state) (e : event) :
  quiet st0 st -> is_reply e = false -> quiet st0 (emit e st).
Proof.
  intros H He. eapply quiet_trans; [exact H|].
  exists [e]. cbn [filter]. rewrite He. auto.
Qed.

Lemma quiet_same (st0 st st' : state) :
  trace st' = trace st -> pending_connects st' = pending_connects st ->
  (forall q, msg (heap st' q) = msg (heap st q)) ->
  quiet st0 st -> quiet st0 st'.
Proof.
  intros T P M H. eapply quiet_trans; [exact H|].
  exists []. rewrite app_nil_r. auto.
Qed.

Lemma quiet_store (st0 st : state) (p : ptr) f :
  (forall pc, msg (f pc) = msg pc) ->
  quiet st0 st -> quiet st0 (store p f st).
Proof.
  intros Hf. apply quiet_same; try reflexivity.
  intros q. cbn [store heap]. destruct (Nat.eqb q p) eqn:E; [|reflexivity].
  apply Nat.eqb_eq in E. subst q. apply Hf.
Qed.

Lemma quiet_set_devs (st0 st : state) l :
  quiet st0 st -> quiet st0 (set_devs l st).
Proof. apply quiet_same; reflexivity. Qed.

Lemma quiet_set_timeouts (st0 st : state) l :
  quiet st0 st -> quiet st0 (set_timeouts l st).
Proof. apply quiet_same; reflexivity. Qed.

Lemma quiet_set_ports_paths (st0 st : state) l :
  quiet st0 st -> quiet st0 (set_ports_paths l st).
Proof. apply quiet_same; reflexivity. Qed.

Lemma quiet_msg (st0 st : state) (p : ptr) :
  quiet st0 st -> msg (heap st p) = msg (heap st0 p).
Proof. intros (_ & _ & _ & _ & M). apply M. Qed.

Lemma quiet_reply (st0 st : state) (p : ptr) (r : dbus_reply) :
  quiet st0 st -> replied p st0 (emit (EvReply (msg (heap st p)) r) st).
Proof.
  intros (evs & T & F & P & M).
  exists (evs ++ [EvReply (msg (heap st p)) r]), r. repeat split.
  - cbn [emit trace]. rewrite T, app_assoc. reflexivity.
  - rewrite filter_app, F, M. reflexivity.
  - exact P.
  - exact M.
Qed.

Lemma replied_quiet (p : ptr) (st0 st st' : state) :
  replied p st0 st -> quiet st st' -> replied p st0 st'.
Proof.
  intros (e1 & r & T1 & F1 & P1 & M1) (e2 & T2 & F2 & P2 & M2).
  exists (e1 ++ e2), r. repeat split.
  - rewrite T2, T1, app_assoc. reflexivity.
  - rewrite filter_app, F1, F2. reflexivity.
  - congruence.
  - intros q. rewrite M2. apply M1.
Qed.

Lemma replied_emit (p : ptr) (st0 st : state) (e : event) :
  replied p st0 st -> is_reply e = false -> replied p st0 (emit e st).
Proof.
  intros H He. eapply replied_quiet; [exact H|].
  apply quiet_emit; [apply quiet_refl | exact He].
Qed.

Lemma answered_quiet (p : ptr) (st0 st st' : state) :
  answered p st0 st -> quiet st st' -> answered p st0 st'.
Proof.
  intros (e1 & r & T1 & F1 & P1 & M1) (e2 & T2 & F2 & P2 & M2).
  exists (e1 ++ e2), r. repeat split.
  - rewrite T2, T1, app_assoc. reflexivity.
  - rewrite filter_app, F1, F2. reflexivity.
  - congruence.
  - intros q. rewrite M2. apply M1.
Qed.

Ltac quiet_base :=
  first
    [ eassumption
    | apply quiet_refl
    | apply quiet_emit; [ | reflexivity ]
    | apply quiet_store; [ reflexivity | ]
    | apply quiet_set_devs
    | apply quiet_set_timeouts
    | apply quiet_set_ports_paths ].

Ltac fold_snd_quiet :=
  match goal with
  | E : ?f = (_, ?s) |- quiet _ ?s =>
      replace s with (snd f) by (rewrite E; reflexivity)
  end.

Section Answers.

Context {sdp : SdpLib}.

Lemma pending_connect_free_quiet (st0 st : state) (p : ptr) :
  quiet st0 st -> quiet st0 (pending_connect_free p st).
Proof.
  intros H. unfold pending_connect_free. cbv zeta.
  repeat first [quiet_base | break_inner].
Qed.

Lemma rfcomm_release_quiet (st0 st : state) (d : Z) :
  quiet st0 st -> quiet st0 (snd (rfcomm_release d st)).
Proof.
  intros H. unfold rfcomm_release. cbv zeta.
  break_inner; cbn [snd]; repeat quiet_base.
Qed.

Lemma port_open_quiet (st0 st : state) (r : sysres) (p : ptr) :
  quiet st0 st -> quiet st0 (snd (port_open r p st)).
Proof.
  intros H. unfold port_open. cbv zeta.
  break_inner; cbn [snd]; repeat quiet_base.
Qed.

(** Taking a request out of the registry after its reply. *)
Lemma replied_remove (st0 st : state) (p : ptr) :
  replied p st0 st -> answered p st0 (pending_connect_remove p st).
Proof.
  intros (evs & r & T & F & P & M).
  destruct (pending_connect_remove_cleanup p st) as (_ & H & L & evs' & T' & C).
  exists (evs ++ evs'), r. repeat split.
  - rewrite T', T, app_assoc. reflexivity.
  - rewrite filter_app, F. destruct (cleanup_filters evs' C) as (_ & -> & _).
    reflexivity.
  - rewrite L, P. reflexivity.
  - intros q. rewrite H. apply M.
Qed.

Lemma open_notify_replied (st0 st : state) (fd err : Z) (p : ptr) :
  quiet st0 st -> replied p st0 (open_notify fd err p st).
Proof.
  intros H. unfold open_notify. cbv zeta.
  assert (Hm : forall s d, quiet st0 s -> heap s = heap st ->
            replied p st0
              (emit (EvReply (msg (heap st p)) d) s)).
  { intros s d Hs Hh. rewrite <- Hh. now apply quiet_reply. }
  assert (Hr : heap (snd (rfcomm_release (id (heap st p)) st)) = heap st)
    by apply rfcomm_release_gone.
  destruct (negb (err =? 0)); [|destruct (negb (canceled (heap st p) =? 0))].
  - apply Hm; [now apply rfcomm_release_quiet | exact Hr].
  - apply Hm; [now apply rfcomm_release_quiet | exact Hr].
  - repeat (apply replied_emit; [|reflexivity]).
    apply Hm; [exact H | reflexivity].
Qed.

(** The connect callback either leaves the request waiting for its
    device node or answers it and takes it out of the registry. *)
Lemma rfcomm_connect_cb_outcome (st0 st : state) (r : sysres)
    (chan cond : Z) (p : ptr) :
  quiet st0 st ->
  quiet st0 (rfcomm_connect_cb r chan cond p st) \/
  answered p st0 (rfcomm_connect_cb r chan cond p st).
Proof.
  intros H. unfold rfcomm_connect_cb. cbv zeta.
  repeat first
    [ right; apply replied_remove; apply quiet_reply; repeat quiet_base
    | break_inner ].
  - left. fold_snd_quiet. apply port_open_quiet. repeat quiet_base.
  - right. apply replied_remove. apply open_notify_replied.
    fold_snd_quiet. apply port_open_quiet. repeat quiet_base.
Qed.

Lemma quiet_reply_to (st0 st : state) (p : ptr) (m : dbus_message)
    (r : dbus_reply) :
  quiet st0 st -> m = msg (heap st0 p) -> replied p st0 (emit (EvReply m r) st).
Proof.
  intros H ->. rewrite <- (quiet_msg st0 st p H). now apply quiet_reply.
Qed.

(** [rfcomm_connect] fails without a reply and without touching the
    registry; otherwise it returns 0 and the request waits or, when the
    connect completed at once, has gone through the connect callback. *)
Lemma rfcomm_connect_outcome (st0 st : state) (r : sysres) (p : ptr) :
  quiet st0 st ->
  (fst (rfcomm_connect r p st) < 0 /\ quiet st0 (snd (rfcomm_connect r p st)))
  \/ (fst (rfcomm_connect r p st) = 0 /\
      (quiet st0 (snd (rfcomm_connect r p st)) \/
       answered p st0 (snd (rfcomm_connect r p st)))).
Proof.
  intros H. unfold rfcomm_connect. cbv zeta.
  repeat break_inner; cbn [fst snd];
    try (left; split; [lia | repeat quiet_base]).
  - right. split; [reflexivity|].
    apply rfcomm_connect_cb_outcome. repeat quiet_base.
  - right. split; [reflexivity|]. left. repeat quiet_base.
Qed.

Lemma record_reply_channel_outcome (st0 st : state) (r : sysres)
    (rec : sdp_record_t) (ch : Z) (p : ptr) :
  quiet st0 st ->
  quiet st0 (record_reply_channel r rec ch p st) \/
  answered p st0 (record_reply_channel r rec ch p st).
Proof.
  intros H. unfold record_reply_channel, rfcomm_bind. cbv zeta.
  pose proof (quiet_msg st0 st p H) as Hm.
  destruct (String.eqb (msg_member (msg (heap st p))) "CreatePort").
  - right. destruct (r_createdev r); cbn [fst snd]; destruct (_ <? 0);
      apply replied_remove;
      repeat (apply replied_emit; [|reflexivity]);
      (apply quiet_reply_to; [repeat quiet_base | exact Hm]).
  - match goal with |- context [rfcomm_connect r p ?s] =>
      destruct (rfcomm_connect_outcome st0 s r p) as [(E & Q)|(E & O)];
        [repeat quiet_base | | ];
        destruct (rfcomm_connect r p s) as [err s'] eqn:Ec
    end; cbn [fst snd] in *.
    + apply Z.ltb_lt in E. rewrite E. right. apply replied_remove.
      apply quiet_reply_to; [exact Q | exact Hm].
    + subst err. exact O.
Qed.

Lemma record_reply_outcome (st : state) (r : sysres) (reply : dbus_incoming)
    (p : ptr) :
  quiet st (record_reply r reply p st) \/
  answered p st (record_reply r reply p st).
Proof.
  unfold record_reply. cbv zeta.
  repeat first
    [ apply record_reply_channel_outcome; apply quiet_refl
    | right; apply replied_remove; apply quiet_reply; apply quiet_refl
    | left; apply quiet_refl
    | break_inner ].
Qed.

Lemma handles_reply_outcome (st : state) (r : sysres) (reply : dbus_incoming)
    (p : ptr) :
  quiet st (handles_reply r reply p st) \/
  answered p st (handles_reply r reply p st).
Proof.
  unfold handles_reply, get_record. cbv zeta.
  repeat first
    [ right; apply replied_remove; apply quiet_reply; apply quiet_refl
    | left; solve [repeat quiet_base]
    | break_inner ].
Qed.

Lemma open_continue_outcome (st : state) (r : sysres) (p : ptr) :
  quiet st (snd (open_continue r p st)) \/
  answered p st (snd (open_continue r p st)).
Proof.
  unfold open_continue. cbv zeta.
  repeat first
    [ right; apply replied_remove; apply open_notify_replied;
      solve [repeat quiet_base]
    | left; solve [repeat quiet_base]
    | break_inner; cbn [snd] ].
Qed.

Lemma timeout_dispatch_outcome (st : state) (r : sysres) (p : ptr) :
  quiet st (timeout_dispatch r p st) \/
  answered p st (timeout_dispatch r p st).
Proof.
  unfold timeout_dispatch.
  destruct (g_slist_find (timeouts st) p); [|left; apply quiet_refl].
  pose proof (open_continue_outcome st r p) as O.
  destruct (open_continue r p st) as [again s]. cbn [snd] in O.
  destruct again; [exact O|].
  destruct O as [Q|A]; [left; now apply quiet_set_timeouts|].
  right. eapply answered_quiet; [exact A|].
  apply quiet_set_timeouts, quiet_refl.
Qed.

(** Every callback of a request either sends nothing to a requester and
    leaves the registry as it is, or sends exactly one reply, to the
    request's own message, and takes the request out of the registry in
    the same dispatch: no request is answered twice and none stays
    registered after its answer. *)
Theorem callback_answers_once_and_unregisters (r : sysres)
    (reply : dbus_incoming) (chan cond : Z) (p : ptr) (st : state) :
  let outcome st' := quiet st st' \/ answered p st st' in
  outcome (handles_reply r reply p st) /\
  outcome (record_reply r reply p st) /\
  outcome (rfcomm_connect_cb r chan cond p st) /\
  outcome (timeout_dispatch r p st).
Proof.
  cbv zeta. split; [|split; [|split]].
  - apply handles_reply_outcome.
  - apply record_reply_outcome.
  - apply rfcomm_connect_cb_outcome, quiet_refl.
  - apply timeout_dispatch_outcome.
Qed.

End Answers.

(** ** Submission *)

Lemma g_slist_remove_app_last (l : list ptr) (p : ptr) :
  ~ In p l -> g_slist_remove (l ++ [p]) p = l.
Proof.
  induction l as [|q l IH]; intros H; cbn [app g_slist_remove].
  - now rewrite Nat.eqb_refl.
  - destruct (Nat.eqb q p) eqn:E.
    + apply Nat.eqb_eq in E. subst q. exfalso. apply H. now left.
    + rewrite IH; [reflexivity|]. intros Hin. apply H. now right.
Qed.

Lemma submitted_reply (m : dbus_message) (rep : dbus_reply)
    (st st1 s : state) :
  trace st1 = trace st -> pending_connects st1 = pending_connects st ->
  quiet st1 s -> submitted m st (emit (EvReply m rep) s).
Proof.
  intros T P (evs & Ts & F & Ps & _). left. exists rep. split.
  - rewrite (new_events_app st _ (evs ++ [EvReply m rep])).
    + rewrite filter_app, F. reflexivity.
    + cbn [emit trace]. rewrite Ts, T, app_assoc. reflexivity.
  - cbn [emit pending_connects]. congruence.
Qed.

Lemma submitted_register (m : dbus_message) (st st1 s : state) (e : event) :
  trace st1 = trace st -> pending_connects st1 = pending_connects st ->
  quiet st1 s -> is_reply e = false ->
  submitted m st
    (emit e (set_pending (g_slist_append (pending_connects s) (g_new0 st)) s)).
Proof.
  intros T P (evs & Ts & F & Ps & _) He. right. split.
  - rewrite (new_events_app st _ (evs ++ [e])).
    + rewrite filter_app, F. cbn [filter]. now rewrite He.
    + cbn [emit set_pending trace]. rewrite Ts, T, app_assoc. reflexivity.
  - cbn [emit set_pending pending_connects]. unfold g_slist_append. congruence.
Qed.

(** The literal-channel path of ConnectService, from the registration of
    the fresh struct on. *)
Lemma submitted_connect (r : sysres) (m : dbus_message) (st st1 : state)
    (val : Z) :
  trace st1 = trace st -> pending_connects st1 = pending_connects st ->
  msg (heap st1 (g_new0 st)) = m -> ~ In (g_new0 st) (pending_connects st) ->
  let p := g_new0 st in
  let st2 :=
    store p (set_channel (uint8 val))
      (set_pending (g_slist_append (pending_connects st1) p) st1) in
  submitted m st
    (let '(err, st3) := rfcomm_connect r p st2 in
     if err <? 0 then
       let st4 := set_pending (g_slist_remove (pending_connects st3) p) st3 in
       let st5 := pending_connect_free p st4 in
       emit (EvReply m (ErrConnectionAttemptFailed (- err))) st5
     else emit (EvNameListenerAdd (msg_sender m)) st3).
Proof.
  intros T P Hm Hnew p st2.
  assert (T2 : trace st2 = trace st) by exact T.
  assert (P2 : pending_connects st2 = pending_connects st ++ [p]).
  { subst st2. cbn [store set_pending pending_connects].
    unfold g_slist_append. now rewrite P. }
  assert (M2 : msg (heap st2 p) = m).
  { subst st2. cbn [store heap set_pending]. rewrite Nat.eqb_refl. exact Hm. }
  destruct (rfcomm_connect_outcome st2 st2 r p (quiet_refl st2))
    as [(E & Q)|(E & [Q|A])];
    destruct (rfcomm_connect r p st2) as [err st3]; cbn [fst snd] in *.
  - apply Z.ltb_lt in E. rewrite E. cbv zeta.
    destruct Q as (evs & T3 & F3 & P3 & M3).
    set (st4 := set_pending (g_slist_remove (pending_connects st3) p) st3).
    destruct (pending_connect_free_quiet st4 st4 p (quiet_refl st4))
      as (evs' & T5 & F5 & P5 & _).
    left. eexists. split.
    + rewrite (new_events_app st _
                 (evs ++ evs' ++ [EvReply m (ErrConnectionAttemptFailed (- err))])).
      * rewrite !filter_app, F3, F5. reflexivity.
      * cbn [emit trace]. rewrite T5. subst st4. cbn [set_pending trace].
        rewrite T3, T2, <- !app_assoc. reflexivity.
    + cbn [emit pending_connects]. rewrite P5. subst st4.
      cbn [set_pending pending_connects]. rewrite P3, P2.
      now apply g_slist_remove_app_last.
  - subst err. cbn [Z.ltb Z.compare].
    destruct Q as (evs & T3 & F3 & P3 & M3). right. split.
    + rewrite (new_events_app st _ (evs ++ [EvNameListenerAdd (msg_sender m)])).
      * rewrite filter_app, F3. reflexivity.
      * cbn [emit trace]. rewrite T3, T2, app_assoc. reflexivity.
    + cbn [emit pending_connects]. rewrite P3, P2. reflexivity.
  - subst err. cbn [Z.ltb Z.compare].
    destruct A as (evs & rep & T3 & F3 & P3 & M3). left. exists rep. split.
    + rewrite (new_events_app st _ (evs ++ [EvNameListenerAdd (msg_sender m)])).
      * rewrite filter_app, F3, M2. reflexivity.
      * cbn [emit trace]. rewrite T3, T2, app_assoc. reflexivity.
    + cbn [emit pending_connects]. rewrite P3, P2.
      now apply g_slist_remove_app_last.
Qed.

Lemma alloc_facts (pc : pending_connect) (st : state) :
  fst (alloc pc st) = g_new0 st /\
  trace (snd (alloc pc st)) = trace st /\
  pending_connects (snd (alloc pc st)) = pending_connects st /\
  heap (snd (alloc pc st)) (g_new0 st) = pc.
Proof.
  unfold alloc. cbn [fst snd trace pending_connects heap].
  rewrite Nat.eqb_refl. auto.
Qed.

Ltac submitted_leaf st st1 T P :=
  first
    [ eapply (submitted_reply _ _ st st1);
      [ exact T | exact P
      | repeat first [apply pending_connect_free_quiet | quiet_base] ]
    | eapply (submitted_register _ st st1);
      [ exact T | exact P | repeat quiet_base | reflexivity ] ].

Lemma connect_service_from_devid_submitted (r : sysres) (m : dbus_message)
    (dev_id : Z) (a pat : string) (st : state) :
  registry_ok st ->
  submitted m st (connect_service_from_devid r m dev_id a pat st).
Proof.
  intros Hok. pose proof (g_new0_fresh st) as Hnew.
  unfold connect_service_from_devid, get_handles, get_record.
  cbv zeta.
  destruct (find_pending_connect_by_pattern st a pat);
    [apply (submitted_reply m _ st st st); auto using quiet_refl|].
  destruct (if dev_id <? 0 then None else r_hci_devba r dev_id) as [s|];
    [|apply (submitted_reply m _ st st st); auto using quiet_refl].
  destruct (alloc_facts (new_pending m s a pat dev_id) st) as (Ep & T & P & Hh).
  destruct (alloc (new_pending m s a pat dev_id) st) as [p st1].
  cbn [fst snd] in *. subst p.
  destruct (pattern2uuid128 pat MAX_LEN_UUID_STR);
    [destruct (r_dbus_send r); cbn [fst snd Z.ltb Z.compare];
     submitted_leaf st st1 T P|].
  destruct (pattern2long pat) as [val|]; [|submitted_leaf st st1 T P].
  destruct (strncasecmp "0x" pat 2 =? 0).
  { destruct (val <? 65536); [submitted_leaf st st1 T P|].
    destruct (r_dbus_send r); cbn [fst snd Z.ltb Z.compare];
      submitted_leaf st st1 T P. }
  destruct ((val <? 1) || (30 <? val)); [submitted_leaf st st1 T P|].
  apply submitted_connect; auto. rewrite Hh. reflexivity.
Qed.

Lemma create_port_submitted (r : sysres) (m : dbus_message)
    (args : option (string * string)) (st : state) :
  registry_ok st -> submitted m st (create_port r m args st).
Proof.
  intros Hok.
  unfold create_port, get_handles, get_record, rfcomm_bind. cbv zeta.
  destruct args as [[a pat]|];
    [|apply (submitted_reply m _ st st st); auto using quiet_refl].
  destruct (find_pending_connect_by_pattern st a pat);
    [apply (submitted_reply m _ st st st); auto using quiet_refl|].
  destruct (if r_hci_get_route r <? 0 then None
            else r_hci_devba r (r_hci_get_route r)) as [s|];
    [|apply (submitted_reply m _ st st st); auto using quiet_refl].
  destruct (alloc_facts (new_pending m s a pat (r_hci_get_route r)) st)
    as (Ep & T & P & Hh).
  destruct (alloc (new_pending m s a pat (r_hci_get_route r)) st) as [p st1].
  cbn [fst snd] in *. subst p.
  destruct (pattern2uuid128 pat MAX_LEN_UUID_STR);
    [destruct (r_dbus_send r); cbn [fst snd Z.ltb Z.compare];
     submitted_leaf st st1 T P|].
  destruct (pattern2long pat) as [val|]; [|submitted_leaf st st1 T P].
  destruct (strncasecmp "0x" pat 2 =? 0).
  { destruct (val <? 65536); [submitted_leaf st st1 T P|].
    destruct (r_dbus_send r); cbn [fst snd Z.ltb Z.compare];
      submitted_leaf st st1 T P. }
  destruct ((val <? 1) || (30 <? val)); [submitted_leaf st st1 T P|].
  destruct (r_createdev r); cbn [fst snd]; destruct (_ <? 0);
    try submitted_leaf st st1 T P.
  all: match goal with
       | |- submitted _ _ (emit ?sig (emit (EvReply ?m' ?rep) ?s0)) =>
           assert (Q : quiet st1 s0)
             by (repeat first [apply pending_connect_free_quiet | quiet_base]);
           destruct Q as (evs & Ts & F & Ps & _);
           left; exists rep; split;
           [ rewrite (new_events_app st _ (evs ++ [EvReply m' rep; sig]));
             [ rewrite filter_app, F; reflexivity
             | cbn [emit trace]; rewrite Ts, T, <- !app_assoc; reflexivity ]
           | cbn [emit pending_connects]; congruence ]
       end.
Qed.

(** A ConnectService or CreatePort call on a consistent registry ends in
    one of two ways.  Either the request has been answered, exactly
    once, and the registry is what it was before the call (also when the
    request was registered for a while and its connect failed or
    completed during the call); or nothing has been sent to anybody and
    the registry has exactly one more entry, the new request. *)
Theorem request_registered_iff_unanswered (r : sysres) (m : dbus_message)
    (dev_id : Z) (args : option (string * string)) (a pat : string)
    (st : state) :
  registry_ok st ->
  submitted m st (connect_service r m args st) /\
  submitted m st (connect_service_from_devid r m dev_id a pat st) /\
  submitted m st (create_port r m args st).
Proof.
  intros Hok. split; [|split].
  - unfold connect_service. destruct args as [[a' pat']|].
    + now apply connect_service_from_devid_submitted.
    + apply (submitted_reply m _ st st st); auto using quiet_refl.
  - now apply connect_service_from_devid_submitted.
  - now apply create_port_submitted.
Qed.

Lemma request_registered_iff_unanswered_witness :
  submitted Sample.msg0 Sample.init
    (connect_service Sample.env Sample.msg0 (Some (Sample.peer, "spp"))
       Sample.init) /\
  submitted Sample.msg0 Sample.init
    (connect_service_from_devid Sample.env Sample.msg0 0 Sample.peer "5"
       Sample.init) /\
  submitted Sample.msg0 Sample.init
    (create_port Sample.env Sample.msg0 (Some (Sample.peer, "spp"))
       Sample.init).
Proof.
  apply (request_registered_iff_unanswered Sample.env Sample.msg0 0
           (Some (Sample.peer, "spp")) Sample.peer "5" Sample.init).
  unfold registry_ok. cbn [Sample.init pending_connects].
  repeat split; [constructor | intros p q []].
Defined.

(** ** Cancellation requests *)

Lemma find_pending_from_ext (h h' : ptr -> pending_connect) (l : list ptr)
    (a pat : string) :
  (forall p, bda (h' p) = bda (h p) /\ pattern (h' p) = pattern (h p)) ->
  find_pending_from h' l a pat = find_pending_from h l a pat.
Proof.
  intros H. induction l as [|p l IH]; [reflexivity|].
  cbn [find_pending_from]. destruct (H p) as [-> ->]. now rewrite IH.
Qed.

(** CancelConnectService on a registered pair only marks the request: it
    is answered with an empty method return, the first registered match
    gets its flag set and no other struct changes, and the registry, the
    bound devices and the timers are what they were.  The request stays
    registered, so a ConnectService for the same pair is still refused
    with InProgress until a callback of the canceled request has run. *)
Theorem cancel_only_marks_the_request (r : sysres) (m m' : dbus_message)
    (dev_id : Z) (a pat : string) (q : ptr) (st : state) :
  find_pending_connect_by_pattern st a pat = Some q ->
  let st' := cancel_connect_service m (Some (a, pat)) st in
  new_events st st' = [EvReply m (MethodReturn [])] /\
  pending_connects st' = pending_connects st /\
  rfcomm_devs st' = rfcomm_devs st /\
  timeouts st' = timeouts st /\
  heap st' q = set_canceled 1 (heap st q) /\
  (forall p, p <> q -> heap st' p = heap st p) /\
  connect_service_from_devid r m' dev_id a pat st'
  = emit (EvReply m' (ErrInProgress "Connection in progress")) st'.
Proof.
  intros Hfind. cbv zeta. unfold cancel_connect_service. rewrite Hfind.
  repeat split.
  - apply new_events_app. reflexivity.
  - cbn [emit store heap]. now rewrite Nat.eqb_refl.
  - intros p Hp. cbn [emit store heap].
    apply Nat.eqb_neq in Hp. now rewrite Hp.
  - unfold connect_service_from_devid, find_pending_connect_by_pattern.
    cbn [emit store heap pending_connects].
    rewrite (find_pending_from_ext (heap st)).
    + unfold find_pending_connect_by_pattern in Hfind. now rewrite Hfind.
    + intros p. destruct (Nat.eqb p q) eqn:E; [|auto].
      apply Nat.eqb_eq in E. subst p. auto.
Qed.

Lemma cancel_only_marks_the_request_witness :
  find_pending_connect_by_pattern connecting Sample.peer "5" = Some 1%nat /\
  pending_connects
    (cancel_connect_service cancel_msg (Some (Sample.peer, "5")) connecting)
  = pending_connects connecting.
Proof.
  split; [reflexivity|].
  apply (cancel_only_marks_the_request Sample.env
           cancel_msg Sample.msg0 0 Sample.peer "5" 1%nat connecting).
  reflexivity.
Defined.

(** ** CreatePort with a literal channel *)

(** CreatePort with a decimal channel in 1..30 is served within the
    call: the device is bound without a socket, stored and registered,
    the object path is returned and signalled, and ListPorts then shows
    it last.  No request is registered, no discovery request and no
    connect is made, and no timer is armed. *)
Theorem create_port_literal_channel (r : sysres) (m m' : dbus_message)
    (a pat : string) (s val dev_id : Z) (st : state) :
  find_pending_connect_by_pattern st a pat = None ->
  0 <= r_hci_get_route r ->
  r_hci_devba r (r_hci_get_route r) = Some s ->
  pattern2uuid128 pat MAX_LEN_UUID_STR = None ->
  pattern2long pat = Some val ->
  strncasecmp "0x" pat 2 <> 0 ->
  1 <= val <= 30 ->
  r_createdev r = SysOk dev_id ->
  0 <= dev_id ->
  let st' := create_port r m (Some (a, pat)) st in
  let name := snprintf 16 ("/dev/rfcomm" ++ fmt_d dev_id) in
  new_events st st'
  = [ EvCreateDev None s a val dev_id;
      EvPortStore s a dev_id val None;
      EvPortRegister dev_id s a name (r_port_path r) None;
      EvReply m (MethodReturn [r_port_path r]);
      EvSignal "PortCreated" (r_port_path r) ] /\
  pending_connects st' = pending_connects st /\
  timeouts st' = timeouts st /\
  rfcomm_devs st' = dev_id :: rfcomm_devs st /\
  new_events st' (list_ports m' st')
  = [ EvReply m' (MethodReturn (ports_paths st ++ [r_port_path r])) ].
Proof.
  intros Hfind Hroute Hba Huuid Hlong Hhex Hrange Hdev Hid. cbv zeta.
  unfold create_port, rfcomm_bind. rewrite Hfind.
  apply Z.ltb_ge in Hroute. rewrite Hroute, Hba. cbv zeta.
  unfold alloc. rewrite Huuid, Hlong.
  apply Z.eqb_neq in Hhex. rewrite Hhex.
  replace ((val <? 1) || (30 <? val)) with false
    by (symmetry; apply orb_false_iff; split; apply Z.ltb_ge; lia).
  rewrite Hdev. cbn [fst snd].
  apply Z.ltb_ge in Hid. rewrite Hid.
  unfold pending_connect_free. cbn [heap]. rewrite Nat.eqb_refl.
  cbn [io_id io new_pending Z.ltb Z.compare].
  rewrite (uint8_small val) by lia.
  repeat split.
  - apply new_events_app. cbn [emit set_ports_paths set_devs trace].
    rewrite <- !app_assoc. reflexivity.
  - apply new_events_app. reflexivity.
Qed.

Lemma create_port_literal_channel_witness :
  new_events
    (create_port Sample.env Sample.msg1 (Some (Sample.peer, "5")) Sample.init)
    (list_ports Sample.msg0
       (create_port Sample.env Sample.msg1 (Some (Sample.peer, "5"))
          Sample.init))
  = [ EvReply Sample.msg0 (MethodReturn ["/org/bluez/serial/rfcomm0"]) ].
Proof.
  apply (create_port_literal_channel Sample.env
           Sample.msg1 Sample.msg0 Sample.peer "5" 1 5 0 Sample.init);
    try reflexivity; try lia; try discriminate.
Defined.

(** ** Integer patterns *)

Lemma digit_of_nonneg (c : ascii) (d : Z) : digit_of c = Some d -> 0 <= d.
Proof.
  unfold digit_of.
  destruct ((48 <=? code c) && (code c <=? 57)) eqn:E1;
    [|destruct ((97 <=? code c) && (code c <=? 122)) eqn:E2;
      [|destruct ((65 <=? code c) && (code c <=? 90)) eqn:E3]];
    intros H; inversion H; subst; lia.
Qed.

Lemma scan_digits_nonneg (base : Z) (s : string) :
  0 <= base -> forall acc n, 0 <= acc -> 0 <= fst (scan_digits base s acc n).
Proof.
  intros Hb. induction s as [|c s IH]; intros acc n Hacc;
    cbn [scan_digits]; [exact Hacc|].
  destruct (digit_of c) as [d|] eqn:Ed; [|exact Hacc].
  destruct (d <? base); [|exact Hacc].
  apply IH. pose proof (digit_of_nonneg c d Ed). nia.
Qed.

(** Whatever [pattern2long] accepts is a value of a C [long]. *)
Lemma pattern2long_in_range (s : string) (v : Z) :
  pattern2long s = Some v -> LONG_MIN <= v <= LONG_MAX.
Proof.
  unfold pattern2long, strtol.
  change (0 =? 0) with true. change (0 =? 16) with false. cbn [orb andb].
  assert (Hscan : forall b t m nd, scan_digits b t 0 0 = (m, nd) ->
            b = 8 \/ b = 10 \/ b = 16 -> 0 <= m).
  { intros b t m nd E Hb. change m with (fst (m, nd)). rewrite <- E.
    apply scan_digits_nonneg; lia. }
  repeat break_inner; intros H; inversion H; subst; clear H;
    repeat match goal with
           | E : (_, _) = (_, _) |- _ => inversion E; subst; clear E
           end;
    cbn [st_val]; unfold LONG_MIN, LONG_MAX in *;
    try lia;
    match goal with
    | E : scan_digits ?b ?t 0 0 = (?m, _) |- _ =>
        pose proof (Hscan b t _ _ E ltac:(auto))
    end;
    repeat match goal with
           | E : (_ <? _) = false |- _ => apply Z.ltb_ge in E
           end;
    lia.
Qed.

(** *** Decimal literals *)

Lemma scan_decimal_acc (d : Decimal.uint) :
  forall (acc : positive) (n : nat),
    scan_digits 10 (NilEmpty.string_of_uint d) (Z.pos acc) n
    = (Z.pos (Pos.of_uint_acc d acc),
       (n + String.length (NilEmpty.string_of_uint d))%nat).
Proof.
  induction d; intros acc n;
    cbn [NilEmpty.string_of_uint scan_digits Pos.of_uint_acc String.length];
    try (rewrite Nat.add_0_r; reflexivity);
    match goal with
    | |- context [digit_of ?c] =>
        let v := eval vm_compute in (digit_of c) in
        change (digit_of c) with v
    end; cbv iota beta;
    match goal with
    | |- context [?a <? 10] =>
        let v := eval vm_compute in (a <? 10) in change (a <? 10) with v
    end; cbv iota;
    rewrite <- Nat.add_succ_comm;
    match goal with
    | |- scan_digits 10 _ ?a _ = (Z.pos (Pos.of_uint_acc _ ?b), _) =>
        replace a with (Z.pos b) by lia
    end; apply IHd.
Qed.

Lemma scan_decimal (d : Decimal.uint) :
  forall n : nat,
    scan_digits 10 (NilEmpty.string_of_uint d) 0 n
    = (Z.of_N (Pos.of_uint d),
       (n + String.length (NilEmpty.string_of_uint d))%nat).
Proof.
  induction d; intros n;
    cbn [NilEmpty.string_of_uint scan_digits Pos.of_uint String.length];
    try (rewrite Nat.add_0_r; reflexivity);
    match goal with
    | |- context [digit_of ?c] =>
        let v := eval vm_compute in (digit_of c) in
        change (digit_of c) with v
    end; cbv iota beta;
    match goal with
    | |- context [?a <? 10] =>
        let v := eval vm_compute in (a <? 10) in change (a <? 10) with v
    end; cbv iota;
    rewrite <- Nat.add_succ_comm;
    try (apply IHd);
    match goal with
    | |- scan_digits 10 _ ?a _ = _ =>
        let v := eval vm_compute in a in change a with v
    end; rewrite scan_decimal_acc; reflexivity.
Qed.

Lemma unorm_head (d l : Decimal.uint) :
  Decimal.unorm d = Decimal.D0 l -> l = Decimal.Nil.
Proof.
  induction d; cbn [Decimal.unorm]; intros H;
    try discriminate; try (now apply IHd); now inversion H.
Qed.

Lemma to_uint_head (p : positive) (l : Decimal.uint) :
  Pos.to_uint p <> Decimal.D0 l.
Proof.
  intros H.
  assert (U : Decimal.unorm (Pos.to_uint p) = Pos.to_uint p).
  { rewrite <- (DecimalPos.Unsigned.to_of (Pos.to_uint p)).
    rewrite DecimalPos.Unsigned.of_to. reflexivity. }
  rewrite H in U. pose proof (unorm_head _ _ U) as ->.
  exact (DecimalPos.Unsigned.to_uint_nonzero p H).
Qed.

(** [strtol] with base 0 on the decimal digits of a positive number. *)
Lemma scan_printed (p : positive) :
  exists c r nd,
    NilEmpty.string_of_uint (Pos.to_uint p) = String c r /\
    49 <= code c <= 57 /\
    scan_digits 10 (String c r) 0 0 = (Z.pos p, S nd).
Proof.
  pose proof (scan_decimal (Pos.to_uint p) 0) as Hs.
  rewrite DecimalPos.Unsigned.of_to in Hs. cbn [Z.of_N Nat.add] in Hs.
  pose proof (to_uint_head p) as Hh.
  pose proof (DecimalPos.Unsigned.to_uint_nonnil p) as Hn.
  destruct (Pos.to_uint p) as [|l|l|l|l|l|l|l|l|l|l];
    [contradiction | exfalso; now apply (Hh l) | ..];
    cbn [NilEmpty.string_of_uint String.length] in *;
    do 3 eexists; (split; [reflexivity | split; [vm_compute; intuition discriminate | exact Hs]]).
Qed.

Lemma strtol_printed_pos (p : positive) :
  Z.pos p <= LONG_MAX ->
  pattern2long (NilEmpty.string_of_uint (Pos.to_uint p)) = Some (Z.pos p).
Proof.
  intros Hmax. destruct (scan_printed p) as (c & r & nd & -> & Hc & Hs).
  unfold pattern2long, strtol. cbn [skip_space]. unfold isspace.
  replace ((code c =? 32) || ((9 <=? code c) && (code c <=? 13))) with false
    by (symmetry; apply orb_false_iff; split;
        [apply Z.eqb_neq; lia | apply andb_false_iff; right; apply Z.leb_gt; lia]).
  replace (code c =? 45) with false by (symmetry; apply Z.eqb_neq; lia).
  replace (code c =? 43) with false by (symmetry; apply Z.eqb_neq; lia).
  replace (code c =? 48) with false by (symmetry; apply Z.eqb_neq; lia).
  change (0 =? 0) with true. cbv iota. rewrite Hs.
  replace (LONG_MAX <? Z.pos p) with false by (symmetry; apply Z.ltb_ge; lia).
  cbn [st_val st_end st_errno]. reflexivity.
Qed.

Lemma strtol_printed_neg (p : positive) :
  LONG_MIN <= Z.neg p ->
  pattern2long (String "-" (NilEmpty.string_of_uint (Pos.to_uint p)))
  = Some (Z.neg p).
Proof.
  intros Hmin. destruct (scan_printed p) as (c & r & nd & -> & Hc & Hs).
  unfold pattern2long, strtol. cbn [skip_space].
  change (isspace "-") with false. cbv iota.
  change (code "-" =? 45) with true. cbv iota.
  replace (code c =? 48) with false by (symmetry; apply Z.eqb_neq; lia).
  change (0 =? 0) with true. cbv iota. rewrite Hs.
  replace (- LONG_MIN <? Z.pos p) with false
    by (symmetry; apply Z.ltb_ge; unfold LONG_MIN in *; lia).
  cbn [st_val st_end st_errno].
  change (- Z.pos p) with (Z.neg p).
  destruct (Z.neg p =? LONG_MAX); reflexivity.
Qed.

Lemma strtol_overflow_pos (p : positive) :
  LONG_MAX < Z.pos p ->
  pattern2long (NilEmpty.string_of_uint (Pos.to_uint p)) = None.
Proof.
  intros Hmax. destruct (scan_printed p) as (c & r & nd & -> & Hc & Hs).
  unfold pattern2long, strtol. cbn [skip_space]. unfold isspace.
  replace ((code c =? 32) || ((9 <=? code c) && (code c <=? 13))) with false
    by (symmetry; apply orb_false_iff; split;
        [apply Z.eqb_neq; lia | apply andb_false_iff; right; apply Z.leb_gt; lia]).
  replace (code c =? 45) with false by (symmetry; apply Z.eqb_neq; lia).
  replace (code c =? 43) with false by (symmetry; apply Z.eqb_neq; lia).
  replace (code c =? 48) with false by (symmetry; apply Z.eqb_neq; lia).
  change (0 =? 0) with true. cbv iota. rewrite Hs.
  replace (LONG_MAX <? Z.pos p) with true by (symmetry; apply Z.ltb_lt; lia).
  reflexivity.
Qed.

Lemma strtol_overflow_neg (p : positive) :
  Z.neg p < LONG_MIN ->
  pattern2long (String "-" (NilEmpty.string_of_uint (Pos.to_uint p))) = None.
Proof.
  intros Hmin. destruct (scan_printed p) as (c & r & nd & -> & Hc & Hs).
  unfold pattern2long, strtol. cbn [skip_space].
  change (isspace "-") with false. cbv iota.
  change (code "-" =? 45) with true. cbv iota.
  replace (code c =? 48) with false by (symmetry; apply Z.eqb_neq; lia).
  change (0 =? 0) with true. cbv iota. rewrite Hs.
  replace (- LONG_MIN <? Z.pos p) with true
    by (symmetry; apply Z.ltb_lt; unfold LONG_MIN in *; lia).
  reflexivity.
Qed.

(** A decimal literal beyond the range of a C [long], on either side, is
    rejected: [strtol] clamps it to [LONG_MAX] or [LONG_MIN] with ERANGE,
    and [pattern2long] does not pass the clamped value on. *)
Theorem pattern2long_rejects_overflow (n : Z) :
  n < LONG_MIN \/ LONG_MAX < n -> pattern2long (fmt_d n) = None.
Proof.
  intros H. unfold fmt_d. destruct n as [|p|p]; cbn [Z.to_int].
  - unfold LONG_MIN, LONG_MAX in H. lia.
  - cbn [NilZero.string_of_int]. unfold NilZero.string_of_uint.
    pose proof (DecimalPos.Unsigned.to_uint_nonnil p) as Hn.
    destruct (Pos.to_uint p) eqn:E; try contradiction;
      rewrite <- E; apply strtol_overflow_pos;
      unfold LONG_MIN, LONG_MAX in *; lia.
  - cbn [NilZero.string_of_int]. unfold NilZero.string_of_uint.
    pose proof (DecimalPos.Unsigned.to_uint_nonnil p) as Hn.
    destruct (Pos.to_uint p) eqn:E; try contradiction;
      rewrite <- E; apply strtol_overflow_neg;
      unfold LONG_MIN, LONG_MAX in *; lia.
Qed.

Lemma pattern2long_rejects_overflow_witness :
  fmt_d (LONG_MAX + 1) = "9223372036854775808" /\
  pattern2long "9223372036854775808" = None /\
  pattern2long (fmt_d (LONG_MIN - 1)) = None.
Proof.
  split; [reflexivity|]. split.
  - apply (pattern2long_rejects_overflow (LONG_MAX + 1)).
    right. unfold LONG_MAX. lia.
  - apply (pattern2long_rejects_overflow (LONG_MIN - 1)).
    left. unfold LONG_MIN. lia.
Defined.

(** [pattern2long] reads back every [long] from its decimal form
    ([fmt_d]): the decimal literals of the whole range, both ends
    included, are accepted with their value. *)
Theorem pattern2long_reads_decimal (n : Z) :
  LONG_MIN <= n <= LONG_MAX -> pattern2long (fmt_d n) = Some n.
Proof.
  intros [Hmin Hmax]. unfold fmt_d. destruct n as [|p|p]; cbn [Z.to_int].
  - reflexivity.
  - cbn [NilZero.string_of_int]. unfold NilZero.string_of_uint.
    pose proof (DecimalPos.Unsigned.to_uint_nonnil p) as Hn.
    destruct (Pos.to_uint p) eqn:E; try contradiction;
      rewrite <- E; now apply strtol_printed_pos.
  - cbn [NilZero.string_of_int]. unfold NilZero.string_of_uint.
    pose proof (DecimalPos.Unsigned.to_uint_nonnil p) as Hn.
    destruct (Pos.to_uint p) eqn:E; try contradiction;
      rewrite <- E; now apply strtol_printed_neg.
Qed.

Lemma pattern2long_reads_decimal_witness :
  pattern2long (fmt_d (-30)) = Some (-30).
Proof.
  apply (pattern2long_reads_decimal (-30)).
  unfold LONG_MIN, LONG_MAX. lia.
Defined.

(** ** The pattern resolver and letter case *)

Lemma strcasecmp_lower_r (s p q : string) :
  lower p = lower q -> strcasecmp s p = strcasecmp s q.
Proof.
  revert p q. induction s as [|c s IH]; intros [|d p] [|e q] H;
    cbn [lower] in H; try discriminate; cbn [strcasecmp]; try reflexivity;
    injection H as Hc Hr; rewrite Hc; try reflexivity.
  now rewrite (IH p q Hr).
Qed.

Lemma strncasecmp_lower_r (n : nat) (s p q : string) :
  lower p = lower q -> strncasecmp s p n = strncasecmp s q n.
Proof.
  revert s p q. induction n as [|n IH]; intros s p q H;
    [destruct s; reflexivity|].
  destruct s as [|c s]; destruct p as [|d p]; destruct q as [|e q];
    cbn [lower] in H; try discriminate; cbn [strncasecmp]; try reflexivity;
    injection H as Hc Hr; rewrite Hc; try reflexivity.
  now rewrite (IH s p q Hr).
Qed.

Lemma case_variant_length (p q : string) :
  case_variant p q -> String.length p = String.length q.
Proof. induction 1; cbn [String.length]; congruence. Qed.

Lemma case_variant_str_offset (n : nat) (p q : string) :
  case_variant p q -> case_variant (str_offset n p) (str_offset n q).
Proof.
  intros H. revert n. induction H as [|c d s t Hcd Hst IH]; intros [|n];
    cbn [str_offset]; try constructor; auto.
Qed.

Lemma case_variant_substring (n m : nat) (p q : string) :
  case_variant p q -> case_variant (substring n m p) (substring n m q).
Proof.
  intros H. revert n m.
  induction H as [|c d s t Hcd Hst IH]; intros n m.
  - destruct n, m; cbn [substring]; constructor.
  - destruct n as [|n]; [destruct m as [|m]|]; cbn [substring].
    + constructor.
    + constructor; auto.
    + apply IH.
Qed.

Lemma case_variant_refl (s : string) : case_variant s s.
Proof. induction s; constructor; [left; reflexivity | assumption]. Qed.

Lemma str2class_from_lower (tbl : list (string * Z)) (p q : string) :
  lower p = lower q -> str2class_from tbl p = str2class_from tbl q.
Proof.
  intros H. induction tbl as [|[name cls] tbl IH]; [reflexivity|].
  cbn [str2class_from]. now rewrite (strcasecmp_lower_r name p q H), IH.
Qed.

(** The resolver does not look at letter case: two patterns that differ
    only in case name the same service class and are accepted or
    rejected together.  A friendly name resolves to the same UUID string
    in every case; a UUID string is handed on as it was written. *)
Theorem resolver_ignores_case (p q : string) (size : nat) :
  case_variant p q ->
  str2class p = str2class q /\
  match pattern2uuid128 p size, pattern2uuid128 q size with
  | Some u, Some u' => case_variant u u' /\ (str2class p <> 0 -> u = u')
  | None, None => True
  | _, _ => False
  end.
Proof.
  intros H. pose proof (case_variant_lower _ _ H) as Hl.
  assert (Hc : str2class p = str2class q)
    by (apply str2class_from_lower; exact Hl).
  split; [exact Hc|].
  unfold pattern2uuid128, strlen. rewrite <- Hc.
  rewrite <- (case_variant_length _ _ H).
  rewrite <- (strncasecmp_lower_r 3 BASE_UUID p q Hl).
  rewrite <- (strncasecmp_lower_r 28 (str_offset 8 BASE_UUID)
                (str_offset 8 p) (str_offset 8 q))
    by (apply case_variant_lower, case_variant_str_offset, H).
  destruct (negb (str2class p =? 0)) eqn:E.
  - split; [apply case_variant_refl | reflexivity].
  - destruct ((Z.of_nat (String.length p) =? 36)
              && (strncasecmp BASE_UUID p 3 =? 0)
              && (strncasecmp (str_offset 8 BASE_UUID) (str_offset 8 p) 28 =? 0));
      [|exact I].
    split; [now apply case_variant_substring|].
    intros Hn. apply negb_false_iff, Z.eqb_eq in E. contradiction.
Qed.

Lemma resolver_ignores_case_witness :
  str2class "dun" = str2class "DuN".
Proof.
  apply (resolver_ignores_case "dun" "DuN" 37). case_variant_lit.
Defined.

(** ** Resolved UUID strings *)

Lemma str2class_from_in (tbl : list (string * Z)) (p : string) :
  str2class_from tbl p = 0 \/ In (str2class_from tbl p) (map snd tbl).
Proof.
  induction tbl as [|[name cls] tbl IH]; [now left|].
  cbn [str2class_from map snd].
  destruct (strcasecmp name p =? 0); [right; now left|].
  destruct IH; [now left | right; now right].
Qed.

Lemma substring_all (s : string) (n : nat) :
  (String.length s <= n)%nat -> substring 0 n s = s.
Proof.
  revert n. induction s as [|c s IH]; intros [|n] H; cbn [substring];
    cbn [String.length] in H; try reflexivity; try lia.
  rewrite IH by lia. reflexivity.
Qed.

(** What the resolver returns is a fixed point of the resolver: the
    string has the 36 characters of a 128-bit UUID and, given back as a
    pattern, resolves to itself. *)
Theorem resolved_uuid_is_canonical (p u : string) :
  pattern2uuid128 p MAX_LEN_UUID_STR = Some u ->
  strlen u = 36 /\ pattern2uuid128 u MAX_LEN_UUID_STR = Some u.
Proof.
  unfold pattern2uuid128 at 1.
  destruct (negb (str2class p =? 0)) eqn:E.
  - intros H. inversion H as [Hu]. clear H.
    apply negb_true_iff, Z.eqb_neq in E.
    destruct (str2class_from_in serial_services p) as [H0|Hin];
      [contradiction|].
    fold (str2class p) in Hin. cbn [serial_services map snd In] in Hin.
    repeat (destruct Hin as [<-|Hin]; [vm_compute; auto|]).
    contradiction.
  - destruct (strlen p =? 36) eqn:El; [|discriminate].
    destruct (strncasecmp BASE_UUID p 3 =? 0) eqn:E3; [|discriminate].
    destruct (strncasecmp (str_offset 8 BASE_UUID) (str_offset 8 p) 28 =? 0)
      eqn:E28; [|discriminate].
    cbn [andb]. intros H. inversion H as [Hu]. clear H.
    apply Z.eqb_eq in El.
    rewrite substring_all by (unfold strlen, MAX_LEN_UUID_STR in *; lia).
    split; [exact El|].
    unfold pattern2uuid128. rewrite E, E3, E28.
    rewrite El. cbn [Z.eqb Pos.eqb andb].
    rewrite substring_all by (unfold strlen, MAX_LEN_UUID_STR in *; lia).
    reflexivity.
Qed.

Lemma resolved_uuid_is_canonical_witness :
  pattern2uuid128 "00001101-0000-1000-8000-00805f9b34fb" MAX_LEN_UUID_STR
  = Some "00001101-0000-1000-8000-00805f9b34fb".
Proof.
  apply (resolved_uuid_is_canonical "SPP"). reflexivity.
Defined.

(** ** The stored line settings *)

Module SerialBits.
Import Proxy ProxySpec TermiosBits.

Ltac bitwise n :=
  apply Z.bits_inj'; intros n ?;
  repeat rewrite ?Z.land_spec, ?Z.lor_spec, ?Z.ldiff_spec, ?Z.bits_0.

Ltac bit_of H n :=
  let F := fresh "B" in
  pose proof (f_equal (fun z => Z.testbit z n) H) as F; cbv beta in F;
  repeat rewrite ?Z.land_spec, ?Z.lor_spec, ?Z.ldiff_spec, ?Z.bits_0 in F.

Ltac bools :=
  repeat match goal with
         | |- context [Z.testbit ?a ?n] => destruct (Z.testbit a n)
         | H : context [Z.testbit ?a ?n] |- _ => destruct (Z.testbit a n)
         end; cbn in *; congruence.

Lemma field_set_sub (M V x y M' : Z) :
  field_set M V x y -> Z.land M' M = M' -> Z.land y M' = Z.land V M'.
Proof.
  intros [HV ->] HM. bitwise n. bit_of HV n. bit_of HM n. bools.
Qed.

Lemma field_set_read (M V x y : Z) : field_set M V x y -> Z.land y M = V.
Proof.
  intros H. rewrite (field_set_sub M V x y M H (Z.land_diag M)). apply H.
Qed.

Lemma field_set_keep (M V x y M' : Z) :
  field_set M V x y -> Z.land M M' = 0 -> Z.land y M' = Z.land x M'.
Proof.
  intros [HV ->] HM. bitwise n. bit_of HV n. bit_of HM n. bools.
Qed.

Lemma field_set_lor (x V : Z) : field_set V V x (Z.lor x V).
Proof. split; [apply Z.land_diag|]. bitwise n. bools. Qed.

Lemma field_set_ldiff (x M : Z) : field_set M 0 x (Z.ldiff x M).
Proof. split; [reflexivity|]. now rewrite Z.lor_0_r. Qed.

Lemma set_databits_field (databits c c' : Z) :
  set_databits databits c = Some c' ->
  field_set CSIZE (16 * (databits - 5)) c c'.
Proof.
  unfold set_databits.
  destruct ((databits <? 5) || (8 <? databits)) eqn:E; [discriminate|].
  apply orb_false_iff in E as [E1 E2].
  apply Z.ltb_ge in E1. apply Z.ltb_ge in E2.
  assert (H : databits = 5 \/ databits = 6 \/ databits = 7 \/ databits = 8)
    by lia.
  destruct H as [-> | [-> | [-> | ->]]]; cbn [Z.eqb Pos.eqb];
    intros H; inversion H; split; reflexivity.
Qed.

Lemma set_stopbits_field (stopbits c c' : Z) :
  set_stopbits stopbits c = Some c' ->
  field_set CSTOPB ((stopbits - 1) * CSTOPB) c c'.
Proof.
  unfold set_stopbits.
  destruct (stopbits =? 1) eqn:E1; [|destruct (stopbits =? 2) eqn:E2].
  - apply Z.eqb_eq in E1. subst. intros H. inversion H.
    apply field_set_ldiff.
  - apply Z.eqb_eq in E2. subst. intros H. inversion H.
    apply field_set_lor.
  - discriminate.
Qed.

(** Names that differ in their first letter are not both equal to the
    same string. *)
Lemma names_apart (a b : ascii) (s t parity : string) :
  tolower a <> tolower b ->
  strcasecmp (String a s) parity = 0 ->
  (strcasecmp (String b t) parity =? 0) = false.
Proof.
  intros Hab Ha. apply Z.eqb_neq. intros Hb. apply Hab.
  destruct parity as [|d p]; cbn [strcasecmp] in Ha, Hb; [congruence|].
  destruct (tolower a =? tolower d) eqn:Ea;
    [apply Z.eqb_eq in Ea | apply Z.eqb_neq in Ea; lia].
  destruct (tolower b =? tolower d) eqn:Eb;
    [apply Z.eqb_eq in Eb | apply Z.eqb_neq in Eb; lia].
  congruence.
Qed.

Ltac apart E :=
  match type of E with
  | strcasecmp (String ?a ?s) ?p = 0 =>
      rewrite (names_apart a "n" s "one" p
                 ltac:(vm_compute; discriminate) E),
              (names_apart a "s" s "pace" p
                 ltac:(vm_compute; discriminate) E)
  end.

Lemma field_set_lor_ldiff (x A B : Z) :
  field_set (Z.lor A B) (Z.ldiff A B) x (Z.ldiff (Z.lor x A) B).
Proof. split; bitwise n; bools. Qed.

Lemma set_parity_field (parity : string) (c c' : Z) :
  set_parity parity c = Some c' ->
  exists M V,
    field_set M V c c' /\ (M = Z.lor PARENB PARODD \/ M = PARENB) /\
    Z.land V PARENB = (if no_parity parity then 0 else PARENB).
Proof.
  unfold set_parity, no_parity.
  destruct (strcasecmp "even" parity =? 0) eqn:Eeven;
    [|destruct (strcasecmp "odd" parity =? 0) eqn:Eodd;
      [|destruct (strcasecmp "mark" parity =? 0) eqn:Emark]].
  - apply Z.eqb_eq in Eeven.
    apart Eeven.
    intros H. inversion H. do 2 eexists. split; [|split].
    + apply field_set_lor_ldiff.
    + left. reflexivity.
    + reflexivity.
  - apply Z.eqb_eq in Eodd.
    apart Eodd.
    intros H. inversion H. do 2 eexists. split; [|split].
    + rewrite <- Z.lor_assoc. apply field_set_lor.
    + left. reflexivity.
    + reflexivity.
  - apply Z.eqb_eq in Emark.
    apart Emark.
    intros H. inversion H. do 2 eexists. split; [|split].
    + apply field_set_lor.
    + right. reflexivity.
    + reflexivity.
  - destruct ((strcasecmp "none" parity =? 0)
              || (strcasecmp "space" parity =? 0)); [|discriminate].
    intros H. inversion H. do 2 eexists. split; [|split].
    + apply field_set_ldiff.
    + right. reflexivity.
    + reflexivity.
Qed.

Lemma str2speed_from_in (tbl : list (string * Z)) (rate : string) :
  str2speed_from tbl rate = B0 \/
  In (str2speed_from tbl rate) (map snd tbl).
Proof.
  induction tbl as [|[s v] tbl IH]; [now left|].
  cbn [str2speed_from map snd].
  destruct (negb (strcmp s rate =? 0)); [|right; now left].
  destruct IH; [now left | right; now right].
Qed.

(** The speeds of the table are accepted by [cfsetispeed] and
    [cfsetospeed] and fit in the speed bits. *)
Lemma table_speed (speed : Z) :
  In speed (map snd supported_speed) ->
  speed_rejected speed = false /\ (speed =? 0) = false /\
  Z.land speed (Z.lor CBAUD CBAUDEX) = speed.
Proof.
  unfold supported_speed. cbn [map snd In]. intros H.
  repeat (destruct H as [<- | H]; [repeat split|]).
  contradiction.
Qed.

(** After a SetSerialParameters call that succeeded, the control flags
    kept for the next open of the device encode the request field by
    field: the character size, the second stop bit, parity enabled
    unless the name was "none" or "space", the receiver enabled and modem
    lines ignored, and the rate of the table in the speed bits and in
    both speed members.  The bits outside these fields, the other flag
    words and the system settings are what they were. *)
Theorem stored_settings_encode_request (rate : string)
    (databits stopbits : Z) (parity : string) (prx prx' : proxy) :
  proxy_set_serial_params (Some (rate, databits, stopbits, parity)) prx
  = (MethodReturn [], prx') ->
  let old := proxy_ti prx in
  let new := proxy_ti prx' in
  Z.land (c_cflag new) CSIZE = 16 * (databits - 5) /\
  Z.land (c_cflag new) CSTOPB = (stopbits - 1) * CSTOPB /\
  Z.land (c_cflag new) PARENB = (if no_parity parity then 0 else PARENB) /\
  Z.land (c_cflag new) (Z.lor CLOCAL CREAD) = Z.lor CLOCAL CREAD /\
  Z.land (c_cflag new) (Z.lor CBAUD CBAUDEX) = str2speed rate /\
  c_ispeed new = str2speed rate /\
  c_ospeed new = str2speed rate /\
  Z.ldiff (c_cflag new) LINE_BITS = Z.ldiff (c_cflag old) LINE_BITS /\
  c_oflag new = c_oflag old /\ c_lflag new = c_lflag old /\
  sys_ti prx' = sys_ti prx.
Proof.
  unfold proxy_set_serial_params.
  destruct (negb (local_watch prx =? 0)); [discriminate|].
  destruct (str2speed rate =? B0) eqn:Esp; [discriminate|].
  destruct (set_databits databits (c_cflag (proxy_ti prx))) as [c1|] eqn:E1;
    [|discriminate].
  destruct (set_stopbits stopbits c1) as [c2|] eqn:E2; [|discriminate].
  destruct (set_parity parity c2) as [c3|] eqn:E3; [|discriminate].
  intros H. inversion H as [Hp]. clear H Hp. cbv zeta.
  cbn [proxy_ti set_proxy_ti sys_ti set_cflag c_cflag].
  apply Z.eqb_neq in Esp.
  destruct (str2speed_from_in supported_speed rate) as [H0|Hin];
    [contradiction|].
  fold (str2speed rate) in Hin.
  destruct (table_speed _ Hin) as (Hrej & Hnz & Hfit).
  unfold cfsetospeed, cfsetispeed. cbn [c_cflag set_cflag].
  rewrite Hrej, Hnz.
  cbn [c_cflag c_iflag c_oflag c_lflag c_ispeed c_ospeed].
  set (sp := str2speed rate) in *.
  set (c4 := Z.lor c3 (Z.lor CLOCAL CREAD)).
  set (c5 := Z.lor (Z.ldiff c4 (Z.lor CBAUD CBAUDEX)) sp).
  set (c6 := Z.lor (Z.ldiff c5 (Z.lor CBAUD CBAUDEX)) sp).
  pose proof (set_databits_field _ _ _ E1) as F1.
  pose proof (set_stopbits_field _ _ _ E2) as F2.
  destruct (set_parity_field _ _ _ E3) as (Mp & Vp & F3 & HMp & HVp).
  assert (F4 : field_set (Z.lor CLOCAL CREAD) (Z.lor CLOCAL CREAD) c3 c4)
    by apply field_set_lor.
  assert (F5 : field_set (Z.lor CBAUD CBAUDEX) sp c4 c5)
    by (split; [exact Hfit | reflexivity]).
  assert (F6 : field_set (Z.lor CBAUD CBAUDEX) sp c5 c6)
    by (split; [exact Hfit | reflexivity]).
  assert (Hstop : Z.land ((stopbits - 1) * CSTOPB) CSTOPB
                  = (stopbits - 1) * CSTOPB) by apply F2.
  match goal with |- context [Z.land ?t CSIZE] => change t with c6 end.
  repeat split.
  - rewrite (field_set_keep _ _ _ _ CSIZE F6) by reflexivity.
    rewrite (field_set_keep _ _ _ _ CSIZE F5) by reflexivity.
    rewrite (field_set_keep _ _ _ _ CSIZE F4) by reflexivity.
    rewrite (field_set_keep _ _ _ _ CSIZE F3)
      by (destruct HMp as [-> | ->]; reflexivity).
    rewrite (field_set_keep _ _ _ _ CSIZE F2) by reflexivity.
    apply (field_set_read _ _ _ _ F1).
  - rewrite (field_set_keep _ _ _ _ CSTOPB F6) by reflexivity.
    rewrite (field_set_keep _ _ _ _ CSTOPB F5) by reflexivity.
    rewrite (field_set_keep _ _ _ _ CSTOPB F4) by reflexivity.
    rewrite (field_set_keep _ _ _ _ CSTOPB F3)
      by (destruct HMp as [-> | ->]; reflexivity).
    apply (field_set_read _ _ _ _ F2).
  - rewrite (field_set_keep _ _ _ _ PARENB F6) by reflexivity.
    rewrite (field_set_keep _ _ _ _ PARENB F5) by reflexivity.
    rewrite (field_set_keep _ _ _ _ PARENB F4) by reflexivity.
    rewrite (field_set_sub _ _ _ _ PARENB F3)
      by (destruct HMp as [-> | ->]; reflexivity).
    exact HVp.
  - rewrite (field_set_keep _ _ _ _ (Z.lor CLOCAL CREAD) F6) by reflexivity.
    rewrite (field_set_keep _ _ _ _ (Z.lor CLOCAL CREAD) F5) by reflexivity.
    apply (field_set_read _ _ _ _ F4).
  - apply (field_set_read _ _ _ _ F6).
  - rewrite !Z.ldiff_land.
    rewrite (field_set_keep _ _ _ _ (Z.lnot LINE_BITS) F6) by reflexivity.
    rewrite (field_set_keep _ _ _ _ (Z.lnot LINE_BITS) F5) by reflexivity.
    rewrite (field_set_keep _ _ _ _ (Z.lnot LINE_BITS) F4) by reflexivity.
    rewrite (field_set_keep _ _ _ _ (Z.lnot LINE_BITS) F3)
      by (destruct HMp as [-> | ->]; reflexivity).
    rewrite (field_set_keep _ _ _ _ (Z.lnot LINE_BITS) F2) by reflexivity.
    apply (field_set_keep _ _ _ _ (Z.lnot LINE_BITS) F1). reflexivity.
Qed.

Lemma stored_settings_encode_request_witness :
  Z.land
    (c_cflag (proxy_ti (snd (proxy_set_serial_params
                               (Some ("115200", 7, 2, "Even")) tty_proxy))))
    CSIZE = 32.
Proof.
  apply (stored_settings_encode_request "115200" 7 2 "Even" tty_proxy).
  reflexivity.
Defined.

End SerialBits.

(** ** Enabling and disabling a proxy *)

Module ProxyControlFacts.
Import Proxy ProxyControl ProxyControlSpec.

(** [rfcomm_listen] fails with the socket closed and the channel
    untouched, or succeeds with the socket bound, listening and open and
    the channel read back from the socket. *)
Theorem rfcomm_listen_all_or_nothing (r : listen_res) (src : Z)
    (channel : option Z) (opts : Z) :
  let '(ret, channel', evs) := rfcomm_listen r src channel opts in
  (exists e, ret = - Z.pos e /\ channel' = channel /\ sockets_closed evs)
  \/
  (exists sk, ret = sk /\ l_socket r = SysOk sk /\
     In (CBind sk src (match channel with Some c => c | None => 0 end)) evs /\
     In (CListen sk 1) evs /\ filter is_cclose evs = [] /\
     match channel with
     | None => channel' = None
     | Some _ => exists c, l_getsockname r = SysOk c /\ channel' = Some (uint8 c)
     end).
Proof.
  unfold rfcomm_listen, sockets_closed.
  destruct (l_socket r) as [sk|e]; [|left; exists e; cbn; intuition].
  destruct (l_setsockopt r) as [?|e];
    [|left; exists e; cbn; intuition (try discriminate; congruence)].
  destruct (l_bind r) as [?|e];
    [|left; exists e; cbn; intuition (try discriminate; congruence)].
  destruct (l_listen r) as [?|e];
    [|left; exists e; cbn; intuition (try discriminate; congruence)].
  destruct channel as [c0|].
  - destruct (l_getsockname r) as [c|e];
      [|left; exists e; cbn; intuition (try discriminate; congruence)].
    right. exists sk. cbn. intuition eauto.
  - right. exists sk. cbn. intuition eauto.
Qed.

Lemma rfcomm_listen_cases (r : listen_res) (src c0 opts : Z) :
  sane r ->
  (exists e evs, rfcomm_listen r src (Some c0) opts
                 = (- Z.pos e, Some c0, evs) /\
                 sockets_closed evs /\ filter is_add_watch_full evs = [])
  \/
  (exists sk c, rfcomm_listen r src (Some c0) opts
                = (sk, Some (uint8 c),
                   [CSocket sk; CSetsockopt sk opts; CBind sk src c0;
                    CListen sk 1; CGetsockname sk]) /\
                0 <= sk /\ l_socket r = SysOk sk /\
                l_getsockname r = SysOk c).
Proof.
  intros Hsane. unfold rfcomm_listen, sockets_closed.
  destruct (l_socket r) as [sk|e] eqn:Es;
    [|left; exists e; eexists; cbn; intuition].
  destruct (l_setsockopt r) as [?|e];
    [|left; exists e; eexists; split; [reflexivity|]; cbn;
      intuition (try discriminate; congruence)].
  destruct (l_bind r) as [?|e];
    [|left; exists e; eexists; split; [reflexivity|]; cbn;
      intuition (try discriminate; congruence)].
  destruct (l_listen r) as [?|e];
    [|left; exists e; eexists; split; [reflexivity|]; cbn;
      intuition (try discriminate; congruence)].
  destruct (l_getsockname r) as [c|e];
    [|left; exists e; eexists; split; [reflexivity|]; cbn;
      intuition (try discriminate; congruence)].
  right. exists sk, c. split; [reflexivity|]. auto.
Qed.

(** Enable on a disabled proxy either succeeds, and then the proxy
    listens on an open socket with its record published, or fails, and
    then the proxy is still disabled, every socket opened has been
    closed and no watch was added.  The watches of a connection are not
    touched either way. *)
Theorem enable_all_or_nothing (r : listen_res) (prx : proxy) :
  sane r -> listen_watch prx = 0 ->
  (enabled_by r prx (proxy_enable r prx) \/
   enable_refused (proxy_enable r prx)) /\
  rfcomm_watch (snd (fst (proxy_enable r prx))) = rfcomm_watch prx /\
  local_watch (snd (fst (proxy_enable r prx))) = local_watch prx.
Proof.
  intros Hsane Hoff. unfold proxy_enable. rewrite Hoff. cbn [Z.eqb negb].
  destruct (rfcomm_listen_cases r (src prx) (channel prx) 0 Hsane)
    as [(e & evs & -> & Hclosed & Hnone) | (sk & c & -> & Hsk & Es & Ec)].
  - cbn [Z.ltb Z.compare Z.opp]. split; [|split; reflexivity].
    right. unfold enable_refused. cbn [set_channel listen_watch]. eauto.
  - apply Z.ltb_ge in Hsk. rewrite Hsk.
    cbn [set_channel set_record_id record_id channel uuid128].
    destruct (uint32 (l_add_record r) =? 0) eqn:Erec;
      (split; [|split; reflexivity]).
    + right. unfold enable_refused. cbn [listen_watch].
      split; [eauto | split; [exact Hoff | split; [|reflexivity]]].
      intros sk' Hin. cbn in Hin |- *.
      intuition (try discriminate; congruence).
    + left. unfold enabled_by.
      cbn [set_listen_watch listen_watch record_id channel].
      apply Z.eqb_neq in Erec.
      repeat (split; [solve [auto]|]).
      exists sk, c. cbn. intuition.
Qed.

Lemma enable_all_or_nothing_witness :
  (enabled_by listen_ok socket_proxy (proxy_enable listen_ok socket_proxy) \/
   enable_refused (proxy_enable listen_ok socket_proxy)) /\
  rfcomm_watch (snd (fst (proxy_enable listen_ok socket_proxy))) = 0 /\
  local_watch (snd (fst (proxy_enable listen_ok socket_proxy))) = 0.
Proof.
  apply (enable_all_or_nothing listen_ok socket_proxy).
  - intros sk Hs. inversion Hs. lia.
  - reflexivity.
Defined.

(** Disable after a successful Enable: the listen watch is removed, the
    record that Enable published is the one withdrawn, and the proxy is
    back where it was before Enable, but for the channel, which keeps
    the value read back from the socket.  A second Disable is refused,
    and so is a second Enable while the proxy is enabled. *)
Theorem disable_undoes_enable (r r' : listen_res) (prx prx1 : proxy)
    (evs : list cevent) :
  listen_watch prx = 0 ->
  proxy_enable r prx = (MethodReturn [], prx1, evs) ->
  proxy_enable r' prx1 = (ErrFailed "Already enabled", prx1, []) /\
  exists prx2,
    proxy_disable prx1
    = (MethodReturn [], prx2,
       [CSourceRemove (listen_watch prx1)]
       ++ (if negb (rfcomm_watch prx =? 0)
           then [CSourceRemove (rfcomm_watch prx)] else [])
       ++ (if negb (local_watch prx =? 0)
           then [CSourceRemove (local_watch prx)] else [])
       ++ [CRemoveRecord (uint32 (l_add_record r))]) /\
    prx2 = set_record_id 0 (set_watches 0 0 (set_channel (channel prx1) prx)) /\
    proxy_disable prx2 = (ErrFailed "Not enabled", prx2, []).
Proof.
  intros Hoff. unfold proxy_enable at 1. rewrite Hoff. cbn [Z.eqb negb].
  destruct (rfcomm_listen r (src prx) (Some (channel prx)) 0)
    as [[sk ch] evs0].
  destruct (sk <? 0); [intros H; inversion H|].
  match goal with
  | |- context [record_id ?p =? 0] => destruct (record_id p =? 0) eqn:Erec
  end; [intros H; inversion H|].
  intros H. injection H as <- <-.
  split; [reflexivity|].
  destruct ch; (eexists; split; [|split]);
    [ reflexivity | destruct prx; cbn in Hoff; subst; reflexivity
    | reflexivity
    | reflexivity | destruct prx; cbn in Hoff; subst; reflexivity
    | reflexivity ].
Qed.

Lemma disable_undoes_enable_witness :
  exists prx2,
    proxy_disable (snd (fst (proxy_enable listen_ok socket_proxy)))
    = (MethodReturn [], prx2, [CSourceRemove 11; CRemoveRecord 65540]) /\
    prx2 = set_record_id 0 (set_watches 0 0 (set_channel 3 socket_proxy)) /\
    proxy_disable prx2 = (ErrFailed "Not enabled", prx2, []).
Proof.
  apply (disable_undoes_enable listen_ok listen_ok socket_proxy
           (snd (fst (proxy_enable listen_ok socket_proxy)))
           (snd (proxy_enable listen_ok socket_proxy)));
    reflexivity.
Defined.

(** An error condition on the listening socket disables the proxy: the
    listen watch is gone, the watches of a connection are removed, the
    record is withdrawn, and GetInfo reports the proxy neither enabled
    nor connected.  Without an error condition the dispatch leaves the
    proxy enabled, whatever the accept does. *)
Theorem listen_error_disables (r : accept_res) (chan cond : Z) (prx : proxy) :
  (Z.land cond (Z.lor G_IO_NVAL (Z.lor G_IO_ERR G_IO_HUP)) <> 0 ->
   exists prx' pevs cevs,
     listen_dispatch r chan cond prx = Some (prx', pevs, cevs) /\
     prx' = set_record_id 0 (set_watches 0 0 (set_listen_watch 0 prx)) /\
     (pevs = [] \/ pevs = [PChannelClose chan]) /\
     In (CRemoveRecord (record_id prx)) cevs /\
     (rfcomm_watch prx <> 0 -> In (CSourceRemove (rfcomm_watch prx)) cevs) /\
     (local_watch prx <> 0 -> In (CSourceRemove (local_watch prx)) cevs) /\
     In ("enabled", VBoolean false) (proxy_get_info prx') /\
     In ("connected", VBoolean false) (proxy_get_info prx')) /\
  (Z.land cond (Z.lor G_IO_NVAL (Z.lor G_IO_ERR G_IO_HUP)) = 0 ->
   forall prx' pevs cevs,
     listen_dispatch r chan cond prx = Some (prx', pevs, cevs) ->
     listen_watch prx' = listen_watch prx /\
     record_id prx' = record_id prx /\ cevs = []).
Proof.
  rewrite Z.land_lor_distr_r, Z.lor_eq_0_iff.
  unfold listen_dispatch, connect_event.
  destruct (Z.land cond G_IO_NVAL =? 0) eqn:En;
    [destruct (Z.land cond (Z.lor G_IO_ERR G_IO_HUP) =? 0) eqn:Ee|];
    cbn [negb].
  - apply Z.eqb_eq in En, Ee. split; [intros H; tauto|].
    intros _ prx' pevs cevs.
    destruct (a_accept r) as [rsk|e].
    + destruct (local_connect r (set_dst (a_peer r) prx)) as [[lsk evs]|];
        [|discriminate].
      destruct (lsk <? 0); intros H; inversion H; subst; auto.
    + intros H; inversion H; subst; auto.
  - apply Z.eqb_neq in Ee. split; [intros _|intros [_ H]; contradiction].
    do 3 eexists. split; [reflexivity|].
    unfold listen_watch_notify, proxy_get_info.
    cbn [set_listen_watch set_watches set_record_id rfcomm_watch local_watch
         record_id listen_watch Z.eqb negb].
    split; [reflexivity | split; [now right|]].
    split; [apply in_or_app; right; apply in_or_app; right; now left|].
    split; [|split; [|split]].
    + intros Hw. apply Z.eqb_neq in Hw. rewrite Hw. now left.
    + intros Hw. apply Z.eqb_neq in Hw. rewrite Hw.
      apply in_or_app; right. now left.
    + destruct (negb (_ =? 0)); cbn; auto 6.
    + destruct (negb (_ =? 0)); cbn; auto 6.
  - apply Z.eqb_neq in En. split; [intros _|intros [H _]; contradiction].
    do 3 eexists. split; [reflexivity|].
    unfold listen_watch_notify, proxy_get_info.
    cbn [set_listen_watch set_watches set_record_id rfcomm_watch local_watch
         record_id listen_watch Z.eqb negb].
    split; [reflexivity | split; [now left|]].
    split; [apply in_or_app; right; apply in_or_app; right; now left|].
    split; [|split; [|split]].
    + intros Hw. apply Z.eqb_neq in Hw. rewrite Hw. now left.
    + intros Hw. apply Z.eqb_neq in Hw. rewrite Hw.
      apply in_or_app; right. now left.
    + destruct (negb (_ =? 0)); cbn; auto 6.
    + destruct (negb (_ =? 0)); cbn; auto 6.
Qed.

(** A peer that is accepted and whose local side opens makes the proxy
    connected: the two forwarding watches are stored, the listen watch
    stays, GetInfo reports the connection with the peer's address, and
    SetSerialParameters is refused from then on.  Disable then removes
    the listen watch and both forwarding watches and withdraws the
    record. *)
Theorem accepted_peer_connects (r : accept_res) (chan cond rsk lsk : Z)
    (prx : proxy) (evs : list pevent) :
  Z.land cond G_IO_NVAL = 0 ->
  Z.land cond (Z.lor G_IO_ERR G_IO_HUP) = 0 ->
  a_accept r = SysOk rsk ->
  local_connect r (set_dst (a_peer r) prx) = Some (lsk, evs) ->
  0 <= lsk ->
  listen_watch prx <> 0 ->
  let rw := Z.pos (a_rfcomm_watch r) in
  let lw := Z.pos (a_local_watch r) in
  let prx' := set_watches rw lw (set_dst (a_peer r) prx) in
  listen_dispatch r chan cond prx
  = Some (prx', evs ++ [PAddWatch rw rsk lsk; PAddWatch lw lsk rsk], []) /\
  In ("enabled", VBoolean true) (proxy_get_info prx') /\
  In ("connected", VBoolean true) (proxy_get_info prx') /\
  In ("address", VString (ba2str (a_peer r))) (proxy_get_info prx') /\
  (forall args, proxy_set_serial_params args prx'
                = (ErrFailed "Not allowed", prx')) /\
  snd (proxy_disable prx')
  = [CSourceRemove (listen_watch prx); CSourceRemove rw; CSourceRemove lw;
     CRemoveRecord (record_id prx)].
Proof.
  intros Hn He Ha Hl Hlsk Hon. cbv zeta.
  unfold listen_dispatch, connect_event.
  rewrite Hn, He, Ha, Hl. cbn [Z.eqb negb].
  apply Z.ltb_ge in Hlsk. rewrite Hlsk.
  apply Z.eqb_neq in Hon.
  split; [reflexivity|].
  unfold proxy_get_info, proxy_set_serial_params, proxy_disable,
    listen_watch_notify.
  cbn [set_watches set_dst set_listen_watch set_record_id listen_watch
       rfcomm_watch local_watch record_id dst Z.eqb negb].
  rewrite Hon. cbn [negb snd app].
  repeat split.
  - destruct (negb (_ =? 0)); cbn; auto 6.
  - destruct (negb (_ =? 0)); cbn; auto 6.
  - destruct (negb (_ =? 0)); cbn; auto 8.
Qed.

Lemma accepted_peer_connects_witness :
  In ("connected", VBoolean true)
    (proxy_get_info
       (set_watches 21 22
          (set_dst 0x001122334455
             (snd (fst (proxy_enable listen_ok socket_proxy)))))).
Proof.
  apply (accepted_peer_connects accept_ok 14 1 12 13
           (snd (fst (proxy_enable listen_ok socket_proxy)))
           [PSocketUnix 13; PConnectUnix 13 "/bluez/proxy" true]);
    try reflexivity; try lia; discriminate.
Defined.

Lemma listen_error_disables_witness :
  exists prx' pevs cevs,
    listen_dispatch accept_ok 14 G_IO_HUP
      (snd (fst (proxy_enable listen_ok socket_proxy)))
    = Some (prx', pevs, cevs) /\
    In (CRemoveRecord 65540) cevs.
Proof.
  destruct (proj1 (listen_error_disables accept_ok 14 G_IO_HUP
                     (snd (fst (proxy_enable listen_ok socket_proxy)))))
    as (prx' & pevs & cevs & H & _ & _ & Hrec & _).
  - discriminate.
  - exists prx', pevs, cevs. split; [exact H | exact Hrec].
Defined.

End ProxyControlFacts.

(** ** Forwarding *)

Module ForwardingFacts.
Import Forwarding ForwardingSpec.

Lemma firstn_plus (A : Type) (a b : nat) (l : list A) :
  firstn (a + b) l = firstn a l ++ firstn b (skipn a l).
Proof.
  revert l. induction a as [|a IH]; intros l; [reflexivity|].
  destruct l as [|x l]; cbn [Nat.add firstn skipn app].
  - now rewrite firstn_nil.
  - now rewrite IH.
Qed.

Lemma channel_write_loop_sent (buf : list Byte.byte) (ws : list write_answer) :
  forall wbytes err sent ws',
    channel_write_loop ws buf wbytes (firstn wbytes buf) = Some (err, sent, ws') ->
    exists k, sent = firstn k buf /\
              (err = G_IO_ERROR_NONE -> (List.length buf <= k)%nat).
Proof.
  induction ws as [|[e written] ws IH]; intros wbytes err sent ws';
    cbn [channel_write_loop];
    destruct (Nat.ltb wbytes (List.length buf)) eqn:El.
  - discriminate.
  - intros H. inversion H. subst. exists wbytes. split; [reflexivity|].
    intros _. now apply Nat.ltb_ge in El.
  - destruct e; cbn [is_none negb].
    + rewrite <- firstn_plus. apply IH.
    + intros H. inversion H. subst. exists wbytes.
      split; [reflexivity | discriminate].
    + intros H. inversion H. subst. exists wbytes.
      split; [reflexivity | discriminate].
    + intros H. inversion H. subst. exists wbytes.
      split; [reflexivity | discriminate].
  - intros H. inversion H. subst. exists wbytes. split; [reflexivity|].
    intros _. now apply Nat.ltb_ge in El.
Qed.

Lemma channel_write_sent (ws ws' : list write_answer)
    (buf sent : list Byte.byte) (err : GIOError) :
  channel_write ws buf = Some (err, sent, ws') ->
  prefix_of sent buf /\ (err = G_IO_ERROR_NONE -> sent = buf).
Proof.
  intros H. destruct (channel_write_loop_sent buf ws 0 err sent ws' H)
    as (k & -> & Hk).
  split.
  - exists (skipn k buf). now rewrite firstn_skipn.
  - intros He. apply firstn_all2. auto.
Qed.

(** What [channel_write] has put on the channel when it returns is an
    initial segment of the buffer, and the whole buffer when it returns
    without error: partial writes lose, repeat and reorder nothing. *)
Theorem channel_write_sends_the_buffer (ws ws' : list write_answer)
    (buf sent : list Byte.byte) (err : GIOError) :
  channel_write ws buf = Some (err, sent, ws') ->
  prefix_of sent buf /\ (err = G_IO_ERROR_NONE -> sent = buf).
Proof. apply channel_write_sent. Qed.

Lemma channel_write_sends_the_buffer_witness :
  prefix_of [Byte.x61; Byte.x62; Byte.x63] [Byte.x61; Byte.x62; Byte.x63] /\
  (G_IO_ERROR_NONE = G_IO_ERROR_NONE ->
   [Byte.x61; Byte.x62; Byte.x63] = [Byte.x61; Byte.x62; Byte.x63]).
Proof.
  apply (channel_write_sends_the_buffer
           [(G_IO_ERROR_NONE, 1%nat); (G_IO_ERROR_NONE, 0%nat);
            (G_IO_ERROR_NONE, 2%nat)] []
           [Byte.x61; Byte.x62; Byte.x63]).
  reflexivity.
Defined.

Lemma channel_write_loop_progress (buf : list Byte.byte)
    (ws : list write_answer) :
  progressing ws ->
  forall wbytes sent,
    (List.length buf <= wbytes + List.length ws)%nat ->
    exists sent' ws',
      channel_write_loop ws buf wbytes sent
      = Some (G_IO_ERROR_NONE, sent', ws').
Proof.
  induction 1 as [|[e written] ws [He Hw] Hws IH]; intros wbytes sent Hlen;
    cbn [channel_write_loop];
    destruct (Nat.ltb wbytes (List.length buf)) eqn:El;
    try (do 2 eexists; reflexivity).
  - apply Nat.ltb_lt in El. cbn [List.length] in Hlen. lia.
  - cbn [fst snd] in He, Hw. subst e. cbn [is_none negb].
    apply IH. cbn [List.length] in Hlen. lia.
Qed.

Lemma channel_write_loop_stalls (buf : list Byte.byte) (n : nat) :
  forall wbytes sent,
    (wbytes < List.length buf)%nat ->
    channel_write_loop (repeat (G_IO_ERROR_NONE, 0%nat) n) buf wbytes sent
    = None.
Proof.
  induction n as [|n IH]; intros wbytes sent Hlt;
    cbn [repeat channel_write_loop];
    apply Nat.ltb_lt in Hlt; rewrite Hlt; [reflexivity|].
  cbn [is_none negb]. rewrite Nat.add_0_r. apply IH.
  now apply Nat.ltb_lt.
Qed.

(** [channel_write] returns, without error and with the whole buffer
    sent, once the channel has taken a byte or more in each of as many
    calls as the buffer has bytes.  It does not return while the channel
    takes nothing and reports no error: however often that answer is
    given, the loop is still running. *)
Theorem channel_write_returns_on_progress (ws : list write_answer)
    (buf : list Byte.byte) (n : nat) :
  progressing ws -> (List.length buf <= List.length ws)%nat ->
  (exists ws', channel_write ws buf = Some (G_IO_ERROR_NONE, buf, ws')) /\
  (buf <> [] ->
   channel_write (repeat (G_IO_ERROR_NONE, 0%nat) n) buf = None).
Proof.
  intros Hp Hlen. split.
  - destruct (channel_write_loop_progress buf ws Hp 0 [] Hlen)
      as (sent & ws' & H).
    exists ws'. unfold channel_write. rewrite H.
    destruct (channel_write_sent ws ws' buf sent _ H) as [_ E].
    now rewrite E.
  - intros Hne. apply channel_write_loop_stalls.
    destruct buf; [contradiction | cbn; lia].
Qed.

Lemma channel_write_returns_on_progress_witness :
  exists ws',
    channel_write [(G_IO_ERROR_NONE, 1%nat); (G_IO_ERROR_NONE, 1%nat)]
      [Byte.x61; Byte.x62]
    = Some (G_IO_ERROR_NONE, [Byte.x61; Byte.x62], ws').
Proof.
  apply (channel_write_returns_on_progress
           [(G_IO_ERROR_NONE, 1%nat); (G_IO_ERROR_NONE, 1%nat)]
           [Byte.x61; Byte.x62] 0).
  - repeat constructor.
  - cbn. lia.
Defined.

Lemma drain_sent (rs : list read_answer) :
  forall ws sent0 sent,
    drain rs ws sent0 = Some sent ->
    exists out, sent = sent0 ++ out /\ prefix_of out (List.concat (map snd rs)).
Proof.
  induction rs as [|[e data] rs IH]; intros ws sent0 sent;
    cbn [drain map snd List.concat]; [discriminate|].
  destruct (negb (is_none e) || Nat.eqb (List.length data) 0).
  - intros H. inversion H. subst. exists []. rewrite app_nil_r.
    split; [reflexivity|]. eexists. reflexivity.
  - destruct (channel_write ws data) as [[[werr out] ws']|] eqn:Ew;
      [|discriminate].
    destruct (channel_write_sent _ _ _ _ _ Ew)
      as [[rest Hrest] Hall].
    destruct (is_none werr) eqn:En.
    + intros H. destruct (IH _ _ _ H) as (out' & -> & [rest' Hp]).
      destruct werr; try discriminate.
      rewrite (Hall eq_refl) in *.
      exists (data ++ out'). rewrite app_assoc. split; [reflexivity|].
      exists rest'. rewrite Hp, app_assoc. reflexivity.
    + intros H. injection H as <-. exists out. split; [reflexivity|].
      exists (rest ++ List.concat (map snd rs)). rewrite Hrest at 1.
      now rewrite app_assoc.
Qed.

(** Whenever [forward_data] returns, the bytes it has put on the
    destination are an initial segment of the bytes read from the
    source.  The watch is kept only when the condition was clean and
    the one chunk read went out whole; the destination is closed exactly
    on a hang-up or error condition of a valid descriptor, after the
    attempt to forward what was left. *)
Theorem forward_data_forwards_what_it_reads (cond : Z)
    (rs : list read_answer) (ws : list write_answer) (keep closed : bool)
    (sent : list Byte.byte) :
  forward_data cond rs ws = Some (keep, sent, closed) ->
  prefix_of sent (List.concat (map snd rs)) /\
  (keep = true ->
   readable cond /\
   exists rs', rs = (G_IO_ERROR_NONE, sent) :: rs') /\
  (closed = true <-> hung_up cond).
Proof.
  unfold forward_data, hung_up, readable.
  destruct (Z.land cond G_IO_NVAL =? 0) eqn:En; cbn [negb].
  - apply Z.eqb_eq in En.
    destruct (Z.land cond (Z.lor G_IO_HUP G_IO_ERR) =? 0) eqn:Eh; cbn [negb].
    + apply Z.eqb_eq in Eh.
      destruct rs as [|[e data] rs']; [discriminate|].
      assert (Hclosed : false = true <->
                Z.land cond G_IO_NVAL = 0 /\
                Z.land cond (Z.lor G_IO_HUP G_IO_ERR) <> 0)
        by (split; [discriminate | intros [_ H]; contradiction]).
      destruct e; cbn [is_none negb];
        try (intros H; inversion H; subst;
             split; [eexists; reflexivity | split; [discriminate | exact Hclosed]]).
      destruct (channel_write ws data) as [[[werr out] ws']|] eqn:Ew;
        [|discriminate].
      destruct (channel_write_sent _ _ _ _ _ Ew)
        as [[rest Hrest] Hall].
      cbn [map snd List.concat].
      destruct werr; cbn [is_none negb]; intros H; inversion H;
        subst keep sent closed; clear H.
      all: split;
        [exists (rest ++ List.concat (map snd rs'));
         rewrite Hrest at 1; now rewrite app_assoc|].
      all: split; [|exact Hclosed].
      all: try discriminate.
      intros _. split; [auto|]. exists rs'. now rewrite (Hall eq_refl).
    + apply Z.eqb_neq in Eh.
      destruct (drain rs ws []) as [out|] eqn:Ed; [|discriminate].
      intros H. inversion H. subst.
      destruct (drain_sent _ _ _ _ Ed) as (out' & -> & Hp).
      split; [exact Hp | split; [discriminate|]]. tauto.
  - apply Z.eqb_neq in En. intros H. inversion H. subst.
    split; [eexists; reflexivity | split; [discriminate|]].
    split; [discriminate | intros [H0 _]; contradiction].
Qed.

Lemma forward_data_forwards_what_it_reads_witness :
  hung_up G_IO_HUP /\
  prefix_of [Byte.x61; Byte.x62]
    (List.concat (map snd (delivers [[Byte.x61]; [Byte.x62]]))).
Proof.
  pose proof (forward_data_forwards_what_it_reads G_IO_HUP
                (delivers [[Byte.x61]; [Byte.x62]])
                (takes_whole [[Byte.x61]; [Byte.x62]])
                false true [Byte.x61; Byte.x62] eq_refl) as (Hp & _ & Hc).
  split; [apply Hc; reflexivity | exact Hp].
Defined.

Lemma drain_delivers (chunks : list (list Byte.byte)) :
  Forall (fun d => d <> []) chunks ->
  forall ws sent,
    drain (delivers chunks) (takes_whole chunks ++ ws) sent
    = Some (sent ++ List.concat chunks).
Proof.
  unfold delivers, takes_whole.
  induction 1 as [|d chunks Hd Hall IH]; intros ws sent;
    cbn [map app drain List.concat is_none negb orb List.length Nat.eqb].
  - now rewrite app_nil_r.
  - destruct d as [|x d]; [contradiction|].
    cbn [List.length Nat.eqb].
    unfold channel_write. cbn [channel_write_loop List.length Nat.ltb Nat.leb].
    cbn [is_none negb Nat.add app skipn].
    replace (firstn (S (List.length d)) (x :: d)) with (x :: d)
      by (symmetry; apply (firstn_all (x :: d))).
    assert (Hend : forall out ws0,
              channel_write_loop ws0 (x :: d) (S (List.length d)) out
              = Some (G_IO_ERROR_NONE, out, ws0)).
    { intros out ws0. destruct ws0 as [|[e w] ws0]; cbn [channel_write_loop];
        replace (Nat.ltb (S (List.length d)) (List.length (x :: d)))
          with false
          by (symmetry; apply Nat.ltb_ge; cbn [List.length]; lia);
        reflexivity. }
    rewrite Hend. cbn [is_none]. rewrite IH, <- app_assoc. reflexivity.
Qed.

(** On a hang-up, what the source still delivers before its end of file
    is forwarded whole and in order, as long as the destination takes
    it; then the destination is closed and the watch is dropped. *)
Theorem hangup_forwards_the_rest (cond : Z) (chunks : list (list Byte.byte))
    (ws : list write_answer) :
  hung_up cond -> Forall (fun d => d <> []) chunks ->
  forward_data cond (delivers chunks) (takes_whole chunks ++ ws)
  = Some (false, List.concat chunks, true).
Proof.
  intros [Hn Hh] Hc. unfold forward_data.
  rewrite Hn. apply Z.eqb_neq in Hh. rewrite Hh. cbn [Z.eqb negb].
  now rewrite drain_delivers.
Qed.

Lemma hangup_forwards_the_rest_witness :
  forward_data G_IO_HUP (delivers [[Byte.x61]; [Byte.x62; Byte.x63]])
    (takes_whole [[Byte.x61]; [Byte.x62; Byte.x63]] ++ [])
  = Some (false, [Byte.x61; Byte.x62; Byte.x63], true).
Proof.
  apply (hangup_forwards_the_rest G_IO_HUP
           [[Byte.x61]; [Byte.x62; Byte.x63]] []).
  - split; [reflexivity | discriminate].
  - repeat constructor; discriminate.
Defined.

End ForwardingFacts.

(** ** The proxy registry *)

Module ProxyManagerFacts.
Import Proxy ProxyControl ProxyManager ProxyManagerSpec.

Lemma strcmp_refl (s : string) : strcmp s s = 0.
Proof. induction s; cbn [strcmp]; [reflexivity|]. now rewrite Z.eqb_refl. Qed.

Lemma new_mevents_app (st st' : mstate) (evs : list mevent) :
  mtrace st' = mtrace st ++ evs -> new_mevents st st' = evs.
Proof.
  intros H. unfold new_mevents. rewrite H.
  rewrite skipn_app, skipn_all, Nat.sub_diag. reflexivity.
Qed.

(** *** Lookups *)

Lemma lookup_none (objs : list (string * proxy)) (path : string) :
  get_object_user_data objs path = None <->
  Forall (fun a => strcmp (fst a) path <> 0) objs.
Proof.
  induction objs as [|[p prx] objs IH]; cbn [get_object_user_data].
  - split; [constructor | reflexivity].
  - destruct (strcmp p path =? 0) eqn:E.
    + apply Z.eqb_eq in E. split; [discriminate|].
      intros H. inversion H. contradiction.
    + apply Z.eqb_neq in E. rewrite IH. split.
      * intros H. constructor; assumption.
      * intros H. now inversion H.
Qed.

Lemma lookup_app_last (objs : list (string * proxy)) (path : string)
    (prx : proxy) :
  get_object_user_data objs path = None ->
  get_object_user_data (objs ++ [(path, prx)]) path = Some prx /\
  remove_object (objs ++ [(path, prx)]) path = objs /\
  remove_path (map fst objs ++ [path]) path = map fst objs.
Proof.
  induction objs as [|[p old] objs IH];
    cbn [get_object_user_data remove_object remove_path map fst app].
  - rewrite strcmp_refl. cbn [Z.eqb]. auto.
  - destruct (strcmp p path =? 0); [discriminate|]. intros H.
    destruct (IH H) as (-> & -> & ->). auto.
Qed.

Lemma find_path_last (l : list string) (path : string) :
  exists x, g_slist_find_custom (l ++ [path]) (fun x => strcmp x path)
            = Some x.
Proof.
  induction l as [|y l IH]; cbn [app g_slist_find_custom].
  - rewrite strcmp_refl. cbn [Z.eqb]. eauto.
  - destruct (strcmp y path =? 0); eauto.
Qed.

Lemma find_path_none (l : list string) (path : string) :
  Forall (fun x => strcmp x path <> 0) l ->
  g_slist_find_custom l (fun x => strcmp x path) = None.
Proof.
  induction 1 as [|y l Hy Hl IH]; cbn [g_slist_find_custom]; [reflexivity|].
  apply Z.eqb_neq in Hy. now rewrite Hy.
Qed.

(** *** CreateProxy *)

Lemma register_proxy_object_cases (r : mgr_res) (prx : proxy) (st : mstate) :
  let '(ret, path, st') := register_proxy_object r prx st in
  mtrace st' = mtrace st /\ sk_counter st' = sk_counter st + 1 /\
  ((ret = -1 /\ proxies_paths st' = proxies_paths st /\
    objects st' = objects st)
   \/
   (ret = 0 /\ proxies_paths st' = proxies_paths st ++ [path] /\
    objects st' = objects st ++ [(path, prx)] /\
    get_object_user_data (objects st) path = None)).
Proof.
  unfold register_proxy_object. cbv zeta. cbn [objects proxies_paths sk_counter
                                              mtrace].
  destruct (g_oom r); cbn [orb].
  - cbn [mtrace sk_counter proxies_paths objects]. auto 6.
  - destruct (get_object_user_data (objects st) _) eqn:E;
      cbn [mtrace sk_counter proxies_paths objects]; [auto 6|].
    split; [reflexivity | split; [reflexivity|]]. right. auto.
Qed.

Ltac finish_register Herr Etype pre :=
  let H := fresh "H" in
  match goal with
  | |- context [register_proxy_object ?r ?p ?s] =>
      pose proof (register_proxy_object_cases r p s) as H;
      destruct (register_proxy_object r p s) as [[? ?] ?]
  end;
  destruct H as (? & ? & [(-> & ? & ?) | (-> & ? & ? & ?)]);
  cbn [Z.ltb Z.compare];
  [ right; eapply Herr with (evs := pre);
    [ right; right; eauto
    | reflexivity
    | match goal with
      | Ht : mtrace _ = _ |- _ =>
          rewrite Ht; cbn [memit mtrace]; rewrite <- ?app_assoc;
          reflexivity || (symmetry; apply app_nil_r)
      end
    | assumption | assumption
    | right; cbn [memit sk_counter] in *; assumption ]
  | left;
    match goal with
    | Hp : proxies_paths _ = _ ++ [?path] |- _ => exists path
    end;
    eexists; unfold created, announced;
    cbn [memit proxies_paths objects sk_counter] in *;
    split;
    [ split; [assumption|]; split; [eassumption|]; split; [assumption|];
      split; [assumption|]; split; [reflexivity|]; split; [reflexivity|];
      split; [rewrite Etype; reflexivity|]; split; [cbn; discriminate|];
      split; [reflexivity|];
      exists pre; apply new_mevents_app; cbn [memit mtrace];
      match goal with
      | Ht : mtrace _ = _ |- _ =>
          rewrite Ht; cbn [memit mtrace]; rewrite <- !app_assoc; reflexivity
      end
    | match goal with
      | |- filter is_sent (new_mevents ?a ?b) = [?x; ?y] =>
          rewrite (new_mevents_app a b (pre ++ [x; y]));
          [ rewrite filter_app; reflexivity
          | cbn [memit mtrace];
            match goal with
            | Ht : mtrace _ = _ |- _ =>
                rewrite Ht; cbn [memit mtrace]; rewrite <- !app_assoc;
                reflexivity
            end ]
      end ] ].

Lemma create_proxy_cases (r : mgr_res) (m : dbus_message)
    (uuid128 addr : string) (st : mstate) :
  (exists path prx,
     created r m uuid128 addr path prx st
       (create_proxy r m (Some (uuid128, addr)) st) /\
     announced m path st (create_proxy r m (Some (uuid128, addr)) st)) \/
  refused m st (create_proxy r m (Some (uuid128, addr)) st).
Proof.
  unfold create_proxy.
  assert (Herr : forall e, create_error m (MReply m e) ->
            forall evs s, filter is_sent evs = [] ->
            mtrace s = mtrace st ++ evs ->
            proxies_paths s = proxies_paths st -> objects s = objects st ->
            (sk_counter s = sk_counter st \/
             sk_counter s = sk_counter st + 1) ->
            refused m st (memit (MReply m e) s)).
  { intros e He evs s Hq Ht Hp Ho Hk.
    split; [exact Hp | split; [exact Ho | split; [exact Hk|]]].
    exists evs, (MReply m e). split; [|split; assumption].
    apply new_mevents_app. cbn [memit mtrace]. rewrite Ht.
    now rewrite app_assoc. }
  assert (Hst : mtrace st = mtrace st ++ []) by now rewrite app_nil_r.
  assert (Hinv : forall d, create_error m (MReply m (ErrInvalidArguments d)))
    by (intros d; left; eauto).
  assert (Hfail : forall d, create_error m (MReply m (ErrFailed d)))
    by (intros d; right; right; eauto).
  destruct (str2uuid r uuid128 <? 0);
    [right; eapply Herr with (evs := []); auto|].
  destruct (addr2type r addr) eqn:Etype;
    try (right; eapply Herr with (evs := []); now auto).
  all: destruct (g_slist_find_custom (proxies_paths st)
                   (fun path => proxycmp st path addr));
    [right; split; [reflexivity | split; [reflexivity | split; [now left|]]];
     exists [], (MAlreadyExists m "Proxy already exists");
     split; [now apply new_mevents_app | split; [reflexivity|]];
     right; left; reflexivity|].
  all: destruct (if g_hci_get_route r <? 0 then None
                 else g_hci_devba r (g_hci_get_route r)) as [src|];
    [|right; eapply Herr with (evs := []); now auto].
  - (* TTY *)
    unfold proxy_tty_register.
    destruct (g_open r) as [sk|e].
    + finish_register Herr Etype [MOpen addr; MClose sk].
    + right. eapply Herr with (evs := [MOpen addr]); auto.
  - (* Unix socket *)
    unfold proxy_socket_register.
    finish_register Herr Etype (@nil mevent).
  - (* TCP *)
    unfold proxy_tcp_register.
    finish_register Herr Etype (@nil mevent).
Qed.

(** CreateProxy is all or nothing.  Either it registers one proxy, with
    the address, the UUID and the type found for the address, disabled,
    at a path that no object had, moves the path counter on, and sends
    two messages: the ProxyCreated signal and the return of the path.  Or
    it registers nothing and sends exactly one message, last of all: an
    InvalidArguments, AlreadyExists or Failed error in answer to the
    call. *)
Theorem create_proxy_all_or_nothing (r : mgr_res) (m : dbus_message)
    (uuid128 addr : string) (st : mstate) :
  let st' := create_proxy r m (Some (uuid128, addr)) st in
  (exists path prx,
     created r m uuid128 addr path prx st st' /\ announced m path st st') \/
  refused m st st'.
Proof. cbv zeta. apply create_proxy_cases. Qed.

(** *** The registry invariant *)

Lemma apart_app_last (l : list string) (x : string) :
  apart l -> Forall (fun a => strcmp a x <> 0) l -> apart (l ++ [x]).
Proof.
  unfold apart. induction 1 as [|a l Ha Hl IH]; intros Hx; cbn [app].
  - repeat constructor.
  - inversion Hx; subst. constructor; [|auto].
    apply Forall_app. split; [exact Ha | repeat constructor; assumption].
Qed.

Lemma apart_remove (g : string * proxy -> string)
    (objs : list (string * proxy)) (path : string) :
  apart (map g objs) -> apart (map g (remove_object objs path)).
Proof.
  unfold apart. induction objs as [|[p prx] objs IH];
    cbn [map remove_object]; [auto|].
  intros H. inversion H as [|a l Ha Hl]; subst.
  destruct (strcmp p path =? 0); [exact Hl|].
  cbn [map]. constructor; [|auto].
  clear - Ha. induction objs as [|[q prx'] objs IH];
    cbn [map remove_object] in *; [constructor|].
  inversion Ha; subst.
  destruct (strcmp q path =? 0); [assumption|].
  cbn [map]. constructor; auto.
Qed.

Lemma map_fst_remove (objs : list (string * proxy)) (path : string) :
  map fst (remove_object objs path) = remove_path (map fst objs) path.
Proof.
  induction objs as [|[p prx] objs IH]; cbn [map remove_object remove_path fst];
    [reflexivity|].
  destruct (strcmp p path =? 0); [reflexivity|]. cbn [map fst]. now rewrite IH.
Qed.

Lemma lookup_self (objs : list (string * proxy)) (p : string) (prx : proxy) :
  apart (map fst objs) -> In (p, prx) objs ->
  get_object_user_data objs p = Some prx.
Proof.
  unfold apart. induction objs as [|[q old] objs IH]; intros Ha Hin;
    [contradiction|].
  cbn [map fst] in Ha. inversion Ha as [|a l Hq Hl]; subst.
  cbn [get_object_user_data]. destruct Hin as [E|Hin].
  - inversion E; subst. now rewrite strcmp_refl.
  - destruct (strcmp q p =? 0) eqn:E; [|auto].
    apply Z.eqb_eq in E. exfalso.
    rewrite Forall_forall in Hq. apply (Hq p); [|exact E].
    apply in_map_iff. exists (p, prx). auto.
Qed.

Lemma lookup_in (objs : list (string * proxy)) (path : string) (prx : proxy) :
  get_object_user_data objs path = Some prx ->
  exists p, In (p, prx) objs.
Proof.
  induction objs as [|[q old] objs IH]; cbn [get_object_user_data];
    [discriminate|].
  destruct (strcmp q path =? 0).
  - intros H. inversion H; subst. exists q. now left.
  - intros H. destruct (IH H) as [p Hp]. exists p. now right.
Qed.

Lemma find_custom_none (l : list string) (f : string -> Z) :
  g_slist_find_custom l f = None -> Forall (fun x => f x <> 0) l.
Proof.
  induction l as [|x l IH]; cbn [g_slist_find_custom]; [constructor|].
  destruct (f x =? 0) eqn:E; [discriminate|].
  apply Z.eqb_neq in E. intros H. constructor; auto.
Qed.

Lemma find_custom_some (l : list string) (f : string -> Z) (x : string) :
  In x l -> f x = 0 -> exists y, g_slist_find_custom l f = Some y.
Proof.
  induction l as [|z l IH]; intros Hin Hx; [contradiction|].
  cbn [g_slist_find_custom]. destruct (f z =? 0) eqn:E; [eauto|].
  destruct Hin as [->|Hin]; [|auto].
  apply Z.eqb_neq in E. contradiction.
Qed.

Lemma update_object_maps (objs : list (string * proxy)) (path : string)
    (old prx : proxy) :
  get_object_user_data objs path = Some old ->
  address prx = address old ->
  map fst (update_object objs path prx) = map fst objs /\
  map (fun o => address (snd o)) (update_object objs path prx)
  = map (fun o => address (snd o)) objs.
Proof.
  intros Hl Ha. induction objs as [|[q o] objs IH];
    cbn [get_object_user_data update_object map fst snd] in *;
    [discriminate|].
  destruct (strcmp q path =? 0).
  - inversion Hl; subst. cbn [map fst snd]. rewrite Ha. auto.
  - destruct (IH Hl) as [E1 E2]. cbn [map fst snd]. rewrite E1, E2. auto.
Qed.

Lemma set_object_consistent (st : mstate) (path : string) (old prx : proxy) :
  registry_consistent st ->
  get_object_user_data (objects st) path = Some old ->
  address prx = address old ->
  registry_consistent (set_object path prx st).
Proof.
  intros (Hp & H1 & H2) Hl Ha. unfold registry_consistent, set_object.
  cbn [proxies_paths objects].
  destruct (update_object_maps _ _ _ _ Hl Ha) as [-> ->]. auto.
Qed.

Lemma created_consistent (r : mgr_res) (m : dbus_message)
    (uuid128 addr path : string) (prx : proxy) (st st' : mstate) :
  registry_consistent st ->
  g_slist_find_custom (proxies_paths st) (fun p => proxycmp st p addr) = None ->
  created r m uuid128 addr path prx st st' ->
  registry_consistent st'.
Proof.
  intros (Hp & H1 & H2) Hfind (Hp' & Ho' & Hn & _ & Ha & _).
  unfold registry_consistent. rewrite Hp', Ho', Hp, !map_app.
  cbn [map fst snd]. split; [reflexivity|]. split.
  - apply apart_app_last; [exact H1|].
    apply lookup_none in Hn. rewrite Forall_map. exact Hn.
  - apply apart_app_last; [exact H2|].
    apply find_custom_none in Hfind. rewrite Hp in Hfind.
    rewrite Forall_map. rewrite Forall_forall in Hfind |- *.
    intros [p old] Hin. cbn [snd].
    assert (Hq : In p (map fst (objects st)))
      by (apply in_map_iff; exists (p, old); auto).
    specialize (Hfind p Hq). unfold proxycmp in Hfind.
    rewrite (lookup_self _ _ _ H1 Hin) in Hfind. now rewrite Ha.
Qed.

Lemma create_proxy_consistent (r : mgr_res) (m : dbus_message)
    (args : option (string * string)) (st : mstate) :
  registry_consistent st -> registry_consistent (create_proxy r m args st).
Proof.
  intros Hc. destruct args as [[uuid128 addr]|]; [|exact Hc].
  destruct (create_proxy_cases r m uuid128 addr st)
    as [(path & prx & Hcr & _) | (Hp & Ho & _)].
  - destruct (g_slist_find_custom (proxies_paths st)
                (fun p => proxycmp st p addr)) eqn:Ef.
    + (* a match is answered AlreadyExists: nothing is created *)
      exfalso. destruct Hcr as (Hp' & _).
      unfold create_proxy in Hp'. rewrite Ef in Hp'.
      destruct (str2uuid r uuid128 <? 0);
        [|destruct (addr2type r addr)];
        cbn [memit proxies_paths] in Hp';
        apply (f_equal (@List.length string)) in Hp';
        rewrite length_app in Hp'; cbn [List.length] in Hp'; lia.
    + eapply created_consistent; eassumption.
  - destruct Hc as (Hc1 & Hc2 & Hc3). unfold registry_consistent.
    rewrite Hp, Ho. auto.
Qed.

Lemma remove_proxy_consistent (r : mgr_res) (m : dbus_message)
    (args : option string) (st : mstate) :
  registry_consistent st -> registry_consistent (remove_proxy r m args st).
Proof.
  intros (Hp & H1 & H2). unfold remove_proxy.
  destruct args as [path|]; [|split; auto].
  destruct (g_slist_find_custom (proxies_paths st) (fun x => strcmp x path));
    [|split; auto].
  unfold destroy_object_path.
  assert (Hgoal : forall tr1 tr2,
            registry_consistent
              {| proxies_paths := remove_path (proxies_paths st) path;
                 objects := remove_object (objects st) path;
                 sk_counter := sk_counter st; mtrace := tr1 |} /\
            (get_object_user_data (objects st) path = None ->
             registry_consistent
               {| proxies_paths := remove_path (proxies_paths st) path;
                  objects := objects st;
                  sk_counter := sk_counter st; mtrace := tr2 |})).
  { intros tr1 tr2. unfold registry_consistent. cbn [proxies_paths objects].
    split.
    - rewrite Hp, map_fst_remove. split; [reflexivity|].
      rewrite <- map_fst_remove.
      split; now apply apart_remove.
    - intros Hn. rewrite Hp.
      assert (E : remove_path (map fst (objects st)) path
                  = map fst (objects st)).
      { apply lookup_none in Hn. clear - Hn.
        induction Hn as [|[q o] l Hq Hl IH]; cbn [map fst remove_path];
          [reflexivity|].
        cbn [fst] in Hq. apply Z.eqb_neq in Hq. rewrite Hq. now rewrite IH. }
      rewrite E. auto. }
  destruct (get_object_user_data (objects st) path) as [prx|] eqn:El;
    cbn [memit memits proxies_paths objects sk_counter mtrace];
    rewrite ?El.
  - apply (Hgoal _ []).
  - apply (Hgoal []). reflexivity.
Qed.

Lemma listen_dispatch_address (r : accept_res) (chan cond : Z)
    (prx prx' : proxy) (pevs : list pevent) (cevs : list cevent) :
  listen_dispatch r chan cond prx = Some (prx', pevs, cevs) ->
  address prx' = address prx.
Proof.
  unfold listen_dispatch, connect_event.
  destruct (negb (Z.land cond G_IO_NVAL =? 0));
    [intros H; inversion H; reflexivity|].
  destruct (negb (Z.land cond (Z.lor G_IO_ERR G_IO_HUP) =? 0));
    [intros H; inversion H; reflexivity|].
  destruct (a_accept r); [|intros H; inversion H; reflexivity].
  destruct (local_connect r (set_dst (a_peer r) prx)) as [[lsk evs]|];
    [|discriminate].
  destruct (lsk <? 0); intros H; inversion H; reflexivity.
Qed.

Lemma mstep_consistent (st st' : mstate) :
  registry_consistent st -> mstep st st' -> registry_consistent st'.
Proof.
  intros Hc Hs. destruct Hs.
  - now apply create_proxy_consistent.
  - now apply remove_proxy_consistent.
  - exact Hc.
  - eapply set_object_consistent; [exact Hc | eassumption|].
    unfold proxy_enable.
    destruct (negb (listen_watch prx =? 0)); [reflexivity|].
    destruct (rfcomm_listen r (src prx) (Some (channel prx)) 0)
      as [[sk ch] evs].
    destruct ch; destruct (sk <? 0); cbn [fst snd];
      try reflexivity;
      match goal with
      | |- context [record_id ?p =? 0] => destruct (record_id p =? 0)
      end; reflexivity.
  - eapply set_object_consistent; [exact Hc | eassumption|].
    unfold proxy_disable. destruct (listen_watch prx =? 0); reflexivity.
  - eapply set_object_consistent; [exact Hc | eassumption|].
    unfold proxy_set_serial_params.
    repeat first [reflexivity | break_inner].
  - eapply set_object_consistent; [exact Hc | eassumption|].
    eapply listen_dispatch_address. eassumption.
Qed.

(** From a registry without proxies, whatever calls are made on the
    manager and on the proxies, the listed paths are those of the proxy
    objects, the paths differ from one another and so do the addresses:
    there is never more than one proxy per address.  A CreateProxy for
    the address of a registered proxy is answered AlreadyExists and
    changes nothing. *)
Theorem one_proxy_per_address (st : mstate) :
  mreachable st ->
  registry_consistent st /\
  forall r m uuid128 path prx,
    In (path, prx) (objects st) ->
    str2uuid r uuid128 = 0 ->
    addr2type r (address prx) <> UNKNOWN_PROXY_TYPE ->
    create_proxy r m (Some (uuid128, address prx)) st
    = memit (MAlreadyExists m "Proxy already exists") st.
Proof.
  intros Hr.
  assert (Hc : registry_consistent st).
  { induction Hr as [st Hp Ho | st st' _ IH Hs].
    - unfold registry_consistent. rewrite Hp, Ho.
      repeat split; constructor.
    - eapply mstep_consistent; eassumption. }
  split; [exact Hc|].
  intros r m uuid128 path prx Hin Hu Ht. unfold create_proxy.
  rewrite Hu. cbn [Z.ltb Z.compare].
  destruct Hc as (Hp & H1 & _).
  destruct (find_custom_some (proxies_paths st)
              (fun p => proxycmp st p (address prx)) path) as [y ->].
  - rewrite Hp. apply in_map_iff. exists (path, prx). auto.
  - unfold proxycmp. rewrite (lookup_self _ _ _ H1 Hin). apply strcmp_refl.
  - destruct (addr2type r (address prx)); try reflexivity. contradiction.
Qed.

Lemma one_proxy_per_address_witness :
  registry_consistent one_proxy /\
  create_proxy plain_env create_msg (Some (spp_uuid, "localhost:7000"))
    one_proxy
  = memit (MAlreadyExists create_msg "Proxy already exists") one_proxy.
Proof.
  assert (Hr : mreachable one_proxy).
  { apply mreachable_step with (st := no_proxies).
    - apply mreachable_start; reflexivity.
    - apply mstep_create_proxy. }
  destruct (one_proxy_per_address one_proxy Hr) as [Hc Hdup].
  split; [exact Hc|].
  apply (Hdup plain_env create_msg spp_uuid "/org/bluez/serial/proxy0"
           (new_proxy 1 spp_uuid "localhost:7000" TCP_SOCKET_PROXY)).
  - left. reflexivity.
  - reflexivity.
  - discriminate.
Defined.

(** *** RemoveProxy *)

(** RemoveProxy of the path CreateProxy returned takes the registry back
    to where it was: the proxy is deleted from storage, its path leaves
    the list, its object is unregistered (which restores a TTY and
    withdraws the listening side), the removal is signalled and the call
    answered.  The path counter is not taken back, and a second
    RemoveProxy of the path is refused. *)
Theorem remove_undoes_create (r r' r'' : mgr_res) (m m' m'' : dbus_message)
    (uuid128 addr path : string) (prx : proxy) (st st1 : mstate) :
  registry_consistent st ->
  created r m uuid128 addr path prx st st1 ->
  let st2 := remove_proxy r' m' (Some path) st1 in
  proxies_paths st2 = proxies_paths st /\
  objects st2 = objects st /\
  sk_counter st2 = sk_counter st + 1 /\
  new_mevents st1 st2
  = [MProxyDelete (src prx) addr] ++ proxy_handler_unregister r' prx
    ++ [MSignal "ProxyRemoved" path; MReply m' (MethodReturn [])] /\
  remove_proxy r'' m'' (Some path) st2
  = memit (MReply m'' (ErrDoesNotExist "Invalid proxy path")) st2.
Proof.
  intros (Hp & H1 & H2) (Hp' & Ho' & Hn & Hc & Ha & _). cbv zeta.
  destruct (lookup_app_last (objects st) path prx Hn) as (Hl & Hro & Hrp).
  assert (E2 : remove_proxy r' m' (Some path) st1
               = {| proxies_paths := proxies_paths st;
                    objects := objects st;
                    sk_counter := sk_counter st1;
                    mtrace := mtrace st1
                              ++ [MProxyDelete (src prx) addr]
                              ++ proxy_handler_unregister r' prx
                              ++ [MSignal "ProxyRemoved" path;
                                  MReply m' (MethodReturn [])] |}).
  { unfold remove_proxy, destroy_object_path. rewrite Hp', Ho'.
    destruct (find_path_last (proxies_paths st) path) as [x ->].
    rewrite Hl. cbn [memit proxies_paths objects sk_counter mtrace].
    rewrite Hp', Ho', Hl, Hro, Hp, Hrp, Ha.
    unfold memit, memits. cbn [proxies_paths objects sk_counter mtrace].
    rewrite <- !app_assoc. reflexivity. }
  rewrite E2. cbn [proxies_paths objects sk_counter].
  repeat split.
  - exact Hc.
  - apply new_mevents_app. reflexivity.
  - unfold remove_proxy. cbn [proxies_paths].
    rewrite find_path_none; [reflexivity|].
    apply lookup_none in Hn. rewrite Hp, Forall_map. exact Hn.
Qed.

Lemma remove_undoes_create_witness :
  proxies_paths
    (remove_proxy plain_env remove_msg (Some "/org/bluez/serial/proxy0")
       one_proxy) = [] /\
  objects
    (remove_proxy plain_env remove_msg (Some "/org/bluez/serial/proxy0")
       one_proxy) = [].
Proof.
  destruct (remove_undoes_create plain_env plain_env plain_env create_msg
              remove_msg remove_msg spp_uuid "localhost:7000"
              "/org/bluez/serial/proxy0"
              (new_proxy 1 spp_uuid "localhost:7000" TCP_SOCKET_PROXY)
              no_proxies one_proxy) as (Hp & Ho & _).
  - repeat split; constructor.
  - repeat split; try reflexivity; try discriminate.
    exists []. reflexivity.
  - split; [exact Hp | exact Ho].
Defined.

(** *** Addresses and the local side *)

(** [strncmp] answering 0 over the whole length of a literal without NUL
    means that the other string starts with the literal. *)
Lemma strncmp_prefix (lit s : string) :
  (forall n c, String.get n lit = Some c -> code c <> 0) ->
  strncmp lit s (String.length lit) = 0 ->
  exists rest, s = (lit ++ rest)%string.
Proof.
  revert s. induction lit as [|l lit IH]; intros s Hnul H.
  - exists s. reflexivity.
  - cbn [String.length strncmp] in H. destruct s as [|a s].
    + exfalso. apply (Hnul 0%nat l); [reflexivity | exact H].
    + destruct (code l =? code a) eqn:E.
      * apply Z.eqb_eq, code_inj in E. subst a.
        destruct (IH s) as [rest ->]; [|exact H|].
        -- intros n c Hc. apply (Hnul (S n) c). exact Hc.
        -- exists rest. reflexivity.
      * apply Z.eqb_neq in E. lia.
Qed.

Lemma tcp_address_has_port (r : mgr_res) (addr : string) :
  addr2type r addr = TCP_SOCKET_PROXY ->
  exists rest, addr = ("localhost:" ++ rest)%string.
Proof.
  unfold addr2type. destruct (g_stat r addr) as [mode|].
  - destruct (S_ISCHR mode && (strncmp "/dev/" addr 4 =? 0));
      [discriminate|].
    destruct (S_ISSOCK mode); discriminate.
  - destruct (strncmp "localhost:" addr 10 =? 0) eqn:E.
    + intros _. apply Z.eqb_eq in E.
      apply (strncmp_prefix "localhost:" addr); [|exact E].
      intros n c Hc.
      do 10 (destruct n as [|n];
             [cbn in Hc; inversion Hc; subst; vm_compute; discriminate|]).
      cbn in Hc. discriminate.
    + destruct (negb (strncmp "x00" addr 3 =? 0)); discriminate.
Qed.

Lemma unix_socket_connect_defined (ra : accept_res) (addr : string) :
  unix_socket_connect ra addr = None <-> ~ fits_sun_path addr.
Proof.
  unfold unix_socket_connect, fits_sun_path.
  destruct (strncmp "x00" addr 3 =? 0).
  - destruct (sun_path_room true <? strlen (str_offset 3 addr) + 1) eqn:E.
    + apply Z.ltb_lt in E. split; [lia | reflexivity].
    + apply Z.ltb_ge in E. split; [|lia].
      destruct (a_socket ra); [destruct (a_connect ra)|]; discriminate.
  - destruct (sun_path_room false <? strlen addr + 1) eqn:E.
    + apply Z.ltb_lt in E. split; [lia | reflexivity].
    + apply Z.ltb_ge in E. split; [|lia].
      destruct (a_socket ra); [destruct (a_connect ra)|]; discriminate.
Qed.

Lemma tcp_socket_connect_defined (r : mgr_res) (ra : accept_res)
    (addr : string) :
  addr2type r addr = TCP_SOCKET_PROXY -> tcp_socket_connect ra addr <> None.
Proof.
  intros Ht. destruct (tcp_address_has_port r addr Ht) as [rest ->].
  unfold tcp_socket_connect.
  change (strncmp ("localhost:" ++ rest)%string "localhost" 9) with 0.
  cbn [Z.eqb negb].
  change (strchr ("localhost:" ++ rest)%string ":")
    with (Some (":" ++ rest)%string).
  cbv zeta. repeat break_inner; discriminate.
Qed.

(** For a proxy whose type is the one CreateProxy finds for its address,
    the accept path is defined on every condition and every outcome of
    the calls it makes, with one exception: a unix-socket proxy whose
    address does not fit [sun_path], when a connection is accepted.
    CreateProxy does not look at the length of the address, and
    [unix_socket_connect] copies it unchecked.  A TCP proxy always has
    the colon that [tcp_socket_connect] looks for. *)
Theorem accept_undefined_only_for_long_unix_address
    (r : mgr_res) (ra : accept_res) (chan cond : Z) (prx : proxy) :
  type prx = addr2type r (address prx) ->
  (connect_event ra chan cond prx = None <->
   type prx = UNIX_SOCKET_PROXY /\ accepting ra cond /\
   ~ fits_sun_path (address prx)).
Proof.
  intros Ht. unfold connect_event, accepting.
  destruct (Z.land cond G_IO_NVAL =? 0) eqn:E1; cbn [negb];
    [apply Z.eqb_eq in E1
    |apply Z.eqb_neq in E1; split; [discriminate | tauto]].
  destruct (Z.land cond (Z.lor G_IO_ERR G_IO_HUP) =? 0) eqn:E2; cbn [negb];
    [apply Z.eqb_eq in E2
    |apply Z.eqb_neq in E2; split; [discriminate | tauto]].
  destruct (a_accept ra) as [rsk|e];
    [|split; [discriminate | intros (_ & (_ & _ & x & Hx) & _); discriminate]].
  cbv zeta. unfold local_connect. cbn [set_dst type address proxy_ti].
  destruct (type prx) eqn:Et.
  - destruct (tty_open ra (address prx) (proxy_ti prx)) as [lsk evs].
    destruct (lsk <? 0); split; try discriminate;
      intros (H & _); discriminate.
  - pose proof (unix_socket_connect_defined ra (address prx)) as Hu.
    destruct (unix_socket_connect ra (address prx)) as [[lsk evs]|].
    + destruct (lsk <? 0); split; try discriminate;
        intros (_ & _ & Hf); apply Hu in Hf; discriminate.
    + split; [|reflexivity]. intros _.
      split; [reflexivity|]. split; [eauto|]. now apply Hu.
  - symmetry in Ht. pose proof (tcp_socket_connect_defined r ra _ Ht) as Hd.
    destruct (tcp_socket_connect ra (address prx)) as [[lsk evs]|];
      [|contradiction].
    destruct (lsk <? 0); split; try discriminate;
      intros (H & _); discriminate.
  - cbn [Z.ltb Z.compare]. split; [discriminate|]. intros (H & _).
    discriminate.
Qed.

Lemma accept_undefined_only_for_long_unix_address_witness :
  connect_event ProxyControlSpec.accept_ok 14 1
    (new_proxy 1 spp_uuid ("x00" ++ long_name) UNIX_SOCKET_PROXY)
  = None /\
  connect_event ProxyControlSpec.accept_ok 14 1
    (new_proxy 1 spp_uuid "x00/bluez/proxy" UNIX_SOCKET_PROXY)
  <> None.
Proof.
  split.
  - apply (accept_undefined_only_for_long_unix_address plain_env
             ProxyControlSpec.accept_ok 14 1
             (new_proxy 1 spp_uuid ("x00" ++ long_name) UNIX_SOCKET_PROXY)).
    + reflexivity.
    + split; [reflexivity|]. split.
      * split; [reflexivity|]. split; [reflexivity|]. exists 12. reflexivity.
      * vm_compute. intros H. apply H. reflexivity.
  - intros H.
    apply (accept_undefined_only_for_long_unix_address plain_env
             ProxyControlSpec.accept_ok 14 1
             (new_proxy 1 spp_uuid "x00/bluez/proxy" UNIX_SOCKET_PROXY))
      in H; [|reflexivity].
    destruct H as (_ & _ & H). apply H. vm_compute. discriminate.
Defined.

End ProxyManagerFacts.
